(** * file_parser.py: a shallow embedding and its verified properties

    The development follows [01_Python_Basics/Mini_Projects/file_parser.py]:

    - [Text]: the [str] methods the parser calls ([lower], [strip],
      [rstrip], [ljust], slicing, [os.path.splitext]);
    - [Py]: Python values, insertion-ordered dictionaries, exceptions;
    - [IO]: file objects living in a store, so that a generator and its
      creator alias the same object;
    - [Csv]: the reader of the [csv] module ([_csv.c] state machine with the
      [excel] dialect) and [csv.DictReader];
    - [FP]: [_open_file], [_guess_format], the decoders as generators
      (a prologue run at the first [next], then one loop iteration per
      [next]) and [FileParser.parse];
    - [Json], [Xml], [Ini]: executable models of [json.loads],
      [ElementTree.parse] and [ConfigParser.read_file], used to run the
      decoders on concrete input;
    - [Cli]: the command line of [main].

    Characters are 8-bit code points (the Latin-1 range); the text of a file
    is what Python's text layer hands over after decoding and newline
    translation, so a line ends with at most one ["\n"]. *)

From Stdlib Require Import ZArith Lia Ascii String.
From stdpp Require Import base list strings sets.
Import ListNotations.

Local Open Scope Z_scope.

(* ================================================================== *)
(** * Text: the [str] operations used by the parser *)
(* ================================================================== *)

Module Text.

Definition chars (s : string) : list ascii := list_ascii_of_string s.
Definition str (l : list ascii) : string := string_of_list_ascii l.

Definition code (c : ascii) : Z := Z.of_N (N_of_ascii c).

(** [len(s)] *)
Definition len (s : string) : Z := Z.of_nat (length (chars s)).

(** [str.lower] on one character: A-Z, and the Latin-1 capitals
    U+00C0..U+00DE except the multiplication sign U+00D7. *)
Definition lower_char (c : ascii) : ascii :=
  let n := code c in
  if ((65 <=? n) && (n <=? 90)) || ((192 <=? n) && (n <=? 222) && negb (n =? 215))
  then ascii_of_N (Z.to_N (n + 32)) else c.

(** [s.lower()] *)
Definition lower (s : string) : string := str (map lower_char (chars s)).

(** [str.isspace] on one character of the Latin-1 range. *)
Definition is_space (c : ascii) : bool :=
  let n := code c in
  ((9 <=? n) && (n <=? 13)) || ((28 <=? n) && (n <=? 32)) || (n =? 133) || (n =? 160).

Fixpoint drop_while (p : ascii -> bool) (l : list ascii) : list ascii :=
  match l with
  | [] => []
  | c :: r => if p c then drop_while p r else l
  end.

(** [s.strip()]: leading and trailing whitespace removed. *)
Definition strip (s : string) : string :=
  str (rev (drop_while is_space (rev (drop_while is_space (chars s))))).

Definition is_nl (c : ascii) : bool := code c =? 10.

(** [s.rstrip("\n")]: every trailing newline removed. *)
Definition rstrip_nl (s : string) : string :=
  str (rev (drop_while is_nl (rev (chars s)))).

(** The widths that a [str] method takes: the range of [Py_ssize_t]. *)
Definition ssize_max : Z := 2 ^ 63 - 1.

Definition fits_ssize (n : Z) : bool := (- 2 ^ 63 <=? n) && (n <=? ssize_max).

(** [s.ljust(width)] for a width that [fits_ssize]: padded with spaces
    on the right up to [width]; unchanged when [width <= len(s)]. For
    any other width the call raises [OverflowError] and has no result:
    the caller, [FP.step], tests [fits_ssize] before it pads. The memory
    a long string takes is not modelled. *)
Definition ljust (s : string) (width : Z) : string :=
  str (chars s ++ replicate (Z.to_nat (width - len s)) " "%char).

(** Python's slice index clamping for [s[lo:hi]] on a sequence of
    length [n]: a negative index counts from the end. *)
Definition clamp (n i : Z) : Z :=
  if i <? 0 then Z.max (i + n) 0 else Z.min i n.

(** [s[lo:hi]] *)
Definition slice (s : string) (lo hi : Z) : string :=
  let n := len s in
  let a := clamp n lo in
  let b := clamp n hi in
  str (take (Z.to_nat (b - a)) (drop (Z.to_nat a) (chars s))).

(** [s[i:i+1]] compared with one character, as [_splitext] does. *)
Definition char_at_is (s : string) (i : Z) (c : ascii) : bool :=
  bool_decide (slice s i (i + 1) = String c "").

(** [s.rfind(c)] for a one-character needle: the highest index, or -1. *)
Fixpoint rfind_from (c : ascii) (l : list ascii) (i last : Z) : Z :=
  match l with
  | [] => last
  | a :: r => rfind_from c r (i + 1) (if bool_decide (a = c) then i else last)
  end.

Definition rfind (s : string) (c : ascii) : Z := rfind_from c (chars s) 0 (-1).

(** The [while filenameIndex < dotIndex] loop of [genericpath._splitext];
    [n] is the number of iterations left, [dotIndex - filenameIndex]. *)
Fixpoint splitext_loop (n : nat) (p : string) (extsep : ascii)
    (filenameIndex dotIndex : Z) : string * string :=
  match n with
  | O => (p, "")
  | S n' =>
      if negb (char_at_is p filenameIndex extsep)
      then (slice p 0 dotIndex, slice p dotIndex (len p))
      else splitext_loop n' p extsep (filenameIndex + 1) dotIndex
  end.

(** [genericpath._splitext(p, sep, None, extsep)] *)
Definition _splitext (p : string) (sep extsep : ascii) : string * string :=
  let sepIndex := rfind p sep in
  let dotIndex := rfind p extsep in
  if sepIndex <? dotIndex
  then splitext_loop (Z.to_nat (dotIndex - (sepIndex + 1))) p extsep (sepIndex + 1) dotIndex
  else (p, "").

(** [os.path.splitext] of [posixpath]. *)
Definition splitext (p : string) : string * string := _splitext p "/"%char "."%char.

End Text.

(* ================================================================== *)
(** * Py: values, dictionaries, exceptions *)
(* ================================================================== *)

Module Py.

(** A dictionary key: a [str], or [None] (the default [restkey] of
    [csv.DictReader]). *)
Inductive key :=
  | KNone
  | KStr (s : string).

Global Instance key_eq_dec : EqDecision key.
Proof. solve_decision. Defined.

(** The values a record can hold. A [float] is kept as its literal. *)
Local Unset Elimination Schemes.
Inductive value :=
  | VNone
  | VBool (b : bool)
  | VInt (n : Z)
  | VFloat (literal : string)
  | VStr (s : string)
  | VList (items : list value)
  | VDict (entries : list (key * value)).
Local Set Elimination Schemes.

(** A [dict]: insertion-ordered, one entry per key. *)
Definition dict := list (key * value).

(** [k in d] *)
Fixpoint dict_mem (k : key) (d : dict) : bool :=
  match d with
  | [] => false
  | (k', _) :: r => if decide (k' = k) then true else dict_mem k r
  end.

(** [d.get(k)]; [None] when the key is absent. *)
Fixpoint dict_get (k : key) (d : dict) : option value :=
  match d with
  | [] => None
  | (k', v) :: r => if decide (k' = k) then Some v else dict_get k r
  end.

(** [d[k] = v]: an existing key keeps its position, a new one is appended. *)
Fixpoint dict_set (k : key) (v : value) (d : dict) : dict :=
  match d with
  | [] => [(k, v)]
  | (k', v') :: r => if decide (k' = k) then (k, v) :: r else (k', v') :: dict_set k v r
  end.

(** [d.update(pairs)] and [dict(pairs)] *)
Definition dict_update (d : dict) (pairs : list (key * value)) : dict :=
  foldl (fun acc kv => dict_set kv.1 kv.2 acc) d pairs.

Definition dict_of (pairs : list (key * value)) : dict := dict_update [] pairs.

(** The field names of a record, in order. *)
Definition keys (d : dict) : list key := map fst d.

(** The exceptions the parser and the library calls raise. *)
Inductive exc :=
  | ValueError (msg : string)
  | TypeError (msg : string)
  | OSError (msg : string)
  | LookupError (msg : string)
  | UnicodeDecodeError
  | OverflowError (msg : string)
  | JSONDecodeError (msg : string)
  | ParseError (msg : string)
  | CsvError (msg : string)
  | ConfigError (msg : string).

(** The outcome of a call: a value or a raised exception. *)
Inductive res (A : Type) :=
  | Ok (a : A)
  | Raise (e : exc).
Global Arguments Ok {A} a.
Global Arguments Raise {A} e.

End Py.

(* ================================================================== *)
(** * IO: file objects in a store *)
(* ================================================================== *)

Module IO.
Import Py.

(** A text file object: the lines not read yet (each with its newline,
    the last one possibly without) and whether it was closed. [f_name] is
    the [name] attribute, absent on streams such as [io.StringIO]. *)
Record file := mkfile {
  f_name : option string;
  f_lines : list string;
  f_closed : bool
}.

(** The store of file objects; a handle is a position in it. Handles stand
    for Python references, so every handle in use is allocated; reading an
    unallocated one gives a closed, empty file. *)
Abbreviation handle := nat (only parsing).
Abbreviation heap := (list file) (only parsing).

Definition no_file : file := mkfile None [] true.

Definition file_at (σ : heap) (h : handle) : file := default no_file (σ !! h).

Definition set_lines (σ : heap) (h : handle) (ls : list string) : heap :=
  match σ !! h with
  | Some f => <[h := mkfile (f_name f) ls (f_closed f)]> σ
  | None => σ
  end.

(** [f.close()] *)
Definition close (σ : heap) (h : handle) : heap :=
  match σ !! h with
  | Some f => <[h := mkfile (f_name f) (f_lines f) true]> σ
  | None => σ
  end.

(** A new file object; its handle is the next free position. *)
Definition alloc (σ : heap) (f : file) : handle * heap := (length σ, σ ++ [f]).

Definition closed_error : exc := ValueError "I/O operation on closed file.".

(** [next(f)]: one line, or nothing at the end of the file. *)
Definition next_line (σ : heap) (h : handle) : res (option string) * heap :=
  let f := file_at σ h in
  if f_closed f then (Raise closed_error, σ)
  else match f_lines f with
       | [] => (Ok None, σ)
       | l :: r => (Ok (Some l), set_lines σ h r)
       end.

(** [f.read()]: everything that is left. *)
Definition read (σ : heap) (h : handle) : res string * heap :=
  let f := file_at σ h in
  if f_closed f then (Raise closed_error, σ)
  else (Ok (String.concat "" (f_lines f)), set_lines σ h []).

(** The text of a file cut into the lines that iteration delivers. *)
Fixpoint split_lines (cur : list ascii) (l : list ascii) : list string :=
  match l with
  | [] => match cur with [] => [] | _ => [Text.str (rev cur)] end
  | c :: r =>
      if Text.is_nl c then Text.str (rev (c :: cur)) :: split_lines [] r
      else split_lines (c :: cur) r
  end.

Definition lines_of (content : string) : list string := split_lines [] (Text.chars content).

End IO.

(* ================================================================== *)
(** * Csv: [csv.reader] with the [excel] dialect, and [csv.DictReader] *)
(* ================================================================== *)

Module Csv.
Import Py.

(** The parser states of [_csv.c] that are reachable without an escape
    character (the [excel] dialect has none). *)
Inductive state :=
  | START_RECORD
  | START_FIELD
  | IN_FIELD
  | IN_QUOTED_FIELD
  | QUOTE_IN_QUOTED_FIELD
  | EAT_CRNL.

Global Instance state_eq_dec : EqDecision state.
Proof. solve_decision. Defined.

(** The part of [ReaderObj] that [parse_process_char] works on; the fields
    saved so far and the field being collected are kept reversed. *)
Record parser := mkparser {
  p_state : state;
  p_fields : list string;
  p_field : list ascii
}.

Definition quotechar : ascii := "034"%char.
Definition field_limit : Z := 131072.

(** [parse_reset] *)
Definition parse_reset : parser := mkparser START_RECORD [] [].

(** [parse_save_field] *)
Definition parse_save_field (p : parser) : parser :=
  mkparser (p_state p) (Text.str (rev (p_field p)) :: p_fields p) [].

(** [parse_add_char] *)
Definition parse_add_char (p : parser) (c : ascii) : res parser :=
  if field_limit <=? Z.of_nat (length (p_field p))
  then Raise (CsvError "field larger than field limit (131072)")
  else Ok (mkparser (p_state p) (p_fields p) (c :: p_field p)).

Definition set_state (p : parser) (s : state) : parser :=
  mkparser s (p_fields p) (p_field p).

Definition is_crnl (c : ascii) : bool :=
  (Text.code c =? 10) || (Text.code c =? 13).

Definition add_then (p : parser) (c : ascii) (s : state) : res parser :=
  match parse_add_char p c with
  | Ok p' => Ok (set_state p' s)
  | Raise e => Raise e
  end.

(** The [START_FIELD] case, which [START_RECORD] falls through to. *)
Definition start_field (delimiter : ascii) (p : parser) (c : option ascii) : res parser :=
  match c with
  | None => Ok (set_state (parse_save_field p) START_RECORD)
  | Some a =>
      if is_crnl a then Ok (set_state (parse_save_field p) EAT_CRNL)
      else if bool_decide (a = quotechar) then Ok (set_state p IN_QUOTED_FIELD)
      else if bool_decide (a = delimiter) then Ok (set_state (parse_save_field p) START_FIELD)
      else add_then p a IN_FIELD
  end.

(** [parse_process_char]; the end-of-line marker [EOL] is [None]. *)
Definition parse_process_char (delimiter : ascii) (p : parser) (c : option ascii) : res parser :=
  match p_state p with
  | START_RECORD =>
      match c with
      | None => Ok p
      | Some a =>
          if is_crnl a then Ok (set_state p EAT_CRNL)
          else start_field delimiter p c
      end
  | START_FIELD => start_field delimiter p c
  | IN_FIELD =>
      match c with
      | None => Ok (set_state (parse_save_field p) START_RECORD)
      | Some a =>
          if is_crnl a then Ok (set_state (parse_save_field p) EAT_CRNL)
          else if bool_decide (a = delimiter) then Ok (set_state (parse_save_field p) START_FIELD)
          else parse_add_char p a
      end
  | IN_QUOTED_FIELD =>
      match c with
      | None => Ok p
      | Some a =>
          if bool_decide (a = quotechar) then Ok (set_state p QUOTE_IN_QUOTED_FIELD)
          else parse_add_char p a
      end
  | QUOTE_IN_QUOTED_FIELD =>
      match c with
      | None => Ok (set_state (parse_save_field p) START_RECORD)
      | Some a =>
          if bool_decide (a = quotechar) then add_then p a IN_QUOTED_FIELD
          else if bool_decide (a = delimiter) then Ok (set_state (parse_save_field p) START_FIELD)
          else if is_crnl a then Ok (set_state (parse_save_field p) EAT_CRNL)
          else add_then p a IN_FIELD
      end
  | EAT_CRNL =>
      match c with
      | None => Ok (set_state p START_RECORD)
      | Some a =>
          if is_crnl a then Ok p
          else Raise (CsvError "new-line character seen in unquoted field - do you need to open the file in universal-newline mode?")
      end
  end.

(** The characters of one line, then [EOL]. *)
Fixpoint feed (delimiter : ascii) (p : parser) (l : list ascii) : res parser :=
  match l with
  | [] => parse_process_char delimiter p None
  | c :: r =>
      match parse_process_char delimiter p (Some c) with
      | Ok p' => feed delimiter p' r
      | Raise e => Raise e
      end
  end.

(** The [do ... while (state != START_RECORD)] loop of [Reader_iternext]
    over the lines still in the file; [n] is [line_num]. The result is a
    row, or nothing at the end of the input ([StopIteration]). With
    [skip] set, an empty row starts the next call at once: this is
    [while row == []: row = next(self.reader)] of [DictReader.__next__]. *)
Fixpoint read_rows (skip : bool) (delimiter : ascii) (p : parser)
    (lines : list string) (n : nat) : res (option (list string)) * list string * nat :=
  match lines with
  | [] =>
      if negb (bool_decide (p_field p = [])) || bool_decide (p_state p = IN_QUOTED_FIELD)
      then (Ok (Some (rev (p_fields (parse_save_field p)))), [], n)
      else (Ok None, [], n)
  | l :: r =>
      match feed delimiter p (Text.chars l) with
      | Raise e => (Raise e, r, S n)
      | Ok p' =>
          if bool_decide (p_state p' = START_RECORD)
          then if skip && bool_decide (p_fields p' = [])
               then read_rows skip delimiter parse_reset r (S n)
               else (Ok (Some (rev (p_fields p'))), r, S n)
          else read_rows skip delimiter p' r (S n)
      end
  end.

(** [next(reader)] *)
Definition reader_next (delimiter : ascii) (lines : list string) (n : nat) :=
  read_rows false delimiter parse_reset lines n.

Definition delimiter_error : exc :=
  TypeError (String quotechar "delimiter" +:+ String quotechar " must be a 1-character string").

(** The [delimiter] check of the dialect: a string of one character,
    whichever it is. *)
Definition check_delimiter (d : string) : res ascii :=
  match Text.chars d with
  | [c] => Ok c
  | _ => Raise delimiter_error
  end.

(** [csv.DictReader(f, delimiter=...)]: [restkey] and [restval] are [None]. *)
Record DictReader := mkDictReader {
  delimiter : ascii;
  _fieldnames : option (list string);
  line_num : nat;
  reader_line_num : nat
}.

Definition new_DictReader (d : ascii) : DictReader := mkDictReader d None 0 0.

(** The [fieldnames] property. *)
Definition fieldnames (dr : DictReader) (lines : list string)
    : res unit * DictReader * list string :=
  match _fieldnames dr with
  | Some _ =>
      (Ok (), mkDictReader (delimiter dr) (_fieldnames dr) (reader_line_num dr) (reader_line_num dr), lines)
  | None =>
      match reader_next (delimiter dr) lines (reader_line_num dr) with
      | (Raise e, ls, n) => (Raise e, mkDictReader (delimiter dr) None (line_num dr) n, ls)
      | (Ok None, ls, n) => (Ok (), mkDictReader (delimiter dr) None n n, ls)
      | (Ok (Some row), ls, n) => (Ok (), mkDictReader (delimiter dr) (Some row) n n, ls)
      end
  end.

(** The dictionary built from the header and one row. *)
Definition row_dict (names : list string) (row : list string) : dict :=
  let d := dict_of (zip (map KStr names) (map VStr row)) in
  let lf := length names in
  let lr := length row in
  if (lf <? lr)%nat then dict_set KNone (VList (map VStr (drop lf row))) d
  else if (lr <? lf)%nat then dict_update d (map (fun k => (KStr k, VNone)) (drop lr names))
  else d.

(** [DictReader.__next__] *)
Definition DictReader_next (dr : DictReader) (lines : list string)
    : res (option dict) * DictReader * list string :=
  let '(r0, dr, lines) :=
    if bool_decide (line_num dr = 0%nat) then fieldnames dr lines else (Ok (), dr, lines) in
  match r0 with
  | Raise e => (Raise e, dr, lines)
  | Ok _ =>
      match reader_next (delimiter dr) lines (reader_line_num dr) with
      | (Raise e, ls, n) => (Raise e, mkDictReader (delimiter dr) (_fieldnames dr) (line_num dr) n, ls)
      | (Ok None, ls, n) => (Ok None, mkDictReader (delimiter dr) (_fieldnames dr) (line_num dr) n, ls)
      | (Ok (Some row), ls, n) =>
          let dr := mkDictReader (delimiter dr) (_fieldnames dr) n n in
          let '(r1, ls, n') :=
            match row with
            | [] => read_rows true (delimiter dr) parse_reset ls n
            | _ => (Ok (Some row), ls, n)
            end in
          let dr := mkDictReader (delimiter dr) (_fieldnames dr) (line_num dr) n' in
          match r1 with
          | Raise e => (Raise e, dr, ls)
          | Ok None => (Ok None, dr, ls)
          | Ok (Some row) =>
              match _fieldnames dr with
              | None => (Raise (TypeError "'NoneType' object is not iterable"), dr, ls)
              | Some names => (Ok (Some (row_dict names row)), dr, ls)
              end
          end
      end
  end.

End Csv.
(* ================================================================== *)
(** * FP: the decoders and [FileParser.parse] *)
(* ================================================================== *)

Module FP.
Import Py IO.

(** An [xml.etree.ElementTree.Element]: tag, attributes, text, children. *)
Local Unset Elimination Schemes.
Inductive element :=
  | Element (tag : string) (attrib : list (string * string))
            (text : option string) (children : list element).
Local Set Elimination Schemes.

Definition tag (e : element) : string := let 'Element t _ _ _ := e in t.
Definition attrib (e : element) : list (string * string) := let 'Element _ a _ _ := e in a.
Definition text (e : element) : option string := let 'Element _ _ t _ := e in t.
Definition children (e : element) : list element := let 'Element _ _ _ c := e in c.

(** One section of a [ConfigParser]: its name and what [cfg.items(section)]
    gives (the pairs, or the interpolation error it raises). *)
Definition section := (string * res (list (string * string)))%type.

(** The three document parsers of the standard library that the decoders
    call. The decoders are defined, and most properties proved, for any
    implementation of them.
    - [json_loads s] is [json.loads(s)];
    - [ET_parse s] is [ET.parse] on a file whose text is [s]: the root,
      with the whole file read, or the error raised together with the
      text left unread (the library reads blocks of 65536 characters
      and stops at the block it cannot parse); the second component
      means nothing beside a root;
    - [read_file ls] is [ConfigParser.read_file] on the lines [ls],
      giving [cfg.sections()] with their items, and the lines it left
      unread when it raised. *)
Class StdLib := {
  json_loads : string -> res value;
  ET_parse : string -> res element * string;
  read_file : list string -> res (list section) * list string
}.

(** Why [open(path, "r", encoding=enc)] fails: the file cannot be
    opened ([OSError]), the encoding has no codec ([LookupError]), or the
    path is no file name ([ValueError], for an embedded null character).
    [open] reads nothing and decodes nothing, so a file whose bytes are
    not text in the encoding is opened like any other, and
    [UnicodeDecodeError] is not among its errors. *)
Inductive open_error :=
  | FileError (msg : string)
  | CodecError (msg : string)
  | NameError (msg : string).

Definition raised (e : open_error) : exc :=
  match e with
  | FileError msg => OSError msg
  | CodecError msg => LookupError msg
  | NameError msg => ValueError msg
  end.

(** What the file system gives for [open(path, "r", encoding=enc)]: a
    file, or the error of [open]. A file is given by the text that
    reading it delivers: the model covers the files whose bytes decode
    in [enc]; a file with other bytes, whose reads raise
    [UnicodeDecodeError], is not described by it. *)
Inductive opening :=
  | Opens (content : string)
  | Fails (e : open_error).

Definition filesystem := string -> string -> opening.

(** ** Format resolution *)

Definition _guess_format (path : string) : string :=
  let ext := Text.lower (Text.splitext path).2 in
  if bool_decide (ext ∈ [".csv"]) then "csv"
  else if bool_decide (ext ∈ [".tsv"; ".tab"]) then "tsv"
  else if bool_decide (ext ∈ [".json"]) then "json"
  else if bool_decide (ext ∈ [".ndjson"; ".jsonl"]) then "ndjson"
  else if bool_decide (ext ∈ [".xml"]) then "xml"
  else if bool_decide (ext ∈ [".ini"; ".cfg"]) then "ini"
  else if bool_decide (ext ∈ [".txt"; ".log"]) then "text"
  else "unknown".

(** ** The decoders *)

Inductive decoder :=
  | _parse_csv
  | _parse_tsv
  | _parse_json
  | _parse_ndjson
  | _parse_xml
  | _parse_ini
  | _parse_text
  | _parse_fixed_width
  | _parse_unknown.

Global Instance decoder_eq_dec : EqDecision decoder.
Proof. solve_decision. Defined.

(** The keyword arguments handed to every decoder. *)
Record options := mkoptions {
  csv_delimiter : option string;
  fixed_schema : option (list (string * Z))
}.

(** A generator suspended inside its loop. *)
Inductive running :=
  | RCsv (h : handle) (reader : Csv.DictReader)
  | RJsonItems (rest : list value)
  | RJsonOne (data : dict)
  | RJsonEnd
  | RNdjson (h : handle)
  | RXml (rest : list element)
  | RIni (rest : list section)
  | RLines (h : handle) (i : nat)
  | RFixed (h : handle) (names : list string) (widths : list Z) (total_width : Z) (line_no : nat).

(** A generator object: created and not started, suspended, or finished. *)
Inductive gen :=
  | GNew (d : decoder) (h : handle) (o : options)
  | GRun (r : running)
  | GDone.

(** What resuming a generator gives: a record and the new suspension
    point, the end of the iteration, or an exception. *)
Inductive outcome :=
  | Yield (rec : dict) (r : running)
  | Stop
  | Throw (e : exc).

(** [iter(f)] on a file object. *)
Definition iter_file (σ : heap) (h : handle) : res unit :=
  if f_closed (file_at σ h) then Raise closed_error else Ok ().

(** [item if isinstance(item, dict) else {"value": item}] *)
Definition as_record (item : value) : dict :=
  match item with
  | VDict d => d
  | _ => [(KStr "value", item)]
  end.

Definition text_value (t : option string) : value :=
  match t with
  | Some s => VStr s
  | None => VNone
  end.

(** One iteration of [for sub in child] in [_parse_xml]. *)
Definition xml_sub (rec : dict) (sub : element) : dict :=
  let k := KStr (tag sub) in
  match dict_get k rec with
  | Some (VList l) => dict_set k (VList (l ++ [text_value (text sub)])) rec
  | Some v => dict_set k (VList [v; text_value (text sub)]) rec
  | None => dict_set k (text_value (text sub)) rec
  end.

(** The record [_parse_xml] builds for one child of the root. *)
Definition xml_record (child : element) : dict :=
  let rec := dict_update [] (map (fun kv => (KStr kv.1, VStr kv.2)) (attrib child)) in
  let rec := foldl xml_sub rec (children child) in
  match rec, text child with
  | [], Some t => if bool_decide (t = "") || bool_decide (Text.strip t = "")
                  then rec else [(KStr "text", VStr (Text.strip t))]
  | _, _ => rec
  end.

(** The record [_parse_ini] builds for one section. *)
Definition ini_record (name : string) (items : list (string * string)) : dict :=
  dict_update [(KStr "__section__", VStr name)] (map (fun kv => (KStr kv.1, VStr kv.2)) items).

(** The record of [_parse_text] and [_parse_unknown]. *)
Definition line_record (i : nat) (line : string) : dict :=
  [(KStr "line_no", VInt (Z.of_nat i)); (KStr "text", VStr (Text.rstrip_nl line))].

(** The [for name, width in zip(names, widths)] loop of [_parse_fixed_width]. *)
Fixpoint fixed_fields (raw : string) (pos : Z) (rec : dict) (cols : list (string * Z)) : dict :=
  match cols with
  | [] => rec
  | (name, width) :: r =>
      let chunk := Text.slice raw pos (pos + width) in
      fixed_fields raw (pos + width) (dict_set (KStr name) (VStr (Text.strip chunk)) rec) r
  end.

(** [sum(widths)] *)
Definition sum (l : list Z) : Z := foldl Z.add 0 l.

(** What [ljust] raises for a width outside [Py_ssize_t]. *)
Definition overflow_error : exc :=
  OverflowError "Python int too large to convert to C ssize_t".

(** The record [_parse_fixed_width] builds for one line, once [ljust]
    has taken the width. *)
Definition fixed_record (names : list string) (widths : list Z) (total_width : Z)
    (line_no : nat) (line : string) : dict :=
  let raw := Text.rstrip_nl line in
  let raw := Text.ljust raw total_width in
  let rec := fixed_fields raw 0 [] (zip names widths) in
  dict_set (KStr "_line_no") (VInt (Z.of_nat line_no)) rec.

Section WithLibrary.
Context {L : StdLib}.

(** The loop of [_parse_ndjson] over the lines left in the file: blank
    lines are skipped; the result is the record to yield, or nothing at
    the end of the file, with the lines that stay unread. *)
Fixpoint ndjson_scan (lines : list string) : res (option dict) * list string :=
  match lines with
  | [] => (Ok None, [])
  | l :: r =>
      let line := Text.strip l in
      if bool_decide (line = "") then ndjson_scan r
      else match json_loads line with
           | Ok obj => (Ok (Some (as_record obj)), r)
           | Raise (JSONDecodeError _) => (Ok (Some [(KStr "raw", VStr line)]), r)
           | Raise e => (Raise e, r)
           end
  end.

(** The part of a decoder's body before its loop, run at the first
    [next]. *)
Definition start (d : decoder) (h : handle) (o : options) (σ : heap) : res running * heap :=
  match d with
  | _parse_csv =>
      let delim := default "," (csv_delimiter o) in
      match iter_file σ h with
      | Raise e => (Raise e, σ)
      | Ok _ =>
          match Csv.check_delimiter delim with
          | Raise e => (Raise e, σ)
          | Ok c => (Ok (RCsv h (Csv.new_DictReader c)), σ)
          end
      end
  | _parse_tsv =>
      match iter_file σ h with
      | Raise e => (Raise e, σ)
      | Ok _ => (Ok (RCsv h (Csv.new_DictReader "009"%char)), σ)
      end
  | _parse_json =>
      match read σ h with
      | (Raise e, σ') => (Raise e, σ')
      | (Ok s, σ') =>
          match json_loads s with
          | Raise e => (Raise e, σ')
          | Ok (VList items) => (Ok (RJsonItems items), σ')
          | Ok (VDict data) => (Ok (RJsonOne data), σ')
          | Ok data => (Ok (RJsonOne [(KStr "value", data)]), σ')
          end
      end
  | _parse_ndjson =>
      match iter_file σ h with
      | Raise e => (Raise e, σ)
      | Ok _ => (Ok (RNdjson h), σ)
      end
  | _parse_xml =>
      let f := file_at σ h in
      if f_closed f then (Raise closed_error, σ)
      else match ET_parse (String.concat "" (f_lines f)) with
           | (Raise e, unread) => (Raise e, set_lines σ h (lines_of unread))
           | (Ok root, _) => (Ok (RXml (children root)), set_lines σ h [])
           end
  | _parse_ini =>
      match iter_file σ h with
      | Raise e => (Raise e, σ)
      | Ok _ =>
          match read_file (f_lines (file_at σ h)) with
          | (Raise e, rest) => (Raise e, set_lines σ h rest)
          | (Ok sections, rest) => (Ok (RIni sections), set_lines σ h rest)
          end
      end
  | _parse_text | _parse_unknown =>
      match iter_file σ h with
      | Raise e => (Raise e, σ)
      | Ok _ => (Ok (RLines h 1), σ)
      end
  | _parse_fixed_width =>
      match fixed_schema o with
      | None | Some [] => (Raise (ValueError "fixed_schema is required for fixed-width parsing"), σ)
      | Some schema =>
          let widths := map snd schema in
          let names := map fst schema in
          let total_width := sum widths in
          match iter_file σ h with
          | Raise e => (Raise e, σ)
          | Ok _ => (Ok (RFixed h names widths total_width 1), σ)
          end
      end
  end.

(** Resuming a suspended generator: one iteration of its loop. *)
Definition step (r : running) (σ : heap) : outcome * heap :=
  match r with
  | RCsv h reader =>
      let f := file_at σ h in
      if f_closed f then (Throw closed_error, σ)
      else match Csv.DictReader_next reader (f_lines f) with
           | (Raise e, _, rest) => (Throw e, set_lines σ h rest)
           | (Ok None, _, rest) => (Stop, set_lines σ h rest)
           | (Ok (Some row), reader', rest) => (Yield row (RCsv h reader'), set_lines σ h rest)
           end
  | RJsonItems [] => (Stop, σ)
  | RJsonItems (item :: rest) => (Yield (as_record item) (RJsonItems rest), σ)
  | RJsonOne data => (Yield data RJsonEnd, σ)
  | RJsonEnd => (Stop, σ)
  | RNdjson h =>
      let f := file_at σ h in
      if f_closed f then (Throw closed_error, σ)
      else match ndjson_scan (f_lines f) with
           | (Raise e, rest) => (Throw e, set_lines σ h rest)
           | (Ok None, rest) => (Stop, set_lines σ h rest)
           | (Ok (Some rec), rest) => (Yield rec (RNdjson h), set_lines σ h rest)
           end
  | RXml [] => (Stop, σ)
  | RXml (child :: rest) => (Yield (xml_record child) (RXml rest), σ)
  | RIni [] => (Stop, σ)
  | RIni ((name, Raise e) :: rest) => (Throw e, σ)
  | RIni ((name, Ok items) :: rest) => (Yield (ini_record name items) (RIni rest), σ)
  | RLines h i =>
      match next_line σ h with
      | (Raise e, σ') => (Throw e, σ')
      | (Ok None, σ') => (Stop, σ')
      | (Ok (Some line), σ') => (Yield (line_record i line) (RLines h (S i)), σ')
      end
  | RFixed h names widths total_width line_no =>
      match next_line σ h with
      | (Raise e, σ') => (Throw e, σ')
      | (Ok None, σ') => (Stop, σ')
      | (Ok (Some line), σ') =>
          if Text.fits_ssize total_width
          then (Yield (fixed_record names widths total_width line_no line)
                      (RFixed h names widths total_width (S line_no)), σ')
          else (Throw overflow_error, σ')
      end
  end.

(** What [next(g)] gives the consumer. *)
Inductive event :=
  | Item (rec : dict)
  | StopIteration
  | Error (e : exc).

Definition of_outcome (x : outcome * heap) : event * gen * heap :=
  match x with
  | (Yield rec r, σ) => (Item rec, GRun r, σ)
  | (Stop, σ) => (StopIteration, GDone, σ)
  | (Throw e, σ) => (Error e, GDone, σ)
  end.

(** [next(g)]: a new generator runs its body from the top; a finished
    one stays finished. *)
Definition next (g : gen) (σ : heap) : event * gen * heap :=
  match g with
  | GNew d h o =>
      match start d h o σ with
      | (Raise e, σ') => (Error e, GDone, σ')
      | (Ok r, σ') => of_outcome (step r σ')
      end
  | GRun r => of_outcome (step r σ)
  | GDone => (StopIteration, GDone, σ)
  end.

(** A bound on the records a suspended generator can still yield. *)
Definition size (r : running) (σ : heap) : nat :=
  match r with
  | RCsv h _ | RNdjson h | RLines h _ | RFixed h _ _ _ _ => length (f_lines (file_at σ h))
  | RJsonItems l => length l
  | RJsonOne _ => 1
  | RJsonEnd => 0
  | RXml l => length l
  | RIni l => length l
  end.

(** Resuming until the generator finishes, [fuel] times at most. *)
Fixpoint drain (fuel : nat) (r : running) (σ : heap) (acc : list dict)
    : option (res (list dict) * heap) :=
  match fuel with
  | O => None
  | S n =>
      match step r σ with
      | (Yield rec r', σ') => drain n r' σ' (rec :: acc)
      | (Stop, σ') => Some (Ok (rev acc), σ')
      | (Throw e, σ') => Some (Raise e, σ')
      end
  end.

(** [list(g)]; [None] only if the fuel ran out, which [list_gen_total]
    excludes. *)
Definition list_gen (g : gen) (σ : heap) : option (res (list dict) * heap) :=
  match g with
  | GNew d h o =>
      match start d h o σ with
      | (Raise e, σ') => Some (Raise e, σ')
      | (Ok r, σ') => drain (S (size r σ')) r σ' []
      end
  | GRun r => drain (S (size r σ)) r σ []
  | GDone => Some (Ok [], σ)
  end.

(** ** The dispatcher *)

Record FileParser := mkFileParser { encoding : option string }.

(** [open(path, "r", encoding=enc)] *)
Definition open (fs : filesystem) (σ : heap) (path enc : string) : res handle * heap :=
  match fs path enc with
  | Opens content =>
      let '(h, σ') := alloc σ (mkfile (Some path) (lines_of content) false) in
      (Ok h, σ')
  | Fails e => (Raise (raised e), σ)
  end.

(** [_open_file]; [if encoding:] holds for a non-empty string only. The
    [except UnicodeDecodeError] clause is kept as the source has it;
    [open_is_not_a_read] shows that [open] never enters it. *)
Definition _open_file (fs : filesystem) (σ : heap) (path : string) (encoding : option string)
    : res handle * heap :=
  let e := default "" encoding in
  if negb (bool_decide (e = "")) then open fs σ path e
  else match open fs σ path "utf-8" with
       | (Raise UnicodeDecodeError, σ') => open fs σ' path "latin-1"
       | r => r
       end.

(** The first argument of [parse]: a path, or an open file object. *)
Inductive source :=
  | Path (p : string)
  | Stream (h : handle).

Definition parser_map : list (string * decoder) :=
  [ ("csv", _parse_csv);
    ("tsv", _parse_tsv);
    ("json", _parse_json);
    ("ndjson", _parse_ndjson);
    ("jsonl", _parse_ndjson);
    ("xml", _parse_xml);
    ("ini", _parse_ini);
    ("text", _parse_text);
    ("log", _parse_text);
    ("fixed", _parse_fixed_width);
    ("unknown", _parse_unknown) ].

Fixpoint lookup_parser (fmt : string) (m : list (string * decoder)) : option decoder :=
  match m with
  | [] => None
  | (k, d) :: r => if bool_decide (k = fmt) then Some d else lookup_parser fmt r
  end.

(** Lines 91-93: the format the call works with. *)
Definition resolve_format (σ : heap) (path : source) (fmt : option string) : string :=
  let fmt :=
    match fmt with
    | None =>
        _guess_format
          match path with
          | Path p => p
          | Stream h => default "" (f_name (file_at σ h))
          end
    | Some f => f
    end in
  Text.lower fmt.

(** What [parse] returns. *)
Inductive parsed :=
  | Lazy (g : gen)
  | Eager (records : list dict).

(** Lines 114-119: the file object to decode, opened here for a path. *)
Definition acquire (self : FileParser) (fs : filesystem) (σ : heap) (path : source)
    : res handle * heap :=
  match path with
  | Path p => _open_file fs σ p (encoding self)
  | Stream h => (Ok h, σ)
  end.

Definition close_after (path : source) : bool :=
  match path with
  | Path _ => true
  | Stream _ => false
  end.

(** The [finally] clause. *)
Definition release (path : source) (σ : heap) (f : handle) : heap :=
  if close_after path then close σ f else σ.

(** [FileParser.parse]; [None] only if [list(gen)] ran out of fuel, which
    [parse_total] excludes. *)
Definition parse (self : FileParser) (fs : filesystem) (σ : heap) (path : source)
    (fmt : option string) (o : options) (stream : bool) : option (res parsed * heap) :=
  let fmt := resolve_format σ path fmt in
  match lookup_parser fmt parser_map with
  | None => Some (Raise (ValueError ("Unsupported format: " +:+ fmt)), σ)
  | Some parser =>
      match acquire self fs σ path with
      | (Raise e, σ) => Some (Raise e, σ)
      | (Ok f, σ) =>
          let g := GNew parser f o in
          if stream then Some (Ok (Lazy g), release path σ f)
          else match list_gen g σ with
               | None => None
               | Some (Ok l, σ') => Some (Ok (Eager l), release path σ' f)
               | Some (Raise e, σ') => Some (Raise e, release path σ' f)
               end
      end
  end.

End WithLibrary.

End FP.
(* ================================================================== *)
(** * Json, Xml, Ini: executable models of the document parsers *)
(* ================================================================== *)

(** These models run the decoders on concrete input. The JSON model
    follows [json.decoder] and [json.scanner] (messages without the
    position); a [\uXXXX] escape above U+00FF, which an 8-bit character
    cannot hold, reads as U+003F. The recursion limit of the
    interpreter, which a very deep nesting meets, is not modelled. *)

Module Json.
Import Py.

Definition is_ws (c : ascii) : bool :=
  match c with
  | " " | "009" | "010" | "013" => true
  | _ => false
  end%char.

Fixpoint skip_ws (l : list ascii) : list ascii :=
  match l with
  | c :: r => if is_ws c then skip_ws r else l
  | [] => []
  end.

Definition is_digit (c : ascii) : bool := (48 <=? Text.code c) && (Text.code c <=? 57).

Definition hex_val (c : ascii) : option Z :=
  let n := Text.code c in
  if (48 <=? n) && (n <=? 57) then Some (n - 48)
  else if (65 <=? n) && (n <=? 70) then Some (n - 55)
  else if (97 <=? n) && (n <=? 102) then Some (n - 87)
  else None.

Definition hex4 (a b c d : ascii) : option Z :=
  match hex_val a, hex_val b, hex_val c, hex_val d with
  | Some x, Some y, Some z, Some w => Some (((x * 16 + y) * 16 + z) * 16 + w)
  | _, _, _, _ => None
  end.

Definition chr (n : Z) : ascii :=
  if n <? 256 then ascii_of_N (Z.to_N n) else "?"%char.

Definition error (msg : string) {A} : res A := Raise (JSONDecodeError msg).

(** [scanstring] from just after the opening quote. *)
Fixpoint scanstring (l : list ascii) (acc : list ascii) : res (string * list ascii) :=
  match l with
  | [] => error "Unterminated string starting at"
  | "034"%char :: r => Ok (Text.str (rev acc), r)
  | "\"%char :: r =>
      match r with
      | [] => error "Unterminated string starting at"
      | "u"%char :: r1 =>
          match r1 with
          | a :: b :: c :: d :: r2 =>
              match hex4 a b c d with
              | Some n => scanstring r2 (chr n :: acc)
              | None => error "Invalid \uXXXX escape"
              end
          | _ => error "Invalid \uXXXX escape"
          end
      | e :: r1 =>
          match e with
          | "034" | "\" | "/" => scanstring r1 (e :: acc)
          | "b" => scanstring r1 ("008" :: acc)
          | "f" => scanstring r1 ("012" :: acc)
          | "n" => scanstring r1 ("010" :: acc)
          | "r" => scanstring r1 ("013" :: acc)
          | "t" => scanstring r1 ("009" :: acc)
          | _ => error "Invalid \escape"
          end%char
      end
  | c :: r =>
      if Text.code c <? 32 then error "Invalid control character at"
      else scanstring r (c :: acc)
  end.

Fixpoint span_digits (l : list ascii) : list ascii * list ascii :=
  match l with
  | c :: r => if is_digit c then let '(ds, r') := span_digits r in (c :: ds, r') else ([], l)
  | [] => ([], [])
  end.

Definition digits_value (ds : list ascii) : Z :=
  foldl (fun acc c => acc * 10 + (Text.code c - 48)) 0 ds.

(** The limit of [int] on the digits of a decimal literal
    ([sys.get_int_max_str_digits()]). *)
Definition int_max_str_digits : Z := 4300.

Definition too_many_digits : exc :=
  ValueError "Exceeds the limit (4300 digits) for integer string conversion".

(** [NUMBER_RE]: integer part, optional fraction, optional exponent; an
    integer literal goes through [int], which raises [ValueError] (not
    [JSONDecodeError]) beyond its limit of digits. *)
Definition match_number (l : list ascii) : option (res value * list ascii) :=
  let '(neg, l1) := match l with "-"%char :: r => (true, r) | _ => (false, l) end in
  let integer :=
    match l1 with
    | "0"%char :: r => Some (["0"%char], r)
    | c :: _ => if is_digit c then Some (span_digits l1) else None
    | [] => None
    end in
  match integer with
  | None => None
  | Some (int, r) =>
      let '(frac, r) :=
        match r with
        | "."%char :: r1 =>
            match span_digits r1 with
            | ([], _) => ([], r)
            | (ds, r2) => ("."%char :: ds, r2)
            end
        | _ => ([], r)
        end in
      let '(exp, r) :=
        match r with
        | e :: r1 =>
            if bool_decide (e = "e"%char) || bool_decide (e = "E"%char) then
              let '(sign, r2) :=
                match r1 with
                | "+"%char :: r2 => (["+"%char], r2)
                | "-"%char :: r2 => (["-"%char], r2)
                | _ => ([], r1)
                end in
              match span_digits r2 with
              | ([], _) => ([], r)
              | (ds, r3) => (e :: sign ++ ds, r3)
              end
            else ([], r)
        | [] => ([], r)
        end in
      let sign := if neg then ["-"%char] else [] in
      match frac, exp with
      | [], [] =>
          Some (if int_max_str_digits <? Z.of_nat (length int) then Raise too_many_digits
                else Ok (VInt (if neg then - digits_value int else digits_value int)), r)
      | _, _ => Some (Ok (VFloat (Text.str (sign ++ int ++ frac ++ exp))), r)
      end
  end.

Fixpoint strip_prefix (p l : list ascii) : option (list ascii) :=
  match p, l with
  | [], _ => Some l
  | a :: p', b :: l' => if bool_decide (a = b) then strip_prefix p' l' else None
  | _ :: _, [] => None
  end.

Definition constant (name : string) (v : value) (l : list ascii) : option (value * list ascii) :=
  match strip_prefix (Text.chars name) l with
  | Some r => Some (v, r)
  | None => None
  end.

(** The literals and numbers of [_scan_once], in its order. *)
Definition scan_atom (l : list ascii) : res (value * list ascii) :=
  match constant "null" VNone l with
  | Some x => Ok x
  | None =>
  match constant "true" (VBool true) l with
  | Some x => Ok x
  | None =>
  match constant "false" (VBool false) l with
  | Some x => Ok x
  | None =>
  match match_number l with
  | Some (Ok v, r) => Ok (v, r)
  | Some (Raise e, _) => Raise e
  | None =>
  match constant "NaN" (VFloat "nan") l with
  | Some x => Ok x
  | None =>
  match constant "Infinity" (VFloat "inf") l with
  | Some x => Ok x
  | None =>
  match constant "-Infinity" (VFloat "-inf") l with
  | Some x => Ok x
  | None => error "Expecting value"
  end end end end end end end.

Definition out_of_fuel {A} : res A := error "nesting deeper than the text is long".

(** [_scan_once], [JSONArray] and [JSONObject], with fuel [n]: one unit
    per value and per item. [loads] starts with twice the length of the
    text plus two; running out gives an error of its own, which none of
    the inputs evaluated below meets. *)
Fixpoint scan_once (n : nat) (l : list ascii) {struct n} : res (value * list ascii) :=
  match n with
  | O => out_of_fuel
  | S n' =>
      match l with
      | "034"%char :: r =>
          match scanstring r [] with
          | Ok (s, r') => Ok (VStr s, r')
          | Raise e => Raise e
          end
      | "{"%char :: r =>
          match skip_ws r with
          | "}"%char :: r' => Ok (VDict [], r')
          | "034"%char :: r' => members n' r' []
          | _ => error "Expecting property name enclosed in double quotes"
          end
      | "["%char :: r =>
          match skip_ws r with
          | "]"%char :: r' => Ok (VList [], r')
          | r' => items n' r' []
          end
      | _ => scan_atom l
      end
  end
with items (n : nat) (l : list ascii) (acc : list value) {struct n} : res (value * list ascii) :=
  match n with
  | O => out_of_fuel
  | S n' =>
      match scan_once n' l with
      | Raise e => Raise e
      | Ok (v, r) =>
          match skip_ws r with
          | "]"%char :: r' => Ok (VList (rev (v :: acc)), r')
          | ","%char :: r' => items n' (skip_ws r') (v :: acc)
          | _ => error "Expecting ',' delimiter"
          end
      end
  end
with members (n : nat) (l : list ascii) (acc : dict) {struct n} : res (value * list ascii) :=
  match n with
  | O => out_of_fuel
  | S n' =>
      match scanstring l [] with
      | Raise e => Raise e
      | Ok (k, r) =>
          match skip_ws r with
          | ":"%char :: r1 =>
              match scan_once n' (skip_ws r1) with
              | Raise e => Raise e
              | Ok (v, r2) =>
                  let acc := dict_set (KStr k) v acc in
                  match skip_ws r2 with
                  | "}"%char :: r3 => Ok (VDict acc, r3)
                  | ","%char :: r3 =>
                      match skip_ws r3 with
                      | "034"%char :: r4 => members n' r4 acc
                      | _ => error "Expecting property name enclosed in double quotes"
                      end
                  | _ => error "Expecting ',' delimiter"
                  end
              end
          | _ => error "Expecting ':' delimiter"
          end
      end
  end.

(** [json.loads] *)
Definition loads (s : string) : res value :=
  let l := skip_ws (Text.chars s) in
  match scan_once (2 * length l + 2) l with
  | Raise e => Raise e
  | Ok (v, r) =>
      match skip_ws r with
      | [] => Ok v
      | _ => error "Extra data"
      end
  end.

End Json.

(** The XML model covers documents made of one element, with elements,
    attributes in single or double quotes and character data inside it,
    written in printable ASCII, tabs and newlines, without namespaces.
    It reads the text in one pass, as the parser of the library does, so
    that the first error of the text is the one that is raised; error
    messages are expat's, without the position. Everything else is
    outside the fragment and flagged as such: declarations, processing
    instructions, comments, CDATA sections, entity and character
    references, names with a colon, [xmlns] attributes, other
    characters, and text before or after the document element. *)

Module Xml.
Import Py FP.

Definition error (msg : string) {A} : res A := Raise (ParseError msg).

Definition invalid {A} : res A := error "not well-formed (invalid token)".

Definition unclosed {A} : res A := error "unclosed token".

Definition outside {A} : res A := error "construct outside the modelled fragment".

(** A character that cannot stand where it is: an invalid token, unless
    it is the colon of a qualified name. *)
Definition unexpected (c : ascii) {A} : res A :=
  if bool_decide (c = ":"%char) then outside else invalid.

(** The characters of the fragment. *)
Definition plain (c : ascii) : bool :=
  let n := Text.code c in (n =? 9) || (n =? 10) || ((32 <=? n) && (n <=? 126)).

Definition is_ws (c : ascii) : bool :=
  let n := Text.code c in (n =? 9) || (n =? 10) || (n =? 32).

Definition name_start (c : ascii) : bool :=
  let n := Text.code c in
  ((65 <=? n) && (n <=? 90)) || ((97 <=? n) && (n <=? 122)) || (n =? 95).

Definition name_char (c : ascii) : bool :=
  let n := Text.code c in
  name_start c || ((48 <=? n) && (n <=? 57)) || (n =? 45) || (n =? 46).

Fixpoint span (p : ascii -> bool) (l : list ascii) : list ascii * list ascii :=
  match l with
  | c :: r => if p c then let '(a, b) := span p r in (c :: a, b) else ([], l)
  | [] => ([], [])
  end.

(** A start tag, an empty-element tag or an end tag. *)
Inductive token :=
  | TOpen (name : string) (attrs : list (string * string)) (empty : bool)
  | TClose (name : string).

(** Where the scanner is inside a start tag, after the element name. *)
Inductive place :=
  | AfterItem
  | BeforeName
  | InName (k : list ascii)
  | AfterName (k : string)
  | AfterEq (k : string)
  | InValue (k : string) (q : ascii) (v : list ascii)
  | AfterSlash.

(** White space in an attribute value is normalised to a space. *)
Definition normalised (c : ascii) : ascii := if is_ws c then " "%char else c.

(** The rest of a start tag, character by character; the attributes are
    collected in order, and what follows the tag is returned. *)
Fixpoint attributes (l : list ascii) (at_ : place) (name : string)
    (acc : list (string * string)) : res (token * list ascii) :=
  match l with
  | [] => unclosed
  | c :: r =>
      match at_ with
      | AfterItem =>
          if is_ws c then attributes r BeforeName name acc
          else if bool_decide (c = "/"%char) then attributes r AfterSlash name acc
          else if bool_decide (c = ">"%char) then Ok (TOpen name acc false, r)
          else unexpected c
      | BeforeName =>
          if is_ws c then attributes r BeforeName name acc
          else if bool_decide (c = "/"%char) then attributes r AfterSlash name acc
          else if bool_decide (c = ">"%char) then Ok (TOpen name acc false, r)
          else if name_start c then attributes r (InName [c]) name acc
          else unexpected c
      | InName k =>
          if name_char c then attributes r (InName (c :: k)) name acc
          else if is_ws c then attributes r (AfterName (Text.str (rev k))) name acc
          else if bool_decide (c = "="%char) then attributes r (AfterEq (Text.str (rev k))) name acc
          else unexpected c
      | AfterName k =>
          if is_ws c then attributes r (AfterName k) name acc
          else if bool_decide (c = "="%char) then attributes r (AfterEq k) name acc
          else unexpected c
      | AfterEq k =>
          if is_ws c then attributes r (AfterEq k) name acc
          else if bool_decide (c = "034"%char) || bool_decide (c = "'"%char)
          then attributes r (InValue k c []) name acc
          else unexpected c
      | InValue k q v =>
          if bool_decide (c = q) then attributes r AfterItem name (acc ++ [(k, Text.str (rev v))])
          else if bool_decide (c = "<"%char) then invalid
          else if bool_decide (c = "&"%char) then outside
          else attributes r (InValue k q (normalised c :: v)) name acc
      | AfterSlash =>
          if bool_decide (c = ">"%char) then Ok (TOpen name acc true, r) else unexpected c
      end
  end.

(** The end of an end tag, after its name. *)
Fixpoint end_tag (l : list ascii) (name : string) : res (token * list ascii) :=
  match l with
  | [] => unclosed
  | c :: r =>
      if is_ws c then end_tag r name
      else if bool_decide (c = ">"%char) then Ok (TClose name, r)
      else unexpected c
  end.

Fixpoint has_duplicate (ks : list string) : bool :=
  match ks with
  | [] => false
  | k :: r => bool_decide (k ∈ r) || has_duplicate r
  end.

(** What the parser makes of a start tag once the scanner has accepted
    it. *)
Definition checked (t : token) : res token :=
  match t with
  | TOpen name attrs _ =>
      if bool_decide ("xmlns" ∈ map fst attrs) then outside
      else if has_duplicate (map fst attrs) then error "duplicate attribute"
      else Ok t
  | TClose name => Ok t
  end.

(** The markup that starts at [<]; [l] is what follows this character. *)
Definition markup (l : list ascii) : res (token * list ascii) :=
  match l with
  | [] => unclosed
  | c :: r =>
      if bool_decide (c = "/"%char) then
        match r with
        | [] => unclosed
        | c' :: _ =>
            if name_start c'
            then let '(k, rest) := span name_char r in end_tag rest (Text.str k)
            else unexpected c'
        end
      else if bool_decide (c = "!"%char) || bool_decide (c = "?"%char) then outside
      else if name_start c
      then let '(k, rest) := span name_char l in attributes rest AfterItem (Text.str k) []
      else unexpected c
  end.

(** An element under construction: [TreeBuilder] keeps one per open tag. *)
Record frame := mkframe {
  fr_tag : string;
  fr_attrib : list (string * string);
  fr_text : option string;
  fr_children : list element
}.

Definition add_data (f : frame) (s : string) : frame :=
  match fr_children f with
  | [] => mkframe (fr_tag f) (fr_attrib f) (Some (default "" (fr_text f) +:+ s)) []
  | _ => f
  end.

Definition add_child (f : frame) (e : element) : frame :=
  mkframe (fr_tag f) (fr_attrib f) (fr_text f) (e :: fr_children f).

Definition finish (f : frame) : element :=
  Element (fr_tag f) (fr_attrib f) (fr_text f) (rev (fr_children f)).

Fixpoint has_section_end (l : list ascii) : bool :=
  match l with
  | a :: r =>
      match r with
      | b :: c :: _ =>
          (bool_decide (a = "]"%char) && bool_decide (b = "]"%char) && bool_decide (c = ">"%char))
          || has_section_end r
      | _ => false
      end
  | [] => false
  end.

(** The text from [l] on, with the open elements [stack] and the
    document element [root] once it is complete; [n] bounds the number
    of tags and runs of character data. *)
Fixpoint document (n : nat) (l : list ascii) (stack : list frame) (root : option element)
    : res element :=
  match n with
  | O => outside
  | S n' =>
      match l with
      | [] =>
          match stack, root with
          | [], Some e => Ok e
          | _, _ => error "no element found"
          end
      | c :: r =>
          if bool_decide (c = "<"%char) then
            match stack, root with
            | [], Some _ =>
                match r with
                | [] => unclosed
                | c' :: _ =>
                    if bool_decide (c' = "!"%char) || bool_decide (c' = "?"%char) then outside
                    else if name_start c' then error "junk after document element"
                    else unexpected c'
                end
            | [], None =>
                match r with
                | c' :: _ =>
                    if bool_decide (c' = "/"%char) then invalid
                    else match markup r with
                         | Raise e => Raise e
                         | Ok (t, rest) =>
                             match checked t with
                             | Raise e => Raise e
                             | Ok (TOpen name attrs true) =>
                                 document n' rest [] (Some (Element name attrs None []))
                             | Ok (TOpen name attrs false) =>
                                 document n' rest [mkframe name attrs None []] None
                             | Ok (TClose _) => invalid
                             end
                         end
                | [] => unclosed
                end
            | f :: st, _ =>
                match markup r with
                | Raise e => Raise e
                | Ok (t, rest) =>
                    match checked t with
                    | Raise e => Raise e
                    | Ok (TOpen name attrs true) =>
                        document n' rest (add_child f (Element name attrs None []) :: st) root
                    | Ok (TOpen name attrs false) =>
                        document n' rest (mkframe name attrs None [] :: stack) root
                    | Ok (TClose name) =>
                        if bool_decide (name = fr_tag f) then
                          match st with
                          | [] => document n' rest [] (Some (finish f))
                          | p :: st' => document n' rest (add_child p (finish f) :: st') root
                          end
                        else error "mismatched tag"
                    end
                end
            end
          else
            let '(data, rest) := span (fun c => negb (bool_decide (c = "<"%char))) l in
            match stack with
            | [] => if forallb is_ws data then document n' rest stack root else outside
            | f :: st =>
                if bool_decide ("&"%char ∈ data) then outside
                else if has_section_end data then invalid
                else document n' rest (add_data f (Text.str data) :: st) root
            end
      end
  end.

(** The root element that [XMLParser] gives for a text. *)
Definition parse (s : string) : res element :=
  let l := Text.chars s in
  if forallb plain l then document (S (length l)) l [] None else outside.

(** The size of the blocks that [ET.parse] reads and feeds to the
    parser. *)
Definition block : Z := 65536.

(** [ET.parse] on a file with the text [s], for a text of one block at
    most: the file is read to its end before the parser reports
    anything, so nothing is left unread. Which blocks of a longer text
    are read before an error is not modelled: such a text is outside the
    fragment. *)
Definition ET_parse (s : string) : res element * string :=
  if block <? Text.len s then (outside, "") else (parse s, "").

End Xml.

(** The INI model follows [RawConfigParser._read] and [items] of a default
    [ConfigParser()]: comment prefixes [#] and [;], delimiters [=] and
    [:], strict duplicate checks, lower-cased option names, continuation
    lines, the [DEFAULT] section and [%] interpolation. *)

Module Ini.
Import Py FP.

Definition error (name : string) {A} : res A := Raise (ConfigError name).

Definition options_of := list (string * list string).

Record state := mkstate {
  defaults : options_of;
  sections : list (string * options_of);
  sectname : option string;
  optname : option string;
  indent_level : Z;
  elements_added : list (string * option string);
  bad_lines : list string
}.

Definition initial : state := mkstate [] [] None None 0 [] [].

Fixpoint assoc {A} (k : string) (l : list (string * A)) : option A :=
  match l with
  | [] => None
  | (k', v) :: r => if bool_decide (k' = k) then Some v else assoc k r
  end.

Fixpoint assoc_set {A} (k : string) (v : A) (l : list (string * A)) : list (string * A) :=
  match l with
  | [] => [(k, v)]
  | (k', v') :: r => if bool_decide (k' = k) then (k, v) :: r else (k', v') :: assoc_set k v r
  end.

(** [cursect]: the dictionary of the current section. *)
Definition cursect (s : state) : option options_of :=
  match sectname s with
  | None => None
  | Some n => if bool_decide (n = "DEFAULT") then Some (defaults s) else assoc n (sections s)
  end.

Definition set_cursect (s : state) (opts : options_of) : state :=
  match sectname s with
  | None => s
  | Some n =>
      if bool_decide (n = "DEFAULT")
      then mkstate opts (sections s) (sectname s) (optname s) (indent_level s)
                   (elements_added s) (bad_lines s)
      else mkstate (defaults s) (assoc_set n opts (sections s)) (sectname s) (optname s)
                   (indent_level s) (elements_added s) (bad_lines s)
  end.

(** [cursect[optname].append(value)] *)
Definition append_value (s : state) (value : string) : state :=
  match cursect s, optname s with
  | Some opts, Some o =>
      match assoc o opts with
      | Some vs => set_cursect s (assoc_set o (vs ++ [value]) opts)
      | None => s
      end
  | _, _ => s
  end.

Definition truthy (o : option string) : bool :=
  match o with
  | Some s => negb (bool_decide (s = ""))
  | None => false
  end.

Definition starts_with (c : ascii) (s : string) : bool :=
  match s with
  | String a _ => bool_decide (a = c)
  | EmptyString => false
  end.

(** [NONSPACECRE.search(line).start()] *)
Definition first_nonspace (line : string) : Z :=
  let l := Text.chars line in
  Z.of_nat (length l - length (Text.drop_while Text.is_space l)).

(** [SECTCRE]: an opening bracket, the header, the last closing bracket. *)
Definition section_header (value : string) : option string :=
  match Text.chars value with
  | "["%char :: r =>
      match Text.drop_while (fun c => negb (bool_decide (c = "]"%char))) (rev r) with
      | _ :: h => match h with [] => None | _ => Some (Text.str (rev h)) end
      | [] => None
      end
  | _ => None
  end.

Definition is_delim (c : ascii) : bool := bool_decide (c = "="%char) || bool_decide (c = ":"%char).

(** [OPTCRE]: the option before the first delimiter, and the value after. *)
Definition option_line (value : string) : option (string * string) :=
  match Xml.span (fun c => negb (is_delim c)) (Text.chars value) with
  | (o, _ :: v) =>
      Some (Text.str (rev (Text.drop_while Text.is_space (rev o))),
            Text.str (Text.drop_while Text.is_space v))
  | (_, []) => None
  end.

Definition rstrip (s : string) : string :=
  Text.str (rev (Text.drop_while Text.is_space (rev (Text.chars s)))).

Definition bad (s : state) (line : string) : state :=
  mkstate (defaults s) (sections s) (sectname s) (optname s) (indent_level s)
          (elements_added s) (bad_lines s ++ [line]).

(** The body of the [for lineno, line in enumerate(fp)] loop of [_read]. *)
Definition read_line (s : state) (line : string) : res state :=
  let stripped := Text.strip line in
  let comment := starts_with "#" stripped || starts_with ";" stripped in
  let value := if comment then "" else stripped in
  if bool_decide (value = "") then
    if negb comment && truthy (optname s) then Ok (append_value s "") else Ok s
  else
    let cur_indent_level := first_nonspace line in
    if bool_decide (is_Some (cursect s)) && truthy (optname s)
       && (indent_level s <? cur_indent_level)
    then Ok (append_value s value)
    else
      match section_header value with
      | Some name =>
          if bool_decide (is_Some (assoc name (sections s))) then error "DuplicateSectionError"
          else if bool_decide (name = "DEFAULT") then
            Ok (mkstate (defaults s) (sections s) (Some name) None cur_indent_level
                        (elements_added s) (bad_lines s))
          else
            Ok (mkstate (defaults s) (sections s ++ [(name, [])]) (Some name) None
                        cur_indent_level ((name, None) :: elements_added s) (bad_lines s))
      | None =>
          match cursect s, sectname s with
          | Some opts, Some sect =>
              match option_line value with
              | Some (o, v) =>
                  let s := if bool_decide (o = "") then bad s line else s in
                  let o := Text.lower (rstrip o) in
                  if bool_decide ((sect, Some o) ∈ elements_added s)
                  then error "DuplicateOptionError"
                  else
                    let s := mkstate (defaults s) (sections s) (sectname s) (Some o)
                                     cur_indent_level ((sect, Some o) :: elements_added s)
                                     (bad_lines s) in
                    Ok (set_cursect s (assoc_set o [Text.strip v] opts))
              | None =>
                  Ok (bad (mkstate (defaults s) (sections s) (sectname s) (optname s)
                                   cur_indent_level (elements_added s) (bad_lines s)) line)
              end
          | _, _ => error "MissingSectionHeaderError"
          end
      end.

Fixpoint read_lines (s : state) (lines : list string) : res state * list string :=
  match lines with
  | [] => (Ok s, [])
  | l :: r =>
      match read_line s l with
      | Ok s' => read_lines s' r
      | Raise e => (Raise e, r)
      end
  end.

(** [_join_multiline_values] on one option. *)
Definition join (vs : list string) : string :=
  rstrip (String.concat (String "010"%char "") vs).

Definition joined (opts : options_of) : list (string * string) :=
  map (fun kv => (kv.1, join kv.2)) opts.

Fixpoint update (d : list (string * string)) (new : list (string * string)) :=
  match new with
  | [] => d
  | (k, v) :: r => update (assoc_set k v d) r
  end.

(** [BasicInterpolation._interpolate_some]; [depth] levels are left and
    [n] bounds the length of [rest]. *)
Fixpoint interpolate_some (depth : nat) (map : list (string * string)) (n : nat)
    (rest : list ascii) {struct depth} : res (list ascii) :=
  match depth with
  | O => error "InterpolationDepthError"
  | S depth' =>
      (fix loop (n : nat) (rest : list ascii) {struct n} : res (list ascii) :=
         match n, rest with
         | _, [] => Ok []
         | O, _ => Ok rest
         | S n', c :: r =>
             if negb (bool_decide (c = "%"%char)) then
               match loop n' r with
               | Ok out => Ok (c :: out)
               | Raise e => Raise e
               end
             else
               match r with
               | "%"%char :: r1 =>
                   match loop n' r1 with
                   | Ok out => Ok ("%"%char :: out)
                   | Raise e => Raise e
                   end
               | "("%char :: r1 =>
                   match Xml.span (fun c => negb (bool_decide (c = ")"%char))) r1 with
                   | (var, ")"%char :: "s"%char :: r2) =>
                       match var with
                       | [] => error "InterpolationSyntaxError"
                       | _ =>
                           match assoc (Text.lower (Text.str var)) map with
                           | None => error "InterpolationMissingOptionError"
                           | Some v =>
                               let inner :=
                                 if bool_decide ("%"%char ∈ Text.chars v)
                                 then interpolate_some depth' map (length (Text.chars v)) (Text.chars v)
                                 else Ok (Text.chars v) in
                               match inner, loop n' r2 with
                               | Ok a, Ok b => Ok (a ++ b)
                               | Raise e, _ => Raise e
                               | _, Raise e => Raise e
                               end
                           end
                       end
                   | _ => error "InterpolationSyntaxError"
                   end
               | _ => error "InterpolationSyntaxError"
               end
         end) n rest
  end.

(** [before_get] *)
Definition interpolate (map : list (string * string)) (v : string) : res string :=
  match interpolate_some 10 map (length (Text.chars v)) (Text.chars v) with
  | Ok out => Ok (Text.str out)
  | Raise e => Raise e
  end.

Fixpoint interpolate_all (map : list (string * string)) (keys : list string)
    : res (list (string * string)) :=
  match keys with
  | [] => Ok []
  | k :: r =>
      match interpolate map (default "" (assoc k map)), interpolate_all map r with
      | Ok v, Ok out => Ok ((k, v) :: out)
      | Raise e, _ => Raise e
      | _, Raise e => Raise e
      end
  end.

(** [cfg.items(section)] *)
Definition items (defaults opts : list (string * string)) : res (list (string * string)) :=
  let d := update defaults opts in
  interpolate_all d (map fst d).

(** [read_file], then [cfg.sections()] with the items of each. *)
Definition read_file (lines : list string) : res (list section) * list string :=
  match read_lines initial lines with
  | (Raise e, rest) => (Raise e, rest)
  | (Ok s, rest) =>
      match bad_lines s with
      | _ :: _ => (error "ParsingError", rest)
      | [] =>
          (Ok (map (fun sec => (sec.1, items (joined (defaults s)) (joined sec.2))) (sections s)),
           rest)
      end
  end.

End Ini.

(** The standard library as modelled above. *)
Definition python : FP.StdLib :=
  {| FP.json_loads := Json.loads; FP.ET_parse := Xml.ET_parse; FP.read_file := Ini.read_file |}.

(* ================================================================== *)
(** * Vocabulary of the statements *)
(* ================================================================== *)

Module Spec.
Import Py IO FP.




(** The lower-cased extension of a path, as [_guess_format] takes it. *)
Definition extension (path : string) : string := Text.lower (Text.splitext path).2.

(** The documented extension table. *)
Definition extension_table : list (string * string) :=
  [ (".csv", "csv"); (".tsv", "tsv"); (".tab", "tsv"); (".json", "json");
    (".ndjson", "ndjson"); (".jsonl", "ndjson"); (".xml", "xml");
    (".ini", "ini"); (".cfg", "ini"); (".txt", "text"); (".log", "text") ].

(** [produces g σ rec]: a consumer that calls [next] on [g] again and
    again, starting in the store [σ] and leaving the store alone, gets
    the record [rec] at some point. *)
Inductive produces {L : StdLib} : gen -> heap -> dict -> Prop :=
  | produces_now g σ rec g' σ' :
      next g σ = (Item rec, g', σ') -> produces g σ rec
  | produces_later g σ rec0 g' σ' rec :
      next g σ = (Item rec0, g', σ') -> produces g' σ' rec -> produces g σ rec.

(** The tags of the decoder registry. *)
Definition registered : list string := map fst parser_map.

(** The error of a fixed-width decode without a schema. *)
Definition schema_required : exc :=
  ValueError "fixed_schema is required for fixed-width parsing".

(** The field names of a record built by setting the keys [ks] in turn:
    a key that comes again keeps its first place. *)
Definition add_key (ks : list key) (k : key) : list key :=
  if bool_decide (k ∈ ks) then ks else ks ++ [k].

Definition key_seq (ks : list key) : list key := foldl add_key [] ks.

(** The field names [xml_record] gives to a child of the root: its
    attribute names, then the tags of its children, or the single field
    "text" when it has neither and its text is not blank. *)
Definition xml_keys (child : element) : list key :=
  let ks := key_seq (map KStr (map fst (attrib child) ++ map tag (children child))) in
  match ks, text child with
  | [], Some t =>
      if bool_decide (t = "") || bool_decide (Text.strip t = "") then [] else [KStr "text"]
  | _, _ => ks
  end.

(** The field names of every fixed-width record of a schema. *)
Definition fixed_keys (names : list string) (widths : list Z) : list key :=
  add_key (key_seq (map (fun c => KStr c.1) (zip names widths))) (KStr "_line_no").

(** The records of the line decoders for the lines [ls], numbered from 1. *)
Definition line_records (ls : list string) : list dict :=
  imap (fun i line => line_record (S i) line) ls.

End Spec.

(* ================================================================== *)
(** * Sample inputs *)
(* ================================================================== *)

Module Sample.
Import Py IO FP.

Definition nl : string := String "010"%char "".

(** A text made of the given lines, each ended by a newline. *)
Definition text_of (lines : list string) : string :=
  String.concat "" (map (fun l => l +:+ nl) lines).

Definition files : list (string * string) :=
  [ ("data.txt", text_of ["hello"; "world"]);
    ("notes", text_of ["first"; ""; "third"]);
    ("people.dat", "Al 5 ");
    ("table.csv", text_of ["a,b,c"; "1,2"; "1,2,3,4"]);
    ("items.xml", "<root><a x='1'/><b y='2'/></root>");
    ("empty.json", "");
    ("empty.xml", "");
    ("empty.ini", "");
    ("empty.csv", "") ].

(** A file system holding [files], whatever the encoding asked for. *)
Definition fs : filesystem := fun path _ =>
  match Ini.assoc path files with
  | Some content => Opens content
  | None => Fails (FileError "No such file or directory")
  end.

Definition self : FileParser := mkFileParser None.

Definition no_options : options := mkoptions None None.

Definition name_age : options := mkoptions None (Some [("name", 4%Z); ("age", 2%Z)]).

(** An open stream over a text, as [io.StringIO] gives. *)
Definition stringio (content : string) : file := mkfile None (lines_of content) false.

End Sample.

(* ================================================================== *)
(** * Cli: the command-line adapter [main] *)
(* ================================================================== *)

(** [main] after [argparse]: it is modelled from the parsed arguments on.
    What it prints is recorded as a list of outputs, a record standing for
    its [json.dumps] line; [int] follows [PyLong_FromString] for base 10
    (messages without the quoted literal). *)

Module Cli.
Import Py IO FP.

Local Open Scope Z_scope.

(** [s.split(sep)] for a separator of one character. *)
Fixpoint split_on (sep : ascii) (cur : list ascii) (l : list ascii) : list string :=
  match l with
  | [] => [Text.str (rev cur)]
  | c :: r =>
      if bool_decide (c = sep) then Text.str (rev cur) :: split_on sep [] r
      else split_on sep (c :: cur) r
  end.

Definition split (s : string) (sep : ascii) : list string := split_on sep [] (Text.chars s).

(** [s.split(sep, 1)] when [sep in s]: the text before the first
    separator and the text after it; nothing when [sep not in s]. *)
Fixpoint split_once_on (sep : ascii) (cur : list ascii) (l : list ascii)
    : option (string * string) :=
  match l with
  | [] => None
  | c :: r =>
      if bool_decide (c = sep) then Some (Text.str (rev cur), Text.str r)
      else split_once_on sep (c :: cur) r
  end.

Definition split_once (s : string) (sep : ascii) : option (string * string) :=
  split_once_on sep [] (Text.chars s).

Definition is_digit (c : ascii) : bool := (48 <=? Text.code c) && (Text.code c <=? 57).

(** The digit scan of [long_from_string_base]: digits with single
    underscores between them; the value, the number of digits and what
    follows, or nothing when two underscores meet, the text starts with
    one, or a digit is missing after one. *)
Fixpoint scan_digits (l : list ascii) (prev_underscore : bool) (value digits : Z)
    : option (Z * Z * list ascii) :=
  match l with
  | c :: r =>
      if is_digit c then scan_digits r false (value * 10 + (Text.code c - 48)) (digits + 1)
      else if bool_decide (c = "_"%char) then
        if prev_underscore then None else scan_digits r true value digits
      else if prev_underscore then None else Some (value, digits, l)
  | [] => if prev_underscore then None else Some (value, digits, [])
  end.

Definition int_max_str_digits : Z := 4300.

Definition invalid_literal : exc := ValueError "invalid literal for int() with base 10".

Definition too_many_digits : exc :=
  ValueError "Exceeds the limit (4300 digits) for integer string conversion".

(** The white space that [int] skips around a literal: that of C and
    the two other spaces of the Latin-1 range. The separators
    U+001C..U+001F, which [str.strip] removes, are not part of it. *)
Definition int_space (c : ascii) : bool :=
  let n := Text.code c in
  ((9 <=? n) && (n <=? 13)) || (n =? 32) || (n =? 133) || (n =? 160).

Definition int_strip (l : list ascii) : list ascii :=
  rev (Text.drop_while int_space (rev (Text.drop_while int_space l))).

(** [int(s)] for a [str]. *)
Definition int (s : string) : res Z :=
  let l := int_strip (Text.chars s) in
  let '(negative, l) :=
    match l with
    | c :: r =>
        if bool_decide (c = "-"%char) then (true, r)
        else if bool_decide (c = "+"%char) then (false, r)
        else (false, l)
    | [] => (false, l)
    end in
  match l with
  | [] => Raise invalid_literal
  | c :: _ =>
      if bool_decide (c = "_"%char) then Raise invalid_literal
      else
        match scan_digits l false 0 0 with
        | None => Raise invalid_literal
        | Some (value, digits, rest) =>
            if digits =? 0 then Raise invalid_literal
            else if int_max_str_digits <? digits then Raise too_many_digits
            else match rest with
                 | [] => Ok (if negative then - value else value)
                 | _ => Raise invalid_literal
                 end
        end
  end.

(** What [main] writes: a line on the error stream, the [json.dumps] line
    of a record, or the [pprint] of what [parse] returned. *)
Inductive output :=
  | Stderr (msg : string)
  | Line (rec : dict)
  | Pretty (result : parsed).

(** How [main] ends: it returns (the value [None], or 2), or an
    exception leaves it. *)
Inductive ending :=
  | Returned (code : option Z)
  | Uncaught (e : exc).

(** The namespace that [parse_args] returns. *)
Record args := mkargs {
  path : string;
  format : option string;
  encoding : option string;
  stream : bool;
  fixed_schema : option string;
  delimiter : option string
}.

(** The loop over the parts of [--fixed-schema] (lines 250-255): the
    schema, the early [return 2], or the exception of [int]. *)
Inductive schema_result :=
  | Schema (schema : list (string * Z))
  | Invalid
  | Failed (e : exc).

Fixpoint schema_loop (parts : list string) (schema : list (string * Z)) : schema_result :=
  match parts with
  | [] => Schema schema
  | part :: r =>
      match split_once part ":"%char with
      | None => Invalid
      | Some (name, width) =>
          match int (Text.strip width) with
          | Raise e => Failed e
          | Ok w => schema_loop r (schema ++ [(Text.strip name, w)])
          end
      end
  end.

Definition usage_error : string := "Invalid fixed-schema format, expected name:width".

Section WithLibrary.
Context {L : StdLib}.

(** A bound on the records a generator can still yield. *)
Definition bound (g : gen) (σ : heap) : nat :=
  match g with
  | GNew d h o =>
      match start d h o σ with
      | (Ok r, σ') => size r σ'
      | (Raise _, _) => O
      end
  | GRun r => size r σ
  | GDone => O
  end.

(** [for rec in gen: print(json.dumps(rec))], [fuel] records at most. *)
Fixpoint print_each (fuel : nat) (g : gen) (σ : heap) (out : list output)
    : option (list output * ending * heap) :=
  match fuel with
  | O => None
  | S n =>
      match next g σ with
      | (Item rec, g', σ') => print_each n g' σ' (out ++ [Line rec])
      | (StopIteration, _, σ') => Some (out, Returned None, σ')
      | (Error e, _, σ') => Some (out, Uncaught e, σ')
      end
  end.

(** Lines 258-269: the call of [parse] and the printing of its result;
    [None] only if a loop ran out of fuel, which [main_total] excludes. *)
Definition run (a : args) (fixed_schema : option (list (string * Z))) (fs : filesystem)
    (σ : heap) : option (list output * ending * heap) :=
  let fp := mkFileParser (encoding a) in
  match parse fp fs σ (Path (path a)) (format a) (mkoptions (delimiter a) fixed_schema)
          (stream a) with
  | None => None
  | Some (Raise e, σ') => Some ([], Uncaught e, σ')
  | Some (Ok result, σ') =>
      if stream a then
        match result with
        | Lazy g => print_each (S (S (bound g σ'))) g σ' []
        | Eager l => Some (map Line l, Returned None, σ')
        end
      else Some ([Pretty result], Returned None, σ')
  end.

(** [if args.fixed_schema:] holds for a non-empty string. *)
Definition given (s : option string) : bool :=
  match s with
  | Some s => negb (bool_decide (s = ""))
  | None => false
  end.

(** [main], from the parsed arguments on. *)
Definition main (a : args) (fs : filesystem) (σ : heap)
    : option (list output * ending * heap) :=
  if given (fixed_schema a) then
    match schema_loop (split (default "" (fixed_schema a)) ","%char) [] with
    | Invalid => Some ([Stderr usage_error], Returned (Some 2), σ)
    | Failed e => Some ([], Uncaught e, σ)
    | Schema schema => run a (Some schema) fs σ
    end
  else run a None fs σ.

End WithLibrary.

End Cli.

(* ================================================================== *)
(** * Vocabulary of the further properties *)
(* ================================================================== *)

Module Behaviour.
Import Py IO FP.

(** [consumes g σ l fin σ']: calling [next] on [g] again and again, from
    the store [σ], gives the records [l] in this order and then [fin],
    the end of the iteration or an exception, in the store [σ']. *)
Inductive consumes {L : StdLib} : gen -> heap -> list dict -> event -> heap -> Prop :=
  | consumes_end g σ g' σ' :
      next g σ = (StopIteration, g', σ') -> consumes g σ [] StopIteration σ'
  | consumes_error g σ e g' σ' :
      next g σ = (Error e, g', σ') -> consumes g σ [] (Error e) σ'
  | consumes_item g σ rec g' σ1 l fin σ' :
      next g σ = (Item rec, g', σ1) -> consumes g' σ1 l fin σ' ->
      consumes g σ (rec :: l) fin σ'.

(** What one part of [--fixed-schema] becomes, when it has a colon and
    its width is an integer literal. *)
Definition convert_part (part : string) : option (string * Z) :=
  match Cli.split_once part ":"%char with
  | Some (name, width) =>
      match Cli.int (Text.strip width) with
      | Ok w => Some (Text.strip name, w)
      | Raise _ => None
      end
  | None => None
  end.

(** The number written by the decimal digits [ds]. *)
Definition digits_value (ds : list ascii) : Z :=
  foldl (fun acc c => acc * 10 + (Text.code c - 48))%Z 0%Z ds.


(** The newline character. *)
Definition LF : ascii := "010"%char.

(** A text written line by line, each line ended by a newline. *)
Definition written (lines : list string) : string :=
  String.concat "" (map (fun l => l +:+ String LF "") lines).

(** The last line of a text, when no newline ends it. *)
Definition unended (rest : string) : list string :=
  if bool_decide (rest = "") then [] else [rest].

(** The record of the line decoders for line number [i] with text [t]. *)
Definition numbered (i : nat) (t : string) : dict :=
  [(KStr "line_no", VInt (Z.of_nat i)); (KStr "text", VStr t)].





(** The values that a record of [_parse_xml] gathers under the name [t]:
    the attribute of that name, if there is one, then the texts of the
    sub-elements with that tag, in document order. *)
Definition xml_values (child : element) (t : string) : list value :=
  option_list (dict_get (KStr t) (dict_of (map (fun kv => (KStr kv.1, VStr kv.2)) (attrib child))))
  ++ map (fun s => text_value (text s)) (filter (fun s => tag s = t) (children child)).

(** How they are stored: one value as it is, several as a list. *)
Definition gathered (vs : list value) : option value :=
  match vs with
  | [] => None
  | [v] => Some v
  | _ => Some (VList vs)
  end.

(** A value that is not a list. *)
Definition scalar (v : value) : Prop := forall l, v <> VList l.

(** A delimiter of a table that is written and read back: one that is
    not the quote, a line end or NUL. *)
Definition usable_delimiter (d : ascii) : bool :=
  negb (bool_decide (d = Csv.quotechar)) && negb (Csv.is_crnl d)
  && negb (Text.code d =? 0)%Z.

(** A character that needs no quoting in a delimited file. *)
Definition plain_char (d c : ascii) : bool :=
  negb (bool_decide (c = d)) && negb (bool_decide (c = Csv.quotechar))
  && negb (Csv.is_crnl c) && negb (Text.code c =? 0)%Z.

(** A field made of such characters, within the field limit. *)
Definition plain_field (d : ascii) (f : string) : bool :=
  forallb (plain_char d) (Text.chars f) && (Text.len f <=? Csv.field_limit)%Z.

(** A row of such fields that is not written as an empty line. *)
Definition plain_row (d : ascii) (r : list string) : bool :=
  negb (bool_decide (r = [])) && negb (bool_decide (r = [""]))
  && forallb (plain_field d) r.

(** The fields of a row joined by the delimiter. *)
Definition joined (d : ascii) (r : list string) : string :=
  String.concat (String d "") r.

End Behaviour.

(* ================================================================== *)
(** * Sample inputs of the further properties *)
(* ================================================================== *)

Module Inputs.
Import Py IO FP.

(** A store with one open stream over the text [content]. *)
Definition stream_of (content : string) : list file := [Sample.stringio content].

Definition two_lines : list file := stream_of (Behaviour.written ["a"; ""; " b "]).

(** A store with one stream that was closed. *)
Definition closed_stream : list file := [mkfile None [] true].

(** [data.txt], streaming, no option. *)
Definition plain_call : Cli.args := Cli.mkargs "data.txt" None None true None None.

(** [people.dat --fixed-schema name:4,age] *)
Definition bad_schema_call : Cli.args :=
  Cli.mkargs "people.dat" (Some "fixed") None true (Some "name:4,age") None.



Definition header : list string := ["a"; "b"].
Definition rows : list (list string) := [["1"; "2"]; ["3"]; ["x y"; ""; "z"]].

(** A table written with semicolons. *)
Definition table : list file :=
  stream_of (Behaviour.written (map (Behaviour.joined ";"%char) (header :: rows))).

Definition semicolon : options := mkoptions (Some ";") None.



(** [<c x='1'><x>2</x><y>a</y><y/></c>] *)
Definition repeated : element :=
  Element "c" [("x", "1")] None
    [Element "x" [] (Some "2") []; Element "y" [] (Some "a") []; Element "y" [] None []].

End Inputs.

(** A decidable proposition settled by evaluation. *)
Ltac decided := apply (bool_decide_unpack _); vm_compute; exact I.

(* ================================================================== *)
(** * Properties *)
(* ================================================================== *)

Local Close Scope Z_scope.

(** ** The store *)

Section Store.
Import Py IO Spec.

Lemma file_at_lookup (σ : heap) h f : σ !! h = Some f -> file_at σ h = f.
Proof. unfold file_at. intros ->. reflexivity. Qed.

Lemma file_at_unallocated (σ : heap) h : σ !! h = None -> file_at σ h = no_file.
Proof. unfold file_at. intros ->. reflexivity. Qed.

(** An open file object is an allocated one. *)
Lemma open_is_allocated (σ : heap) h : f_closed (file_at σ h) = false -> is_Some (σ !! h).
Proof.
  unfold file_at. destruct (σ !! h) as [f|]; simpl; [eauto | discriminate].
Qed.


Lemma lookup_set_lines_ne (σ : heap) h h' ls : h <> h' -> set_lines σ h ls !! h' = σ !! h'.
Proof.
  intros Hne. unfold set_lines. destruct (σ !! h); [|reflexivity].
  by apply list_lookup_insert_ne.
Qed.

Lemma lookup_set_lines_eq (σ : heap) h ls f :
  σ !! h = Some f -> set_lines σ h ls !! h = Some (mkfile (f_name f) ls (f_closed f)).
Proof.
  intros Hf. unfold set_lines. rewrite Hf.
  apply list_lookup_insert_eq. by eapply lookup_lt_Some.
Qed.

Lemma closed_set_lines (σ : heap) h h' ls :
  f_closed (file_at (set_lines σ h ls) h') = f_closed (file_at σ h').
Proof.
  destruct (decide (h = h')) as [<-|Hne].
  - destruct (σ !! h) as [f|] eqn:Hf.
    + by rewrite (file_at_lookup _ _ _ (lookup_set_lines_eq _ _ ls _ Hf)), (file_at_lookup _ _ _ Hf).
    + unfold set_lines. by rewrite Hf.
  - unfold file_at. by rewrite lookup_set_lines_ne.
Qed.

Lemma lines_set_lines (σ : heap) h ls :
  is_Some (σ !! h) -> f_lines (file_at (set_lines σ h ls) h) = ls.
Proof.
  intros [f Hf]. by rewrite (file_at_lookup _ _ _ (lookup_set_lines_eq _ _ ls _ Hf)).
Qed.


Lemma lookup_close_ne (σ : heap) h h' : h <> h' -> close σ h !! h' = σ !! h'.
Proof.
  intros Hne. unfold close. destruct (σ !! h); [|reflexivity].
  by apply list_lookup_insert_ne.
Qed.

Lemma closed_close (σ : heap) h : f_closed (file_at (close σ h) h) = true.
Proof.
  destruct (σ !! h) as [f|] eqn:Hf.
  - unfold close. rewrite Hf. unfold file_at.
    rewrite list_lookup_insert_eq; [reflexivity | by eapply lookup_lt_Some].
  - unfold close. rewrite Hf. by rewrite file_at_unallocated.
Qed.

Lemma lines_close (σ : heap) h h' : f_lines (file_at (close σ h) h') = f_lines (file_at σ h').
Proof.
  destruct (decide (h = h')) as [<-|Hne].
  - destruct (σ !! h) as [f|] eqn:Hf.
    + unfold close. rewrite Hf. unfold file_at at 1.
      rewrite list_lookup_insert_eq; [|by eapply lookup_lt_Some].
      by rewrite (file_at_lookup _ _ _ Hf).
    + unfold close. by rewrite Hf.
  - unfold file_at. by rewrite lookup_close_ne.
Qed.






End Store.

(** ** The CSV reader consumes what it returns *)

Section CsvLength.
Import Py Csv.

Lemma read_rows_le skip d lines : forall p n r rest n',
  read_rows skip d p lines n = (r, rest, n') -> length rest <= length lines.
Proof.
  induction lines as [|l ls IH]; intros p n r rest n'; simpl.
  - destruct (_ || _); intros [= <- <- <-]; simpl; lia.
  - destruct (feed d p (Text.chars l)) as [p'|e]; [|intros [= <- <- <-]; simpl; lia].
    destruct (bool_decide (p_state p' = START_RECORD)).
    + destruct (skip && _).
      * intros H. apply IH in H. lia.
      * intros [= <- <- <-]. simpl. lia.
    + intros H. apply IH in H. lia.
Qed.

Lemma read_rows_cons skip d l ls p n r rest n' :
  read_rows skip d p (l :: ls) n = (r, rest, n') -> length rest <= length ls.
Proof.
  simpl. destruct (feed d p (Text.chars l)) as [p'|e]; [|intros [= <- <- <-]; simpl; lia].
  destruct (bool_decide (p_state p' = START_RECORD)).
  - destruct (skip && _).
    + apply read_rows_le.
    + intros [= <- <- <-]. lia.
  - apply read_rows_le.
Qed.

Lemma reader_next_row d lines n row rest n' :
  reader_next d lines n = (Ok (Some row), rest, n') -> length rest < length lines.
Proof.
  unfold reader_next. destruct lines as [|l ls].
  - simpl. discriminate.
  - intros H. apply read_rows_cons in H. simpl. lia.
Qed.

Lemma fieldnames_le dr lines r dr' rest :
  fieldnames dr lines = (r, dr', rest) -> length rest <= length lines.
Proof.
  unfold fieldnames. destruct (_fieldnames dr).
  - intros [= <- <- <-]. lia.
  - destruct (reader_next _ _ _) as [[r0 ls] n] eqn:E.
    apply read_rows_le in E.
    destruct r0 as [[row|]|e]; intros [= <- <- <-]; lia.
Qed.

(** A row handed over by [DictReader.__next__] used up at least one line. *)
Lemma DictReader_next_row dr lines d dr' rest :
  DictReader_next dr lines = (Ok (Some d), dr', rest) -> length rest < length lines.
Proof.
  unfold DictReader_next.
  destruct (if bool_decide (line_num dr = 0%nat) then fieldnames dr lines else (Ok (), dr, lines))
    as [[r0 dr1] lines1] eqn:E0.
  assert (length lines1 <= length lines) as Hle.
  { destruct (bool_decide _); [by eapply fieldnames_le | injection E0 as <- <- <-; lia]. }
  destruct r0 as [[]|e]; [|discriminate].
  destruct (reader_next _ lines1 _) as [[r1 ls] n] eqn:E1.
  destruct r1 as [[row|]|e]; [|discriminate..].
  apply reader_next_row in E1.
  destruct row as [|c row].
  - destruct (read_rows true _ _ ls n) as [[r2 ls2] n2] eqn:E2.
    apply read_rows_le in E2. simpl.
    destruct r2 as [[row2|]|e]; [|discriminate..].
    destruct (_fieldnames dr1); intros [= <- <- <-]; lia.
  - simpl. destruct (_fieldnames dr1); intros [= <- <- <-]; lia.
Qed.

End CsvLength.

(** ** Generators: what they touch, and that they finish *)

Section Generators.
Context {L : FP.StdLib}.
Import Py IO FP Spec.

Lemma ndjson_scan_le lines : forall r rest,
  ndjson_scan lines = (r, rest) -> length rest <= length lines.
Proof.
  induction lines as [|l ls IH]; intros r rest; simpl.
  - intros [= <- <-]. simpl. lia.
  - destruct (bool_decide (Text.strip l = "")).
    + intros H. apply IH in H. lia.
    + destruct (json_loads (Text.strip l)) as [v|[]]; intros [= <- <-]; lia.
Qed.

Lemma ndjson_scan_record lines rec rest :
  ndjson_scan lines = (Ok (Some rec), rest) -> length rest < length lines.
Proof.
  induction lines as [|l ls IH]; simpl; [discriminate|].
  destruct (bool_decide (Text.strip l = "")).
  - intros H. apply IH in H. lia.
  - destruct (json_loads (Text.strip l)) as [v|[]]; intros [= <- <-]; lia.
Qed.





(** Every record a generator yields brings it closer to its end. *)
Lemma step_size r σ rec r' σ' :
  step r σ = (Yield rec r', σ') -> size r' σ' < size r σ.
Proof.
  unfold step. intros H.
  destruct r as [h dr|items|data| |h|els|secs|h i|h ns ws tw i].
  - destruct (f_closed (file_at σ h)) eqn:Hc; [discriminate|].
    destruct (Csv.DictReader_next dr _) as [[r0 dr'] rest] eqn:E.
    destruct r0 as [[row|]|e]; simplify_eq. simpl.
    rewrite lines_set_lines by by apply open_is_allocated.
    by eapply DictReader_next_row.
  - destruct items; simplify_eq. simpl. lia.
  - simplify_eq. simpl. lia.
  - discriminate.
  - destruct (f_closed (file_at σ h)) eqn:Hc; [discriminate|].
    destruct (ndjson_scan _) as [r0 rest] eqn:E.
    destruct r0 as [[row|]|e]; simplify_eq. simpl.
    rewrite lines_set_lines by by apply open_is_allocated.
    by eapply ndjson_scan_record.
  - destruct els; simplify_eq. simpl. lia.
  - destruct secs as [|[name [items|e]] secs]; simplify_eq. simpl. lia.
  - unfold next_line in H. destruct (f_closed (file_at σ h)) eqn:Hc; [discriminate|].
    destruct (f_lines (file_at σ h)) as [|l ls] eqn:El; simplify_eq. simpl.
    rewrite El, lines_set_lines by by apply open_is_allocated. simpl. lia.
  - unfold next_line in H. destruct (f_closed (file_at σ h)) eqn:Hc; [discriminate|].
    destruct (f_lines (file_at σ h)) as [|l ls] eqn:El; [discriminate|].
    destruct (Text.fits_ssize tw); simplify_eq. simpl.
    rewrite El, lines_set_lines by by apply open_is_allocated. simpl. lia.
Qed.

Lemma drain_total fuel : forall r σ acc, size r σ < fuel -> is_Some (drain fuel r σ acc).
Proof.
  induction fuel as [|fuel IH]; intros r σ acc Hlt; [lia|]. simpl.
  destruct (step r σ) as [[rec r'| |e] σ'] eqn:E; eauto.
  apply IH. apply step_size in E. lia.
Qed.


(** [list(g)] returns: the fuel of the model is never used up. *)
Lemma list_gen_total g σ : is_Some (list_gen g σ).
Proof.
  destruct g as [d h o|r|]; unfold list_gen; eauto.
  - destruct (start d h o σ) as [[r|e] σ']; eauto. apply drain_total. lia.
  - apply drain_total. lia.
Qed.


(** [parse] returns, with a value or an exception. *)
Lemma parse_total self fs σ path fmt o stream :
  is_Some (parse self fs σ path fmt o stream).
Proof.
  unfold parse. destruct (lookup_parser _ _) as [d|]; eauto.
  destruct (acquire self fs σ path) as [[f|e] σ1]; eauto.
  destruct stream; eauto.
  destruct (list_gen_total (GNew d f o) σ1) as [[[l|e] σ2] ->]; eauto.
Qed.

End Generators.

(** ** The dispatcher *)

Section Dispatcher.
Context {L : FP.StdLib}.
Import Py IO FP Spec.

Lemma lookup_parser_None t m : t ∉ map fst m -> lookup_parser t m = None.
Proof.
  induction m as [|[k d] m IH]; simpl; [reflexivity|].
  intros Hn. apply not_elem_of_cons in Hn as [Hk Hn].
  rewrite bool_decide_eq_false_2 by congruence. by apply IH.
Qed.

(** C9. A format tag outside the decoder registry makes [parse] raise
    [ValueError] with the message "Unsupported format: " followed by the
    tag; the store is left as it was: no file is opened and nothing is
    read. *)
Theorem unsupported_format_rejected self fs σ path fmt o stream :
  resolve_format σ path fmt ∉ registered ->
  parse self fs σ path fmt o stream =
    Some (Raise (ValueError ("Unsupported format: " +:+ resolve_format σ path fmt)), σ).
Proof.
  intros Hn. unfold parse. by rewrite lookup_parser_None.
Qed.

Lemma guess_format_registered path : _guess_format path ∈ registered.
Proof.
  unfold _guess_format. repeat case_match; apply (bool_decide_unpack _); vm_compute; exact I.
Qed.

(** The if-chain of [_guess_format] read as a table. *)
Lemma guess_format_in_table path ext tag :
  (ext, tag) ∈ extension_table -> extension path = ext -> _guess_format path = tag.
Proof.
  intros Hin Hext. unfold _guess_format.
  change (Text.lower (Text.splitext path).2) with (extension path).
  rewrite Hext. clear Hext. unfold extension_table in Hin.
  repeat (apply elem_of_cons in Hin as [[= -> ->]|Hin]; [vm_compute; reflexivity|]).
  by apply elem_of_nil in Hin.
Qed.

Lemma guess_format_not_in_table path :
  extension path ∉ map fst extension_table -> _guess_format path = "unknown".
Proof.
  intros Hn. unfold _guess_format.
  change (Text.lower (Text.splitext path).2) with (extension path).
  assert (forall l, l ⊆ map fst extension_table ->
                    bool_decide (extension path ∈ l) = false) as F.
  { intros l Hl. apply bool_decide_eq_false_2. intros H. apply Hn. by apply Hl. }
  rewrite !F; [reflexivity|..]; intros x Hx; simpl;
    repeat (apply elem_of_cons in Hx as [->|Hx];
            [apply (bool_decide_unpack _); vm_compute; exact I|]);
    by apply elem_of_nil in Hx.
Qed.

(** C8. [_guess_format] is a total function of the path: an extension of
    the documented table gives the documented tag, any other extension
    (or none) gives "unknown", the result is always a registered tag, and
    with an explicit format the resolver is not consulted: the format used
    is the lower-cased argument, whatever the source. *)
Theorem guess_format_table :
  (forall path ext tag,
      (ext, tag) ∈ extension_table -> extension path = ext -> _guess_format path = tag)
  /\ (forall path, extension path ∉ map fst extension_table -> _guess_format path = "unknown")
  /\ (forall path, _guess_format path ∈ registered)
  /\ (forall σ source fmt, resolve_format σ source (Some fmt) = Text.lower fmt).
Proof.
  split; [|split; [|split]].
  - apply guess_format_in_table.
  - apply guess_format_not_in_table.
  - apply guess_format_registered.
  - reflexivity.
Qed.




(** Once the file is closed no decoder gets past its first read. *)
Lemma start_closed d h o σ :
  f_closed (file_at σ h) = true -> exists msg, start d h o σ = (Raise (ValueError msg), σ).
Proof.
  intros Hc. unfold start, iter_file, read. rewrite Hc.
  destruct d; eauto. unfold closed_error.
  destruct (fixed_schema o) as [[|c schema]|]; eauto.
Qed.

(** C1, at the path sources: the generator that [parse] returns for a
    path with [stream=True] reads from a file that the [finally] clause
    has closed already, so its first [next] raises [ValueError] and no
    record can be obtained from it. *)
Theorem lazy_parse_of_path_yields_nothing self fs σ p fmt o g σ' :
  parse self fs σ (Path p) fmt o true = Some (Ok (Lazy g), σ') ->
  exists msg, next g σ' = (Error (ValueError msg), GDone, σ').
Proof.
  unfold parse. destruct (lookup_parser _ _) as [d|]; [|discriminate].
  destruct (acquire self fs σ (Path p)) as [[h|e] σ1]; [|discriminate].
  intros [= <- <-]. unfold release, close_after, next.
  destruct (start_closed d h o (close σ1 h) (closed_close σ1 h)) as [msg ->]. eauto.
Qed.

(** For a stream, [parse] with [stream=True] reads nothing: the store is
    unchanged and the generator has not started; emptying that generator
    is what [stream=False] does at once. *)
Lemma lazy_parse_of_stream self fs σ h fmt o d :
  lookup_parser (resolve_format σ (Stream h) fmt) parser_map = Some d ->
  parse self fs σ (Stream h) fmt o true = Some (Ok (Lazy (GNew d h o)), σ)
  /\ parse self fs σ (Stream h) fmt o false =
       match list_gen (GNew d h o) σ with
       | Some (Ok l, σ') => Some (Ok (Eager l), σ')
       | Some (Raise e, σ') => Some (Raise e, σ')
       | None => None
       end.
Proof.
  intros Hd. unfold parse, acquire, release, close_after. rewrite Hd. split; [reflexivity|].
  destruct (list_gen _ σ) as [[[l|e] σ']|]; reflexivity.
Qed.

Lemma lookup_parser_fixed : lookup_parser "fixed" parser_map = Some _parse_fixed_width.
Proof. reflexivity. Qed.

Lemma start_no_schema h o σ :
  fixed_schema o = None \/ fixed_schema o = Some [] ->
  start _parse_fixed_width h o σ = (Raise schema_required, σ).
Proof. unfold start. intros [-> | ->]; reflexivity. Qed.

(** C3, as the code has it. With the format "fixed", no schema and a
    source that opens: with [stream=False] the call raises the
    configuration error; with [stream=True] the call returns a generator,
    and it is the first [next] on it that raises that error. In both
    cases no line is read: the store after the error is the store before
    it (apart from the [finally] clause closing a file opened for a
    path). *)
Theorem fixed_without_schema self fs σ path fmt o h σ1 :
  resolve_format σ path fmt = "fixed" ->
  fixed_schema o = None \/ fixed_schema o = Some [] ->
  acquire self fs σ path = (Ok h, σ1) ->
  parse self fs σ path fmt o false = Some (Raise schema_required, release path σ1 h)
  /\ parse self fs σ path fmt o true =
       Some (Ok (Lazy (GNew _parse_fixed_width h o)), release path σ1 h)
  /\ (forall σ2, next (GNew _parse_fixed_width h o) σ2 = (Error schema_required, GDone, σ2))
  /\ (forall h', f_lines (file_at (release path σ1 h) h') = f_lines (file_at σ1 h')).
Proof.
  intros Hf Hs Ha. unfold parse. rewrite Hf, lookup_parser_fixed, Ha.
  unfold list_gen, next. rewrite !start_no_schema by done.
  repeat split.
  - intros σ2. by rewrite start_no_schema.
  - intros h'. unfold release. destruct (close_after path); [apply lines_close|reflexivity].
Qed.

(** The line decoders on an open file: one record per line left. *)
Lemma drain_lines ls : forall fuel h i σ acc,
  f_closed (file_at σ h) = false ->
  f_lines (file_at σ h) = ls ->
  length ls < fuel ->
  exists σ', drain fuel (RLines h i) σ acc =
               Some (Ok (rev acc ++ imap (fun k line => line_record (i + k) line) ls), σ').
Proof.
  induction ls as [|l ls IH]; intros fuel h i σ acc Hc Hl Hlt;
    (destruct fuel as [|fuel]; [simpl in Hlt; lia|]); simpl; unfold next_line; rewrite Hc, Hl.
  - exists σ. by rewrite app_nil_r.
  - destruct (IH fuel h (S i) (set_lines σ h ls) (line_record i l :: acc)) as [σ' ->].
    + by rewrite closed_set_lines.
    + apply lines_set_lines. by apply open_is_allocated.
    + simpl in Hlt. lia.
    + exists σ'. simpl. rewrite <- app_assoc. simpl.
      rewrite Nat.add_0_r. do 5 f_equal. apply imap_ext. intros k x _. simpl.
      f_equal. lia.
Qed.

Lemma list_gen_lines d h o σ :
  d = _parse_text \/ d = _parse_unknown ->
  f_closed (file_at σ h) = false ->
  exists σ', list_gen (GNew d h o) σ = Some (Ok (line_records (f_lines (file_at σ h))), σ').
Proof.
  intros Hd Hc. unfold list_gen.
  assert (start d h o σ = (Ok (RLines h 1), σ)) as ->.
  { unfold start, iter_file. rewrite Hc. by destruct Hd as [-> | ->]. }
  destruct (drain_lines (f_lines (file_at σ h)) (S (size (RLines h 1) σ)) h 1 σ [] Hc eq_refl)
    as [σ' ->]; [simpl; lia|].
  by exists σ'.
Qed.

(** Laziness on an open stream: a [next] of a line decoder reads one
    line, yields its record and leaves the other lines in the file. *)
Lemma next_reads_one_line h i σ line ls :
  f_closed (file_at σ h) = false ->
  f_lines (file_at σ h) = line :: ls ->
  next (GRun (RLines h i)) σ = (Item (line_record i line), GRun (RLines h (S i)), set_lines σ h ls)
  /\ f_lines (file_at (set_lines σ h ls) h) = ls.
Proof.
  intros Hc Hl. split.
  - simpl. unfold next_line. by rewrite Hc, Hl.
  - apply lines_set_lines. by apply open_is_allocated.
Qed.

(** A finished generator stays finished: the sequence is single-pass. *)
Lemma next_of_finished σ : next GDone σ = (StopIteration, GDone, σ).
Proof. reflexivity. Qed.

End Dispatcher.

Lemma unsupported_format_rejected_witness :
  (FP.resolve_format [] (FP.Path "data.txt") (Some "YAML") ∉ Spec.registered)
  /\ (FP.parse (L:=python) Sample.self Sample.fs [] (FP.Path "data.txt") (Some "YAML")
        Sample.no_options true
      = Some (Py.Raise (Py.ValueError "Unsupported format: yaml"), [])).
Proof.
  assert (FP.resolve_format [] (FP.Path "data.txt") (Some "YAML") ∉ Spec.registered) as H.
  { apply (bool_decide_unpack _). vm_compute. exact I. }
  split; [exact H|].
  exact (unsupported_format_rejected (L:=python) Sample.self Sample.fs []
           (FP.Path "data.txt") (Some "YAML") Sample.no_options true H).
Defined.

(** ** Dictionaries *)

Section Dictionaries.
Import Py Spec.

Global Instance KStr_inj : Inj (=) (=) KStr.
Proof. by intros ?? [=]. Qed.

Lemma dict_mem_keys k d : dict_mem k d = bool_decide (k ∈ keys d).
Proof.
  induction d as [|[k' v] d IH]; simpl; [reflexivity|].
  destruct (decide (k' = k)) as [->|Hne].
  - symmetry. apply bool_decide_eq_true_2. left.
  - rewrite IH. apply bool_decide_ext. rewrite elem_of_cons. intuition congruence.
Qed.

Lemma keys_dict_set k v d : keys (dict_set k v d) = add_key (keys d) k.
Proof.
  unfold add_key. induction d as [|[k' v'] d IH]; simpl; [reflexivity|].
  destruct (decide (k' = k)) as [->|Hne]; simpl.
  - rewrite bool_decide_eq_true_2 by left. reflexivity.
  - rewrite IH. destruct (bool_decide (k ∈ keys d)) eqn:E.
    + apply bool_decide_eq_true in E. rewrite bool_decide_eq_true_2 by by right. reflexivity.
    + apply bool_decide_eq_false in E.
      rewrite bool_decide_eq_false_2; [reflexivity|].
      rewrite elem_of_cons. intuition congruence.
Qed.

Lemma dict_get_set_eq k v d : dict_get k (dict_set k v d) = Some v.
Proof.
  induction d as [|[k' v'] d IH]; simpl.
  - by rewrite decide_True.
  - destruct (decide (k' = k)) as [->|Hne]; simpl.
    + by rewrite decide_True.
    + by rewrite decide_False.
Qed.

Lemma dict_get_set_ne k k' v d : k <> k' -> dict_get k' (dict_set k v d) = dict_get k' d.
Proof.
  intros Hne. induction d as [|[k0 v0] d IH]; simpl.
  - by rewrite decide_False.
  - destruct (decide (k0 = k)) as [->|Hne0]; simpl.
    + by rewrite !decide_False.
    + destruct (decide (k0 = k')); [reflexivity|exact IH].
Qed.

Lemma keys_dict_update d pairs : keys (dict_update d pairs) = foldl add_key (keys d) (map fst pairs).
Proof.
  unfold dict_update. revert d. induction pairs as [|[k v] pairs IH]; intros d; simpl.
  - reflexivity.
  - rewrite IH. by rewrite keys_dict_set.
Qed.

Lemma foldl_add_key_NoDup ks : forall acc, NoDup (acc ++ ks) -> foldl add_key acc ks = acc ++ ks.
Proof.
  induction ks as [|k ks IH]; intros acc Hnd; simpl.
  - by rewrite app_nil_r.
  - assert (k ∉ acc) as Hk.
    { apply NoDup_app in Hnd as (_ & Hd & _). intros Hin. apply (Hd _ Hin). left. }
    unfold add_key at 2. rewrite bool_decide_eq_false_2 by done.
    rewrite IH; rewrite <- app_assoc; [reflexivity|exact Hnd].
Qed.

Lemma key_seq_NoDup ks : NoDup ks -> key_seq ks = ks.
Proof. intros Hnd. unfold key_seq. by rewrite foldl_add_key_NoDup. Qed.

Lemma foldl_add_key_app acc ks ks' :
  foldl add_key acc (ks ++ ks') = foldl add_key (foldl add_key acc ks) ks'.
Proof. apply foldl_app. Qed.

End Dictionaries.

(** ** Fixed-width records *)

Section FixedWidth.
Import Py IO FP Spec.
Local Open Scope Z_scope.

Lemma chars_str l : Text.chars (Text.str l) = l.
Proof. apply list_ascii_of_string_of_list_ascii. Qed.

Lemma len_str l : Text.len (Text.str l) = Z.of_nat (length l).
Proof. unfold Text.len. by rewrite chars_str. Qed.




Lemma foldl_add a l : foldl Z.add a l = a + sum l.
Proof.
  unfold sum. revert a. induction l as [|x l IH]; intros a; simpl; [lia|].
  rewrite (IH (a + x)), (IH (0 + x)). lia.
Qed.

Lemma sum_cons x l : sum (x :: l) = x + sum l.
Proof. unfold sum at 1. simpl. by rewrite foldl_add. Qed.


Lemma fixed_fields_keys raw cols : forall pos rec,
  keys (fixed_fields raw pos rec cols) = foldl add_key (keys rec) (map (fun c => KStr c.1) cols).
Proof.
  induction cols as [|[name width] cols IH]; intros pos rec; simpl; [reflexivity|].
  by rewrite IH, keys_dict_set.
Qed.

Lemma fixed_fields_other raw name cols : forall pos rec,
  name ∉ map fst cols ->
  dict_get (KStr name) (fixed_fields raw pos rec cols) = dict_get (KStr name) rec.
Proof.
  induction cols as [|[n w] cols IH]; intros pos rec Hn; simpl; [reflexivity|].
  simpl in Hn. apply not_elem_of_cons in Hn as [Hne Hn].
  rewrite IH by done. apply dict_get_set_ne. congruence.
Qed.

(** Each field is cut at the sum of the widths before it. *)
Lemma fixed_fields_get raw cols : forall pos rec k name w,
  NoDup (map fst cols) -> cols !! k = Some (name, w) ->
  dict_get (KStr name) (fixed_fields raw pos rec cols) =
    Some (VStr (Text.strip (Text.slice raw (pos + sum (take k (map snd cols)))
                                           (pos + sum (take k (map snd cols)) + w)))).
Proof.
  induction cols as [|[n0 w0] cols IH]; intros pos rec k name w Hnd Hk; [discriminate|].
  simpl in Hnd. apply NoDup_cons in Hnd as [Hn0 Hnd].
  destruct k as [|k]; simpl in *.
  - injection Hk as -> ->. rewrite fixed_fields_other by done.
    rewrite dict_get_set_eq. change (sum []) with 0. by rewrite Z.add_0_r.
  - rewrite (IH _ _ k name w Hnd Hk). rewrite sum_cons.
    by rewrite !Z.add_assoc.
Qed.

(** With a name repeated in the schema, the last column wins. *)
Lemma fixed_fields_last raw cols : forall pos rec k name w,
  cols !! k = Some (name, w) ->
  name ∉ map fst (drop (S k) cols) ->
  dict_get (KStr name) (fixed_fields raw pos rec cols) =
    Some (VStr (Text.strip (Text.slice raw (pos + sum (take k (map snd cols)))
                                           (pos + sum (take k (map snd cols)) + w)))).
Proof.
  induction cols as [|[n0 w0] cols IH]; intros pos rec k name w Hk Hlast; [discriminate|].
  destruct k as [|k]; simpl in *.
  - injection Hk as -> ->. rewrite drop_0 in Hlast. rewrite fixed_fields_other by done.
    rewrite dict_get_set_eq. change (sum []) with 0. by rewrite Z.add_0_r.
  - rewrite (IH _ _ k name w Hk Hlast). rewrite sum_cons. by rewrite !Z.add_assoc.
Qed.

End FixedWidth.

Section FixedWidthDecoder.
Context {L : FP.StdLib}.
Import Py IO FP Spec.
Local Open Scope Z_scope.


End FixedWidthDecoder.



(** ** The dispatcher on the sample inputs *)

Lemma guess_format_table_witness :
  ((".jsonl", "ndjson") ∈ Spec.extension_table)
  /\ Spec.extension "logs/Report.JSONL" = ".jsonl"
  /\ FP._guess_format "logs/Report.JSONL" = "ndjson".
Proof.
  assert ((".jsonl", "ndjson") ∈ Spec.extension_table) as H1.
  { apply (bool_decide_unpack _). vm_compute. exact I. }
  assert (Spec.extension "logs/Report.JSONL" = ".jsonl") as H2 by (vm_compute; reflexivity).
  split; [exact H1|]. split; [exact H2|].
  exact (proj1 guess_format_table "logs/Report.JSONL" ".jsonl" "ndjson" H1 H2).
Defined.

(** A dot file, a dot in a directory name and a missing extension all
    resolve to "unknown". *)
Lemma guess_format_unknown_examples :
  FP._guess_format ".csv" = "unknown"
  /\ FP._guess_format "v1.2/data" = "unknown"
  /\ FP._guess_format "notes" = "unknown"
  /\ FP._guess_format "archive.tar.GZ" = "unknown".
Proof. repeat split; vm_compute; reflexivity. Qed.

Lemma lazy_parse_of_path_yields_nothing_witness :
  FP.parse (L:=python) Sample.self Sample.fs [] (FP.Path "data.txt") None Sample.no_options true
  = Some (Py.Ok (FP.Lazy (FP.GNew FP._parse_text 0 Sample.no_options)),
          [IO.mkfile (Some "data.txt") (IO.lines_of (Sample.text_of ["hello"; "world"])) true])
  /\ exists msg,
       FP.next (L:=python) (FP.GNew FP._parse_text 0 Sample.no_options)
         [IO.mkfile (Some "data.txt") (IO.lines_of (Sample.text_of ["hello"; "world"])) true]
       = (FP.Error (Py.ValueError msg), FP.GDone,
          [IO.mkfile (Some "data.txt") (IO.lines_of (Sample.text_of ["hello"; "world"])) true]).
Proof.
  assert (FP.parse (L:=python) Sample.self Sample.fs [] (FP.Path "data.txt") None
            Sample.no_options true
          = Some (Py.Ok (FP.Lazy (FP.GNew FP._parse_text 0 Sample.no_options)),
                  [IO.mkfile (Some "data.txt")
                     (IO.lines_of (Sample.text_of ["hello"; "world"])) true])) as H
    by (vm_compute; reflexivity).
  split; [exact H|].
  exact (lazy_parse_of_path_yields_nothing (L:=python) _ _ _ _ _ _ _ _ H).
Defined.

(** The same file read eagerly, and lazily from an open stream, gives its
    two records; lazily from the path, the first [next] fails. *)
Lemma data_txt_three_ways :
  FP.parse (L:=python) Sample.self Sample.fs [] (FP.Path "data.txt") None Sample.no_options false
  = Some (Py.Ok (FP.Eager [FP.line_record 1 "hello"; FP.line_record 2 "world"]),
          [IO.mkfile (Some "data.txt") [] true])
  /\ FP.list_gen (L:=python) (FP.GNew FP._parse_text 0 Sample.no_options)
       [Sample.stringio (Sample.text_of ["hello"; "world"])]
     = Some (Py.Ok [FP.line_record 1 "hello"; FP.line_record 2 "world"],
             [IO.mkfile None [] false])
  /\ FP.next (L:=python) (FP.GNew FP._parse_text 0 Sample.no_options)
       [IO.mkfile (Some "data.txt") (IO.lines_of (Sample.text_of ["hello"; "world"])) true]
     = (FP.Error IO.closed_error, FP.GDone,
        [IO.mkfile (Some "data.txt") (IO.lines_of (Sample.text_of ["hello"; "world"])) true]).
Proof. repeat split; vm_compute; reflexivity. Qed.

Lemma fixed_without_schema_witness :
  FP.resolve_format [] (FP.Path "people.dat") (Some "fixed") = "fixed"
  /\ (FP.fixed_schema Sample.no_options = None \/ FP.fixed_schema Sample.no_options = Some [])
  /\ FP.acquire Sample.self Sample.fs [] (FP.Path "people.dat")
     = (Py.Ok 0, [IO.mkfile (Some "people.dat") ["Al 5 "] false])
  /\ FP.parse (L:=python) Sample.self Sample.fs [] (FP.Path "people.dat") (Some "fixed")
       Sample.no_options false
     = Some (Py.Raise Spec.schema_required,
             FP.release (FP.Path "people.dat") [IO.mkfile (Some "people.dat") ["Al 5 "] false] 0).
Proof.
  assert (FP.resolve_format [] (FP.Path "people.dat") (Some "fixed") = "fixed") as H1
    by (vm_compute; reflexivity).
  assert (FP.fixed_schema Sample.no_options = None \/ FP.fixed_schema Sample.no_options = Some [])
    as H2 by (left; reflexivity).
  assert (FP.acquire Sample.self Sample.fs [] (FP.Path "people.dat")
          = (Py.Ok 0, [IO.mkfile (Some "people.dat") ["Al 5 "] false])) as H3
    by (vm_compute; reflexivity).
  split; [exact H1|]. split; [exact H2|]. split; [exact H3|].
  exact (proj1 (fixed_without_schema (L:=python) _ _ _ _ _ _ _ _ H1 H2 H3)).
Defined.

(** C3 as stated fails for [stream=True]: the call does not raise, it
    returns a generator. *)
Lemma lazy_call_without_schema_returns :
  FP.parse (L:=python) Sample.self Sample.fs [] (FP.Path "people.dat") (Some "fixed")
    Sample.no_options true
  = Some (Py.Ok (FP.Lazy (FP.GNew FP._parse_fixed_width 0 Sample.no_options)),
          [IO.mkfile (Some "people.dat") ["Al 5 "] true]).
Proof. vm_compute. reflexivity. Qed.

(** A blank line is a record too. *)
Lemma unknown_format_blank_line :
  FP.parse (L:=python) Sample.self Sample.fs [] (FP.Path "notes") None Sample.no_options false
  = Some (Py.Ok (FP.Eager
            [ [(Py.KStr "line_no", Py.VInt 1); (Py.KStr "text", Py.VStr "first")];
              [(Py.KStr "line_no", Py.VInt 2); (Py.KStr "text", Py.VStr "")];
              [(Py.KStr "line_no", Py.VInt 3); (Py.KStr "text", Py.VStr "third")] ]),
          [IO.mkfile (Some "notes") [] true]).
Proof. vm_compute. reflexivity. Qed.

(** ** Delimited records *)

Section Delimited.
Import Py Csv Spec.

Lemma map_fmap {A B} (f : A -> B) l : map f l = f <$> l.
Proof. reflexivity. Qed.

Lemma dict_get_update_notin k pairs : forall d,
  k ∉ map fst pairs -> dict_get k (dict_update d pairs) = dict_get k d.
Proof.
  unfold dict_update. induction pairs as [|[k0 v0] pairs IH]; intros d Hn; simpl; [reflexivity|].
  simpl in Hn. apply not_elem_of_cons in Hn as [Hne Hn].
  rewrite IH by done. apply dict_get_set_ne. congruence.
Qed.

Lemma dict_get_update_in k v pairs : forall d,
  NoDup (map fst pairs) -> (k, v) ∈ pairs -> dict_get k (dict_update d pairs) = Some v.
Proof.
  induction pairs as [|[k0 v0] pairs IH]; intros d Hnd Hin.
  - by apply elem_of_nil in Hin.
  - simpl in Hnd. apply NoDup_cons in Hnd as [Hk0 Hnd].
    apply elem_of_cons in Hin as [[= -> ->]|Hin].
    + change (dict_update d ((k0, v0) :: pairs)) with (dict_update (dict_set k0 v0 d) pairs).
      rewrite dict_get_update_notin by done. apply dict_get_set_eq.
    + change (dict_update d ((k0, v0) :: pairs)) with (dict_update (dict_set k0 v0 d) pairs).
      by apply IH.
Qed.

Lemma keys_dict_of pairs : keys (dict_of pairs) = key_seq (map fst pairs).
Proof. unfold dict_of, key_seq. by rewrite keys_dict_update. Qed.

Lemma fst_zip_take {A B} (l : list A) (k : list B) : map fst (zip l k) = take (length k) l.
Proof.
  revert k. induction l as [|x l IH]; intros [|y k]; simpl; try reflexivity.
  by rewrite IH.
Qed.

Lemma NoDup_take_drop {A} (l : list A) n x :
  NoDup l -> x ∈ take n l -> x ∈ drop n l -> False.
Proof.
  intros Hnd Ht Hd. rewrite <- (take_drop n l) in Hnd.
  apply NoDup_app in Hnd as (_ & Hdis & _). by apply (Hdis x).
Qed.

(** The dictionary of the header zipped with the row: a header field has
    the value at its position, if the row is that long. *)
Lemma dict_get_zip names row i name :
  NoDup names -> names !! i = Some name ->
  dict_get (KStr name) (dict_of (zip (map KStr names) (map VStr row))) = VStr <$> row !! i.
Proof.
  intros Hnd Hi. unfold dict_of.
  assert (NoDup (map fst (zip (map KStr names) (map VStr row)))) as Hz.
  { rewrite fst_zip_take. apply (NoDup_fmap_2 KStr) in Hnd.
    rewrite <- (take_drop (length (map VStr row)) (KStr <$> names)) in Hnd.
    by apply NoDup_app in Hnd as (? & _ & _). }
  destruct (row !! i) as [v|] eqn:Hr; simpl.
  - apply dict_get_update_in; [exact Hz|].
    apply list_elem_of_lookup. exists i. apply lookup_zip_with_Some.
    exists (KStr name), (VStr v). rewrite !map_fmap, !list_lookup_fmap, Hi, Hr. done.
  - rewrite dict_get_update_notin; [reflexivity|].
    rewrite fst_zip_take, length_map. intros Hin.
    apply (NoDup_take_drop (KStr <$> names) (length row) (KStr name)).
    + by apply (NoDup_fmap_2 KStr).
    + exact Hin.
    + apply list_elem_of_lookup. exists (i - length row).
      rewrite lookup_drop. apply lookup_ge_None in Hr.
      replace (length row + (i - length row)) with i by lia.
      by rewrite list_lookup_fmap, Hi.
Qed.

Lemma keys_row_dict names row :
  keys (row_dict names row) =
    key_seq (map KStr names) ++ (if (length names <? length row)%nat then [KNone] else []).
Proof.
  unfold row_dict.
  assert (KNone ∉ key_seq (map KStr names)) as Hnone.
  { unfold key_seq. generalize (@nil key) (not_elem_of_nil KNone).
    induction names as [|n names IH]; intros acc Hacc; simpl; [exact Hacc|].
    apply IH. unfold add_key. destruct (bool_decide _); [exact Hacc|].
    rewrite elem_of_app, list_elem_of_singleton. intros [?|[=]]. done. }
  destruct (length names <? length row)%nat eqn:E1.
  - apply Nat.ltb_lt in E1.
    rewrite keys_dict_set, keys_dict_of, fst_zip_take, length_map.
    rewrite take_ge by (rewrite length_map; lia).
    unfold add_key. by rewrite bool_decide_eq_false_2.
  - rewrite app_nil_r. destruct (length row <? length names)%nat eqn:E2.
    + rewrite keys_dict_update, keys_dict_of, fst_zip_take, length_map, map_map. simpl.
      unfold key_seq. rewrite <- foldl_add_key_app.
      f_equal. change (take (length row) (KStr <$> names) ++ (KStr <$> drop (length row) names)
                       = KStr <$> names).
      by rewrite fmap_drop, take_drop.
    + apply Nat.ltb_ge in E1, E2.
      rewrite keys_dict_of, fst_zip_take, length_map.
      by rewrite take_ge by (rewrite length_map; lia).
Qed.

(** C5, as the code has it. For a header with distinct names, the
    record of a row holds every header field, in header order: a field
    has the text at its position in the row or, when the row is shorter,
    [None]; a trailing field is thus present with the value [None], not
    missing. A row longer than the header has one more entry, under the
    key [None], with the list of the values beyond the header. The file
    with the lines "a,b,c", "1,2" and "1,2,3,4" gives
    {a: "1", b: "2", c: None} and {a: "1", b: "2", c: "3", None: ["4"]}. *)
Theorem delimited_row_record names row :
  NoDup names ->
  let rec := row_dict names row in
  (forall i name,
      names !! i = Some name ->
      dict_get (KStr name) rec =
        Some match row !! i with Some v => VStr v | None => VNone end)
  /\ (length row <= length names -> keys rec = map KStr names)
  /\ (length names < length row ->
        keys rec = map KStr names ++ [KNone]
        /\ dict_get KNone rec = Some (VList (map VStr (drop (length names) row))))
  /\ FP.parse (L:=python) Sample.self Sample.fs [] (FP.Path "table.csv") None
       Sample.no_options false
     = Some (Ok (FP.Eager
          [ [(KStr "a", VStr "1"); (KStr "b", VStr "2"); (KStr "c", VNone)];
            [(KStr "a", VStr "1"); (KStr "b", VStr "2"); (KStr "c", VStr "3");
             (KNone, VList [VStr "4"])] ]),
        [IO.mkfile (Some "table.csv") [] true]).
Proof.
  intros Hnd rec.
  assert (key_seq (map KStr names) = map KStr names) as Hks.
  { apply key_seq_NoDup. by apply (NoDup_fmap_2 KStr). }
  split; [|split; [|split]].
  - intros i name Hi. pose proof (dict_get_zip names row i name Hnd Hi) as Hz.
    pose proof (lookup_lt_Some _ _ _ Hi) as Hlt.
    unfold rec, row_dict.
    destruct (length names <? length row)%nat eqn:E1.
    + apply Nat.ltb_lt in E1. rewrite dict_get_set_ne by done. rewrite Hz.
      destruct (lookup_lt_is_Some_2 row i) as [v ->]; [lia|reflexivity].
    + destruct (length row <? length names)%nat eqn:E2.
      * destruct (row !! i) as [v|] eqn:Hr.
        -- rewrite dict_get_update_notin; [exact Hz|].
           rewrite map_map. simpl. intros Hin.
           apply (NoDup_take_drop (KStr <$> names) (length row) (KStr name)).
           ++ by apply (NoDup_fmap_2 KStr).
           ++ apply list_elem_of_lookup. exists i.
              rewrite lookup_take_lt by by eapply lookup_lt_Some.
              by rewrite list_lookup_fmap, Hi.
           ++ by rewrite <- fmap_drop.
        -- apply dict_get_update_in.
           ++ rewrite map_map. simpl. apply (NoDup_fmap_2 KStr).
              rewrite <- (take_drop (length row) names) in Hnd.
              by apply NoDup_app in Hnd as (_ & _ & ?).
           ++ apply (list_elem_of_fmap_2 (fun k => (KStr k, VNone))).
              apply list_elem_of_lookup. exists (i - length row).
              rewrite lookup_drop. apply lookup_ge_None in Hr.
              by replace (length row + (i - length row)) with i by lia.
      * apply Nat.ltb_ge in E1, E2. rewrite Hz.
        destruct (lookup_lt_is_Some_2 row i) as [v ->]; [lia|reflexivity].
  - intros Hle. unfold rec. rewrite keys_row_dict, Hks.
    destruct (Nat.ltb_spec (length names) (length row)); [lia|]. by rewrite app_nil_r.
  - intros Hlt. split.
    + unfold rec. rewrite keys_row_dict, Hks.
      by destruct (Nat.ltb_spec (length names) (length row)); [|lia].
    + unfold rec, row_dict.
      destruct (Nat.ltb_spec (length names) (length row)); [|lia]. apply dict_get_set_eq.
  - vm_compute. reflexivity.
Qed.

(** What [DictReader.__next__] hands over is the header zipped with a
    row, and the header, once read, stays. *)
Lemma DictReader_next_record dr lines d dr' rest :
  DictReader_next dr lines = (Ok (Some d), dr', rest) ->
  exists names row,
    _fieldnames dr' = Some names /\ d = row_dict names row
    /\ (forall names0, _fieldnames dr = Some names0 -> names0 = names).
Proof.
  unfold DictReader_next.
  destruct (if bool_decide (line_num dr = 0%nat) then fieldnames dr lines else (Ok (), dr, lines))
    as [[r0 dr1] lines1] eqn:E0.
  assert (forall names0, _fieldnames dr = Some names0 -> _fieldnames dr1 = Some names0) as Hkeep.
  { intros names0 Hn. destruct (bool_decide _); [|by injection E0 as <- <- <-].
    unfold fieldnames in E0. rewrite Hn in E0. by injection E0 as <- <- <-. }
  destruct r0 as [[]|e]; [|discriminate].
  destruct (reader_next _ lines1 _) as [[r1 ls] n] eqn:E1.
  destruct r1 as [[row|]|e]; [|discriminate..].
  destruct (match row with [] => _ | _ => _ end) as [[r2 ls2] n2] eqn:E2. simpl.
  destruct r2 as [[row2|]|e]; [|discriminate..].
  destruct (_fieldnames dr1) as [names|] eqn:En; [|discriminate].
  intros [= <- <- <-]. exists names, row2. simpl. repeat split.
  intros names0 Hn. apply Hkeep in Hn. congruence.
Qed.

End Delimited.

Lemma delimited_row_record_witness :
  NoDup ["a"; "b"; "c"]
  /\ Py.dict_get (Py.KStr "c") (Csv.row_dict ["a"; "b"; "c"] ["1"; "2"]) = Some Py.VNone.
Proof.
  assert (NoDup ["a"; "b"; "c"]) as H.
  { apply (bool_decide_unpack _). vm_compute. exact I. }
  split; [exact H|].
  exact (proj1 (delimited_row_record ["a"; "b"; "c"] ["1"; "2"] H) 2 "c" eq_refl).
Defined.

(** C5 as stated fails: the record of the short row "1,2" has the field
    "c"; it is not absent from the record. *)
Lemma delimited_short_row_keeps_field :
  FP.parse (L:=python) Sample.self Sample.fs [] (FP.Path "table.csv") None
    Sample.no_options false
  = Some (Py.Ok (FP.Eager
       [ [(Py.KStr "a", Py.VStr "1"); (Py.KStr "b", Py.VStr "2"); (Py.KStr "c", Py.VNone)];
         [(Py.KStr "a", Py.VStr "1"); (Py.KStr "b", Py.VStr "2"); (Py.KStr "c", Py.VStr "3");
          (Py.KNone, Py.VList [Py.VStr "4"])] ]),
     [IO.mkfile (Some "table.csv") [] true])
  /\ Py.dict_mem (Py.KStr "c")
       [(Py.KStr "a", Py.VStr "1"); (Py.KStr "b", Py.VStr "2"); (Py.KStr "c", Py.VNone)] = true.
Proof. split; vm_compute; reflexivity. Qed.

(** ** The field names of the records of one run *)

Section FieldNames.
Context {L : FP.StdLib}.
Import Py IO FP Spec.

Lemma of_outcome_item x rec g' σ' :
  of_outcome x = (Item rec, g', σ') -> exists r', x = (Yield rec r', σ') /\ g' = GRun r'.
Proof. destruct x as [[rec0 r'| |e] σ0]; simpl; intros [= <- <- <-]; eauto. Qed.

(** A new generator yields what its suspended form yields once the
    prologue has run. *)
Lemma produces_GNew d h o σ rec :
  produces (GNew d h o) σ rec ->
  exists r σ1, start d h o σ = (Ok r, σ1) /\ produces (GRun r) σ1 rec.
Proof.
  intros Hp. inversion Hp as [g σ0 rec0 g' σ' Hn|g σ0 rec0 g' σ' rec1 Hn Hlater]; subst;
    simpl in Hn; destruct (start d h o σ) as [[r|e] σ1]; try discriminate;
    exists r, σ1; (split; [reflexivity|]).
  - by eapply produces_now.
  - by eapply produces_later.
Qed.

Lemma drain_produces fuel : forall r σ acc l σ',
  drain fuel r σ acc = Some (Ok l, σ') ->
  forall rec, rec ∈ l -> rec ∈ acc \/ produces (GRun r) σ rec.
Proof.
  induction fuel as [|fuel IH]; intros r σ acc l σ'; simpl; [discriminate|].
  destruct (step r σ) as [[rec0 r'| |e] σ1] eqn:E; intros H rec Hin; [| |discriminate].
  - destruct (IH _ _ _ _ _ H rec Hin) as [Hacc|Hp].
    + apply elem_of_cons in Hacc as [->|Hacc]; [|by left].
      right. eapply produces_now. simpl. by rewrite E.
    + right. eapply produces_later; [|exact Hp]. simpl. by rewrite E.
  - injection H as <- <-. left.
    apply list_elem_of_In, in_rev. by apply list_elem_of_In.
Qed.

(** The records of the list that [stream=False] returns are the records
    the generator produces. *)
Lemma list_gen_produces g σ l σ' :
  list_gen g σ = Some (Ok l, σ') -> forall rec, rec ∈ l -> produces g σ rec.
Proof.
  destruct g as [d h o|r|]; unfold list_gen.
  - destruct (start d h o σ) as [[r|e] σ1] eqn:Es; [|discriminate].
    intros H rec Hin. destruct (drain_produces _ _ _ _ _ _ H rec Hin) as [Hn|Hp].
    + by apply elem_of_nil in Hn.
    + inversion Hp as [g σ0 rec0 g' σ2 Hn|g σ0 rec0 g' σ2 rec1 Hn Hlater]; subst.
      * eapply produces_now. simpl. rewrite Es. exact Hn.
      * eapply produces_later; [|exact Hlater]. simpl. rewrite Es. exact Hn.
  - intros H rec Hin. destruct (drain_produces _ _ _ _ _ _ H rec Hin) as [Hn|Hp]; [|done].
    by apply elem_of_nil in Hn.
  - intros [= <- <-] rec Hin. by apply elem_of_nil in Hin.
Qed.

Lemma keys_fixed_record names widths total_width line_no line :
  keys (fixed_record names widths total_width line_no line) = fixed_keys names widths.
Proof. unfold fixed_record, fixed_keys. by rewrite keys_dict_set, fixed_fields_keys. Qed.

Lemma fixed_run g σ rec :
  produces g σ rec ->
  forall h names widths total_width line_no,
    g = GRun (RFixed h names widths total_width line_no) ->
    keys rec = fixed_keys names widths.
Proof.
  induction 1 as [g σ rec g' σ' Hn|g σ rec0 g' σ' rec Hn Hp IH];
    intros h names widths total_width line_no ->; simpl in Hn;
    apply of_outcome_item in Hn as (r' & Hs & ->);
    unfold next_line in Hs;
    destruct (f_closed (file_at σ h)); try discriminate;
    destruct (f_lines (file_at σ h)); try discriminate;
    destruct (Text.fits_ssize total_width); try discriminate;
    injection Hs as <- <- <-.
  - apply keys_fixed_record.
  - by eapply IH.
Qed.

Lemma step_csv h dr σ rec r' σ' :
  step (RCsv h dr) σ = (Yield rec r', σ') ->
  exists dr' names row,
    r' = RCsv h dr' /\ Csv._fieldnames dr' = Some names /\ rec = Csv.row_dict names row
    /\ (forall names0, Csv._fieldnames dr = Some names0 -> names0 = names).
Proof.
  simpl. destruct (f_closed (file_at σ h)); [discriminate|].
  destruct (Csv.DictReader_next dr _) as [[r0 dr'] rest] eqn:E.
  destruct r0 as [[row|]|e]; intros [= <- <- <-].
  apply DictReader_next_record in E as (names & row0 & Hn & -> & Hkeep).
  exists dr', names, row0. eauto.
Qed.

(** Once the header is read, every record is that header zipped with a
    row. *)
Lemma csv_run g σ rec :
  produces g σ rec ->
  forall h dr names,
    g = GRun (RCsv h dr) -> Csv._fieldnames dr = Some names ->
    exists row, rec = Csv.row_dict names row.
Proof.
  induction 1 as [g σ rec g' σ' Hn|g σ rec0 g' σ' rec Hn Hp IH];
    intros h dr names -> Hnames;
    change (next (GRun (RCsv h dr)) σ) with (of_outcome (step (RCsv h dr) σ)) in Hn;
    apply of_outcome_item in Hn as (r' & Hs & ->);
    apply step_csv in Hs as (dr' & names' & row & -> & Hn' & -> & Hkeep);
    rewrite <- (Hkeep _ Hnames) in Hn'.
  - rewrite (Hkeep _ Hnames). eauto.
  - by eapply IH.
Qed.

Lemma csv_run_header h dr σ rec1 :
  produces (GRun (RCsv h dr)) σ rec1 ->
  exists names, forall rec, produces (GRun (RCsv h dr)) σ rec ->
                            exists row, rec = Csv.row_dict names row.
Proof.
  intros H1.
  assert (exists rec0 g' σ', next (GRun (RCsv h dr)) σ = (Item rec0, g', σ')) as (rec0 & g' & σ' & Hn).
  { inversion H1; subst; eauto. }
  pose proof Hn as Hn0.
  change (next (GRun (RCsv h dr)) σ) with (of_outcome (step (RCsv h dr) σ)) in Hn0.
  apply of_outcome_item in Hn0 as (r' & Hs & ->).
  apply step_csv in Hs as (dr' & names & row & -> & Hn' & -> & _).
  exists names. intros rec Hp.
  inversion Hp as [g σ0 rec2 g2 σ2 Hn2|g σ0 rec2 g2 σ2 rec3 Hn2 Hlater]; subst;
    rewrite Hn in Hn2; injection Hn2 as <- <- <-.
  - eauto.
  - by eapply csv_run.
Qed.

Lemma keys_xml_sub rec sub : keys (xml_sub rec sub) = add_key (keys rec) (KStr (tag sub)).
Proof.
  unfold xml_sub. destruct (dict_get _ rec) as [[]|]; apply keys_dict_set.
Qed.

Lemma keys_foldl_xml_sub subs : forall rec,
  keys (foldl xml_sub rec subs) = foldl add_key (keys rec) (map (fun e => KStr (tag e)) subs).
Proof.
  induction subs as [|sub subs IH]; intros rec; simpl; [reflexivity|].
  by rewrite IH, keys_xml_sub.
Qed.

Lemma keys_xml_record child : keys (xml_record child) = xml_keys child.
Proof.
  unfold xml_record, xml_keys.
  set (rec := foldl xml_sub _ _).
  assert (keys rec = key_seq (map KStr (map fst (attrib child) ++ map tag (children child))))
    as Hk.
  { unfold rec. rewrite keys_foldl_xml_sub, keys_dict_update. simpl.
    unfold key_seq. rewrite map_app, foldl_add_key_app, !map_map. reflexivity. }
  rewrite <- Hk. destruct rec as [|[k v] rec]; simpl; [|reflexivity].
  destruct (text child) as [t|]; [|reflexivity].
  by destruct (_ || _).
Qed.

(** C7, as the code has it. In one run of a generator:
    - fixed-width: all records have the same field names;
    - delimited: all records are the one header zipped with their row,
      so the field names are the header's for a row that is not longer
      than the header (a short row included), with the key [None] added
      for a row that is longer;
    - xml: the field names of a record are the attribute names and child
      tags of its own element, or "text": nothing ties them to the other
      records of the run.
    The records of the list returned with [stream=False] are produced by
    such a run. *)
Theorem field_names_in_a_run :
  (forall h o σ rec1 rec2,
      produces (GNew _parse_fixed_width h o) σ rec1 ->
      produces (GNew _parse_fixed_width h o) σ rec2 ->
      keys rec1 = keys rec2)
  /\ (forall d h o σ rec1,
        d = _parse_csv \/ d = _parse_tsv ->
        produces (GNew d h o) σ rec1 ->
        exists names, forall rec, produces (GNew d h o) σ rec ->
          exists row,
            rec = Csv.row_dict names row
            /\ keys rec = key_seq (map KStr names)
                          ++ (if (length names <? length row)%nat then [KNone] else []))
  /\ (forall child rest σ,
        step (RXml (child :: rest)) σ = (Yield (xml_record child) (RXml rest), σ)
        /\ keys (xml_record child) = xml_keys child)
  /\ (forall g σ l σ' rec, list_gen g σ = Some (Ok l, σ') -> rec ∈ l -> produces g σ rec).
Proof.
  split; [|split; [|split]].
  - intros h o σ rec1 rec2 H1 H2.
    apply produces_GNew in H1 as (r & σ1 & Hs & H1).
    apply produces_GNew in H2 as (r2 & σ2 & Hs2 & H2).
    rewrite Hs in Hs2. injection Hs2 as <- <-.
    assert (exists names widths total_width, r = RFixed h names widths total_width 1)
      as (names & widths & total_width & ->).
    { unfold start in Hs. destruct (fixed_schema o) as [[|c schema]|]; try discriminate;
        destruct (iter_file σ h); simplify_eq; eauto. }
    rewrite (fixed_run _ _ _ H1 _ _ _ _ _ eq_refl).
    by rewrite (fixed_run _ _ _ H2 _ _ _ _ _ eq_refl).
  - intros d h o σ rec1 Hd H1.
    apply produces_GNew in H1 as (r & σ1 & Hs & H1).
    assert (exists dr, r = RCsv h dr) as (dr & ->).
    { unfold start in Hs. destruct Hd as [-> | ->]; repeat case_match; simplify_eq; eauto. }
    destruct (csv_run_header _ _ _ _ H1) as (names & Hall).
    exists names. intros rec Hp.
    apply produces_GNew in Hp as (r2 & σ2 & Hs2 & Hp).
    rewrite Hs in Hs2. injection Hs2 as <- <-.
    destruct (Hall _ Hp) as (row & ->). exists row. split; [reflexivity|].
    apply keys_row_dict.
  - intros child rest σ. split; [reflexivity|apply keys_xml_record].
  - intros g σ l σ' rec Hl Hin. by eapply list_gen_produces.
Qed.

End FieldNames.

Lemma field_names_in_a_run_witness :
  Spec.produces (L:=python) (FP.GNew FP._parse_fixed_width 0 Sample.name_age)
    [Sample.stringio (Sample.text_of ["Al  5"; "Barbara 41"])]
    [(Py.KStr "name", Py.VStr "Al"); (Py.KStr "age", Py.VStr "5"); (Py.KStr "_line_no", Py.VInt 1)]
  /\ Spec.produces (L:=python) (FP.GNew FP._parse_fixed_width 0 Sample.name_age)
       [Sample.stringio (Sample.text_of ["Al  5"; "Barbara 41"])]
       [(Py.KStr "name", Py.VStr "Barb"); (Py.KStr "age", Py.VStr "ar");
        (Py.KStr "_line_no", Py.VInt 2)]
  /\ Py.keys [(Py.KStr "name", Py.VStr "Al"); (Py.KStr "age", Py.VStr "5");
              (Py.KStr "_line_no", Py.VInt 1)]
     = Py.keys [(Py.KStr "name", Py.VStr "Barb"); (Py.KStr "age", Py.VStr "ar");
                (Py.KStr "_line_no", Py.VInt 2)].
Proof.
  assert (Spec.produces (L:=python) (FP.GNew FP._parse_fixed_width 0 Sample.name_age)
            [Sample.stringio (Sample.text_of ["Al  5"; "Barbara 41"])]
            [(Py.KStr "name", Py.VStr "Al"); (Py.KStr "age", Py.VStr "5");
             (Py.KStr "_line_no", Py.VInt 1)]) as H1.
  { eapply Spec.produces_now. vm_compute. reflexivity. }
  assert (Spec.produces (L:=python) (FP.GNew FP._parse_fixed_width 0 Sample.name_age)
            [Sample.stringio (Sample.text_of ["Al  5"; "Barbara 41"])]
            [(Py.KStr "name", Py.VStr "Barb"); (Py.KStr "age", Py.VStr "ar");
             (Py.KStr "_line_no", Py.VInt 2)]) as H2.
  { eapply Spec.produces_later; [vm_compute; reflexivity|].
    eapply Spec.produces_now. vm_compute. reflexivity. }
  split; [exact H1|]. split; [exact H2|].
  exact (proj1 (field_names_in_a_run (L:=python)) _ _ _ _ _ H1 H2).
Defined.

(** C7 as stated fails for xml: the two children of one root give records
    with different field names. *)
Lemma xml_records_differ :
  FP.parse (L:=python) Sample.self Sample.fs [] (FP.Path "items.xml") None Sample.no_options false
  = Some (Py.Ok (FP.Eager [ [(Py.KStr "x", Py.VStr "1")]; [(Py.KStr "y", Py.VStr "2")] ]),
          [IO.mkfile (Some "items.xml") [] true])
  /\ Py.keys [(Py.KStr "x", Py.VStr "1")] <> Py.keys [(Py.KStr "y", Py.VStr "2")].
Proof. split; [vm_compute; reflexivity | discriminate]. Qed.

(** ** Empty input *)

Lemma check_delimiter_length s : Text.len s <> 1%Z -> Csv.check_delimiter s = Py.Raise Csv.delimiter_error.
Proof.
  unfold Csv.check_delimiter, Text.len. destruct (Text.chars s) as [|c [|c' cs]]; simpl; [done| |done].
  lia.
Qed.

Lemma check_delimiter_one s : Text.len s = 1%Z -> exists c, Csv.check_delimiter s = Py.Ok c.
Proof.
  unfold Csv.check_delimiter, Text.len. destruct (Text.chars s) as [|c [|c' cs]]; simpl;
    [lia|eauto|lia].
Qed.

Section EmptyInput.
Context {L : FP.StdLib}.
Import Py IO FP Spec.

(** C4, as the code has it. On an open, empty input and with
    [stream=False]: the formats csv (with a delimiter of one character,
    whichever it is), tsv, ndjson, jsonl, ini, text, log, unknown and
    fixed (with a schema) give the empty list; json and xml raise the
    error of their document parser, for which the empty text is not a
    document; csv with a delimiter of another length raises [TypeError],
    and fixed without a schema its [ValueError]. The
    three facts about the standard library are hypotheses:
    [json.loads("")] raises, [ET.parse] of an empty file raises, and
    [read_file] of an empty file finds no section. *)
Theorem empty_input self fs σ path fmt o d h σ1 e_json e_xml :
  json_loads "" = Raise e_json ->
  ET_parse "" = (Raise e_xml, "") ->
  read_file [] = (Ok [], []) ->
  lookup_parser (resolve_format σ path fmt) parser_map = Some d ->
  acquire self fs σ path = (Ok h, σ1) ->
  f_closed (file_at σ1 h) = false ->
  f_lines (file_at σ1 h) = [] ->
  exists σ',
    parse self fs σ path fmt o false =
      Some (match d with
            | _parse_json => Raise e_json
            | _parse_xml => Raise e_xml
            | _parse_csv =>
                if bool_decide (Text.len (default "," (csv_delimiter o)) = 1%Z)
                then Ok (Eager [])
                else Raise Csv.delimiter_error
            | _parse_fixed_width =>
                match fixed_schema o with
                | None | Some [] => Raise schema_required
                | Some _ => Ok (Eager [])
                end
            | _ => Ok (Eager [])
            end, σ').
Proof.
  intros Hj Hx Hi Hd Ha Hc Hl. unfold parse. rewrite Hd, Ha.
  unfold list_gen, start, iter_file, read. rewrite Hc, Hl. simpl String.concat.
  rewrite Hj, Hx, Hi.
  destruct d.
  - case_bool_decide as Hlen.
    + destruct (check_delimiter_one _ Hlen) as [c ->].
      simpl. rewrite Hc, Hl. simpl. eauto.
    + rewrite check_delimiter_length by done. eauto.
  - simpl. rewrite Hc, Hl. simpl. eauto.
  - eauto.
  - simpl. rewrite Hc, Hl. simpl. eauto.
  - eauto.
  - simpl. eauto.
  - simpl. unfold next_line. rewrite Hc, Hl. eauto.
  - destruct (fixed_schema o) as [[|c schema]|]; eauto.
    simpl. unfold next_line. rewrite Hc, Hl. eauto.
  - simpl. unfold next_line. rewrite Hc, Hl. eauto.
Qed.

End EmptyInput.

Lemma empty_input_witness :
  FP.json_loads (StdLib:=python) "" = Py.Raise (Py.JSONDecodeError "Expecting value")
  /\ FP.ET_parse (StdLib:=python) "" = (Py.Raise (Py.ParseError "no element found"), "")
  /\ FP.read_file (StdLib:=python) [] = (Py.Ok [], [])
  /\ FP.lookup_parser (FP.resolve_format [] (FP.Path "empty.ini") None) FP.parser_map
     = Some FP._parse_ini
  /\ FP.acquire Sample.self Sample.fs [] (FP.Path "empty.ini")
     = (Py.Ok 0, [IO.mkfile (Some "empty.ini") [] false])
  /\ IO.f_closed (IO.file_at [IO.mkfile (Some "empty.ini") [] false] 0) = false
  /\ IO.f_lines (IO.file_at [IO.mkfile (Some "empty.ini") [] false] 0) = []
  /\ exists σ',
       FP.parse (L:=python) Sample.self Sample.fs [] (FP.Path "empty.ini") None
         Sample.no_options false
       = Some (Py.Ok (FP.Eager []), σ').
Proof.
  assert (FP.json_loads (StdLib:=python) "" = Py.Raise (Py.JSONDecodeError "Expecting value"))
    as H1 by (vm_compute; reflexivity).
  assert (FP.ET_parse (StdLib:=python) "" = (Py.Raise (Py.ParseError "no element found"), ""))
    as H2 by (vm_compute; reflexivity).
  assert (FP.read_file (StdLib:=python) [] = (Py.Ok [], [])) as H3 by (vm_compute; reflexivity).
  assert (FP.lookup_parser (FP.resolve_format [] (FP.Path "empty.ini") None) FP.parser_map
          = Some FP._parse_ini) as H4 by (vm_compute; reflexivity).
  assert (FP.acquire Sample.self Sample.fs [] (FP.Path "empty.ini")
          = (Py.Ok 0, [IO.mkfile (Some "empty.ini") [] false])) as H5
    by (vm_compute; reflexivity).
  assert (IO.f_closed (IO.file_at [IO.mkfile (Some "empty.ini") [] false] 0) = false) as H6
    by reflexivity.
  assert (IO.f_lines (IO.file_at [IO.mkfile (Some "empty.ini") [] false] 0) = []) as H7
    by reflexivity.
  repeat (split; [assumption|]).
  exact (empty_input (L:=python) Sample.self Sample.fs [] (FP.Path "empty.ini") None
           Sample.no_options FP._parse_ini 0 _ _ _ H1 H2 H3 H4 H5 H6 H7).
Defined.

(** C4 as stated fails for json and xml: on an empty file the call
    raises. It fails for csv with a delimiter that is not one character,
    which raises [TypeError]; with one character, NUL for one, the
    result is the empty list. *)
Lemma empty_json_and_xml_raise :
  FP.parse (L:=python) Sample.self Sample.fs [] (FP.Path "empty.json") None
    Sample.no_options false
  = Some (Py.Raise (Py.JSONDecodeError "Expecting value"),
          [IO.mkfile (Some "empty.json") [] true])
  /\ FP.parse (L:=python) Sample.self Sample.fs [] (FP.Path "empty.xml") None
       Sample.no_options false
     = Some (Py.Raise (Py.ParseError "no element found"),
             [IO.mkfile (Some "empty.xml") [] true])
  /\ FP.parse (L:=python) Sample.self Sample.fs [] (FP.Path "empty.csv") None
       (FP.mkoptions (Some "ab") None) false
     = Some (Py.Raise Csv.delimiter_error, [IO.mkfile (Some "empty.csv") [] true])
  /\ FP.parse (L:=python) Sample.self Sample.fs [] (FP.Path "empty.csv") None
       (FP.mkoptions (Some (String (ascii_of_nat 0) "")) None) false
     = Some (Py.Ok (FP.Eager []), [IO.mkfile (Some "empty.csv") [] true]).
Proof. repeat split; vm_compute; reflexivity. Qed.

(** ** The library models on small inputs *)

Section LibraryModels.
Import Py.

Example splitext_examples :
  Text.splitext "a/b.d/file.tar.GZ" = ("a/b.d/file.tar", ".GZ")
  /\ Text.splitext ".csv" = (".csv", "")
  /\ Text.splitext "a.d/..csv" = ("a.d/..csv", "")
  /\ Text.splitext "a.d/..x.csv" = ("a.d/..x", ".csv")
  /\ Text.splitext "a.d/file" = ("a.d/file", "").
Proof. repeat split; vm_compute; reflexivity. Qed.

Example text_examples :
  Text.strip "  Al  " = "Al"
  /\ Text.lower "data.CSV" = "data.csv"
  /\ Text.slice "abcdef" (-2) 10 = "ef"
  /\ Text.slice "abcdef" 4 2 = ""
  /\ Text.ljust "ab" 4 = "ab  "
  /\ Text.ljust "abcdef" 4 = "abcdef"
  /\ IO.lines_of (Sample.text_of ["ab"; ""; "c"] +:+ "d")
     = ["ab" +:+ Sample.nl; Sample.nl; "c" +:+ Sample.nl; "d"].
Proof. repeat split; vm_compute; reflexivity. Qed.

(** A quoted field may hold the delimiter, a doubled quote and a line
    break; a blank line is an empty row. *)
Example csv_reader_examples :
  let q := String Csv.quotechar "" in
  Csv.reader_next ","%char
    ["a," +:+ q +:+ "b,1" +:+ q +:+ q +:+ Sample.nl; "x" +:+ q +:+ ",c" +:+ Sample.nl; "1,2"] 0
  = (Ok (Some ["a"; "b,1" +:+ q +:+ Sample.nl +:+ "x"; "c"]), ["1,2"], 2)
  /\ Csv.reader_next ","%char [Sample.nl; "1,2"] 0 = (Ok (Some []), ["1,2"], 1)
  /\ Csv.reader_next ","%char [] 0 = (Ok None, [], 0)
  /\ Csv.reader_next ";"%char ["a;b,c;"] 0 = (Ok (Some ["a"; "b,c"; ""]), [], 1).
Proof. repeat split; vm_compute; reflexivity. Qed.

(** [DictReader] skips the blank rows after the header. *)
Example DictReader_example :
  (Csv.DictReader_next (Csv.new_DictReader ","%char)
     (IO.lines_of (Sample.text_of ["a,b,c"; ""; "1,2"; ""; "1,2,3,4"]))).1.1
  = Ok (Some [(KStr "a", VStr "1"); (KStr "b", VStr "2"); (KStr "c", VNone)]).
Proof. vm_compute. reflexivity. Qed.

Example json_examples :
  Json.loads "" = Raise (JSONDecodeError "Expecting value")
  /\ Json.loads "  " = Raise (JSONDecodeError "Expecting value")
  /\ Json.loads " [1, -2.5e3, {}, [], null , true] "
     = Ok (VList [VInt 1; VFloat "-2.5e3"; VDict []; VList []; VNone; VBool true])
  /\ Json.loads "{ 'a' : 1 }"
     = Raise (JSONDecodeError "Expecting property name enclosed in double quotes")
  /\ Json.loads "01" = Raise (JSONDecodeError "Extra data")
  /\ Json.loads "[[[[1]],2],3" = Raise (JSONDecodeError "Expecting ',' delimiter")
  /\ Json.loads "[1,]" = Raise (JSONDecodeError "Expecting value").
Proof. repeat split; vm_compute; reflexivity. Qed.

Example xml_examples :
  Xml.parse "" = Raise (ParseError "no element found")
  /\ Xml.parse "<r><a x='1'/><b y='2'>t<c>u</c>v</b></r>"
     = Ok (FP.Element "r" [] None
             [ FP.Element "a" [("x", "1")] None [];
               FP.Element "b" [("y", "2")] (Some "t") [FP.Element "c" [] (Some "u") []] ])
  /\ Xml.parse "<r><a></b></r>" = Raise (ParseError "mismatched tag")
  /\ Xml.parse "<r/><s/>" = Raise (ParseError "junk after document element").
Proof. repeat split; vm_compute; reflexivity. Qed.

(** Repeated child tags become a list; an element with text only gives
    the field "text". *)
Example xml_record_examples :
  FP.xml_record (FP.Element "p" [("id", "7")] None
                   [FP.Element "t" [] (Some "a") []; FP.Element "t" [] None [];
                    FP.Element "t" [] (Some "c") []])
  = [(KStr "id", VStr "7"); (KStr "t", VList [VStr "a"; VNone; VStr "c"])]
  /\ FP.xml_record (FP.Element "p" [] (Some " hi ") []) = [(KStr "text", VStr "hi")]
  /\ FP.xml_record (FP.Element "p" [] (Some "  ") []) = [].
Proof. repeat split; vm_compute; reflexivity. Qed.

Example ini_examples :
  Ini.read_file [] = (Ok [], [])
  /\ Ini.read_file (IO.lines_of (Sample.text_of
       ["# c"; "[DEFAULT]"; "base = /x"; "[A]"; "Key : %(base)s/y"; "  more"; "k2=100%%"; "";
        "[B]"]))
     = (Ok [ ("A", Ok [("base", "/x"); ("key", "/x/y" +:+ Sample.nl +:+ "more"); ("k2", "100%")]);
             ("B", Ok [("base", "/x")]) ], [])
  /\ Ini.read_file (IO.lines_of (Sample.text_of ["k = v"; "[A]"]))
     = (Raise (ConfigError "MissingSectionHeaderError"), ["[A]" +:+ Sample.nl]).
Proof. repeat split; vm_compute; reflexivity. Qed.

End LibraryModels.

(** ** What [os.path.splitext] takes for the extension *)

Section Splitext.
Local Open Scope Z_scope.

Lemma rfind_from_app c l1 l2 : forall i last,
  Text.rfind_from c (l1 ++ l2) i last =
    Text.rfind_from c l2 (i + Z.of_nat (length l1)) (Text.rfind_from c l1 i last).
Proof.
  induction l1 as [|a l1 IH]; intros i last; simpl.
  - by rewrite Z.add_0_r.
  - rewrite IH. f_equal. lia.
Qed.

Lemma rfind_from_notin c l : forall i last, c ∉ l -> Text.rfind_from c l i last = last.
Proof.
  induction l as [|a l IH]; intros i last Hn; simpl; [reflexivity|].
  apply not_elem_of_cons in Hn as [Hne Hn].
  rewrite bool_decide_eq_false_2 by congruence. by apply IH.
Qed.

Lemma slice_chars l a b :
  0 <= a -> a <= b -> b <= Z.of_nat (length l) ->
  Text.slice (Text.str l) a b = Text.str (take (Z.to_nat (b - a)) (drop (Z.to_nat a) l)).
Proof.
  intros Ha Hab Hb. unfold Text.slice, Text.clamp, Text.len. rewrite chars_str.
  destruct (a <? 0) eqn:Ea; [lia|]. destruct (b <? 0) eqn:Eb; [lia|].
  by rewrite !Z.min_l by lia.
Qed.

Lemma str_inj l1 l2 : Text.str l1 = Text.str l2 -> l1 = l2.
Proof. intros H. by rewrite <- (chars_str l1), <- (chars_str l2), H. Qed.

Lemma char_at_is_middle l1 a l2 c :
  Text.char_at_is (Text.str (l1 ++ a :: l2)) (Z.of_nat (length l1)) c = bool_decide (a = c).
Proof.
  unfold Text.char_at_is. rewrite slice_chars; [|lia|lia|rewrite length_app; simpl; lia].
  replace (Z.of_nat (length l1) + 1 - Z.of_nat (length l1)) with 1 by lia.
  rewrite Nat2Z.id, drop_app_length. simpl.
  apply bool_decide_ext. split.
  - intros H. apply (str_inj [a] [c]) in H. congruence.
  - by intros ->.
Qed.

(** The loop of [_splitext] over the base name [b1 ++ b2], of which [b1]
    is made of dots: it stops at the first character of [b2] that is not
    a dot. *)
Lemma splitext_loop_finds d e b2 : forall b1,
  (exists c, c ∈ b2 /\ c <> "."%char) ->
  let p := Text.str (d ++ (b1 ++ b2) ++ "."%char :: e) in
  let dotIndex := Z.of_nat (length (d ++ b1 ++ b2)) in
  Text.splitext_loop (length b2) p "."%char (Z.of_nat (length (d ++ b1))) dotIndex
    = (Text.slice p 0 dotIndex, Text.slice p dotIndex (Text.len p)).
Proof.
  induction b2 as [|a b2 IH]; intros b1 (c & Hc & Hne) p dotIndex.
  - by apply elem_of_nil in Hc.
  - simpl.
    assert (Text.char_at_is p (Z.of_nat (length (d ++ b1))) "." = bool_decide (a = "."%char))
      as ->.
    { unfold p. replace (d ++ (b1 ++ a :: b2) ++ "."%char :: e)
        with ((d ++ b1) ++ a :: (b2 ++ "."%char :: e)) by by rewrite <- !app_assoc.
      apply char_at_is_middle. }
    destruct (decide (a = "."%char)) as [->|Ha].
    + rewrite bool_decide_eq_true_2 by done. simpl.
      assert (exists c, c ∈ b2 /\ c <> "."%char) as Hex.
      { exists c. split; [|done]. by apply elem_of_cons in Hc as [->|Hc]. }
      specialize (IH (b1 ++ ["."%char]) Hex). simpl in IH.
      replace ((b1 ++ ["."%char]) ++ b2) with (b1 ++ "."%char :: b2) in IH
        by by rewrite <- app_assoc.
      replace (Z.of_nat (length (d ++ b1)) + 1)
        with (Z.of_nat (length (d ++ b1 ++ ["."%char])))
        by (rewrite !length_app; simpl; lia).
      exact IH.
    + by rewrite bool_decide_eq_false_2.
Qed.

(** A path [d ++ b ++ "." ++ e], where [d] is empty or ends with a slash,
    the base name [b] has no slash and a character that is not a dot, and
    [e] has neither a dot nor a slash, splits before the last dot. *)
Lemma splitext_extension d b e :
  d = [] \/ (exists d', d = d' ++ ["/"%char]) ->
  "/"%char ∉ b ->
  (exists c, c ∈ b /\ c <> "."%char) ->
  "/"%char ∉ e -> "."%char ∉ e ->
  Text.splitext (Text.str (d ++ b ++ "."%char :: e))
    = (Text.str (d ++ b), Text.str ("."%char :: e)).
Proof.
  intros Hd Hb Hex He1 He2. unfold Text.splitext, Text._splitext, Text.rfind.
  rewrite !chars_str.
  assert (Text.rfind_from "." (d ++ b ++ "."%char :: e) 0 (-1) = Z.of_nat (length (d ++ b)))
    as Hdot.
  { rewrite app_assoc, rfind_from_app. simpl. rewrite rfind_from_notin by done. lia. }
  assert (Text.rfind_from "/" (d ++ b ++ "."%char :: e) 0 (-1) = Z.of_nat (length d) - 1)
    as Hsep.
  { rewrite rfind_from_app. rewrite rfind_from_notin.
    - destruct Hd as [->|[d' ->]]; [reflexivity|].
      rewrite rfind_from_app. simpl. rewrite length_app. simpl. lia.
    - rewrite elem_of_app, elem_of_cons. intros [?|[[=]|?]]; done. }
  rewrite Hdot, Hsep.
  assert ((Z.of_nat (length d) - 1 <? Z.of_nat (length (d ++ b))) = true) as ->.
  { apply Z.ltb_lt. rewrite length_app. lia. }
  replace (Z.to_nat (Z.of_nat (length (d ++ b)) - (Z.of_nat (length d) - 1 + 1)))
    with (length b) by (rewrite length_app; lia).
  replace (Z.of_nat (length d) - 1 + 1) with (Z.of_nat (length (d ++ []))) by
    (rewrite app_nil_r; lia).
  pose proof (splitext_loop_finds d e b [] Hex) as Hloop. simpl in Hloop.
  rewrite Hloop. f_equal.
  - rewrite slice_chars; [|lia|lia|rewrite !length_app; simpl; lia].
    rewrite Z.sub_0_r, Nat2Z.id. change (Z.to_nat 0) with 0%nat.
    by rewrite drop_0, (app_assoc d b), take_app_length.
  - rewrite len_str. rewrite slice_chars; [|lia|rewrite !length_app; simpl; lia|lia].
    rewrite Nat2Z.id, (app_assoc d b), drop_app_length. rewrite take_ge; [reflexivity|].
    rewrite !length_app. simpl. lia.
Qed.

(** X7. A file name that ends with one of the documented extensions,
    in any letter case, after a base name that is not made of dots, in
    any directory, gets the documented tag. *)
Corollary guess_format_of_extension d b e ext tag :
  d = [] \/ (exists d', d = d' ++ ["/"%char]) ->
  "/"%char ∉ b ->
  (exists c, c ∈ b /\ c <> "."%char) ->
  "/"%char ∉ e -> "."%char ∉ e ->
  Text.lower (Text.str ("."%char :: e)) = ext ->
  (ext, tag) ∈ Spec.extension_table ->
  FP._guess_format (Text.str (d ++ b ++ "."%char :: e)) = tag.
Proof.
  intros Hd Hb Hex He1 He2 Hext Hin.
  apply (guess_format_in_table _ ext tag Hin).
  unfold Spec.extension. by rewrite splitext_extension.
Qed.

End Splitext.

(* ================================================================== *)
(** * Further properties of the code *)
(* ================================================================== *)

(** ** Lazy and eager consumption agree *)

Section LazyEager.
Context {L : FP.StdLib}.
Import Py IO FP Spec Behaviour.

Lemma next_GRun_item r σ rec g' σ' :
  next (GRun r) σ = (Item rec, g', σ') ->
  exists r', step r σ = (Yield rec r', σ') /\ g' = GRun r'.
Proof. intros H. by apply of_outcome_item in H. Qed.

Lemma drain_consumes fuel : forall r σ acc x σ',
  drain fuel r σ acc = Some (x, σ') ->
  match x with
  | Ok l => exists l', l = rev acc ++ l' /\ consumes (GRun r) σ l' StopIteration σ'
  | Raise e => exists l', consumes (GRun r) σ l' (Error e) σ'
  end.
Proof.
  induction fuel as [|fuel IH]; intros r σ acc x σ'; simpl; [discriminate|].
  destruct (step r σ) as [[rec r'| |e] σ1] eqn:E; intros H.
  - apply IH in H. destruct x as [l|e].
    + destruct H as (l' & -> & Hc). exists (rec :: l'). split.
      * simpl. by rewrite <- app_assoc.
      * eapply consumes_item; [|exact Hc]. simpl. by rewrite E.
    + destruct H as (l' & Hc). exists (rec :: l').
      eapply consumes_item; [|exact Hc]. simpl. by rewrite E.
  - injection H as <- <-. exists []. split; [by rewrite app_nil_r|].
    eapply consumes_end. simpl. by rewrite E.
  - injection H as <- <-. exists []. eapply consumes_error. simpl. by rewrite E.
Qed.

Lemma consumes_drain g σ l fin σ' :
  consumes g σ l fin σ' ->
  forall r fuel acc, g = GRun r -> size r σ < fuel ->
    drain fuel r σ acc =
      Some (match fin with
            | Error e => Raise e
            | _ => Ok (rev acc ++ l)
            end, σ').
Proof.
  induction 1 as [g σ g' σ' Hn|g σ e g' σ' Hn|g σ rec g' σ1 l fin σ' Hn Hc IH];
    intros r fuel acc -> Hlt; (destruct fuel as [|fuel]; [lia|]); simpl;
    simpl in Hn; destruct (step r σ) as [[rec' r'| |e'] σ2] eqn:E; simpl in Hn;
    try discriminate.
  - injection Hn as <- <-. by rewrite app_nil_r.
  - by injection Hn as <- <- <-.
  - injection Hn as <- <- <-.
    rewrite (IH r' fuel (rec' :: acc) eq_refl).
    + simpl. by rewrite <- app_assoc.
    + apply step_size in E. lia.
Qed.

Lemma consumes_GNew d h o σ l fin σ' :
  consumes (GNew d h o) σ l fin σ' <->
  match start d h o σ with
  | (Raise e, σ1) => l = [] /\ fin = Error e /\ σ' = σ1
  | (Ok r, σ1) => consumes (GRun r) σ1 l fin σ'
  end.
Proof.
  split.
  - intros Hc. inversion Hc as [g σ0 g' σ1 Hn|g σ0 e g' σ1 Hn|g σ0 rec g' σ1 l0 fin0 σ2 Hn Hl];
      subst; simpl in Hn; destruct (start d h o σ) as [[r|e0] σ3]; try discriminate.
    + by eapply consumes_end.
    + by eapply consumes_error.
    + by injection Hn as <- <-.
    + by eapply consumes_item.
  - destruct (start d h o σ) as [[r|e0] σ3] eqn:Es.
    + intros Hc. inversion Hc; subst.
      * eapply consumes_end. simpl. rewrite Es. eassumption.
      * eapply consumes_error. simpl. rewrite Es. eassumption.
      * eapply consumes_item; [|eassumption]. simpl. rewrite Es. eassumption.
    + intros (-> & -> & ->). eapply consumes_error. simpl. by rewrite Es.
Qed.

(** [list(g)] is what the consumer of [g] collects. *)
Lemma list_gen_consumes g σ x σ' :
  list_gen g σ = Some (x, σ') <->
  match x with
  | Ok l => consumes g σ l StopIteration σ'
  | Raise e => exists l, consumes g σ l (Error e) σ'
  end.
Proof.
  destruct g as [d h o|r|]; unfold list_gen.
  - pose proof (fun l fin => consumes_GNew d h o σ l fin σ') as HG.
    destruct (start d h o σ) as [[r|e0] σ1] eqn:Es.
    + split.
      * intros H. apply drain_consumes in H. destruct x as [l|e].
        -- destruct H as (l' & -> & Hc). by apply HG.
        -- destruct H as (l' & Hc). exists l'. by apply HG.
      * destruct x as [l|e].
        -- intros Hc. apply HG in Hc.
           by rewrite (consumes_drain _ _ _ _ _ Hc r _ [] eq_refl) by lia.
        -- intros (l & Hc). apply HG in Hc.
           by rewrite (consumes_drain _ _ _ _ _ Hc r _ [] eq_refl) by lia.
    + split.
      * intros [= <- <-]. exists []. by apply HG.
      * destruct x as [l|e].
        -- intros Hc. apply HG in Hc. by destruct Hc as (_ & [=] & _).
        -- intros (l & Hc). apply HG in Hc. by destruct Hc as (_ & [= ->] & ->).
  - split.
    + intros H. apply drain_consumes in H. destruct x as [l|e]; [|done].
      by destruct H as (l' & -> & Hc).
    + destruct x as [l|e].
      * intros Hc. by rewrite (consumes_drain _ _ _ _ _ Hc r _ [] eq_refl) by lia.
      * intros (l & Hc). by rewrite (consumes_drain _ _ _ _ _ Hc r _ [] eq_refl) by lia.
  - split.
    + intros [= <- <-]. by eapply consumes_end.
    + destruct x as [l|e].
      * intros Hc. inversion Hc; subst; simpl in *; by simplify_eq.
      * intros (l & Hc). inversion Hc; subst; simpl in *; by simplify_eq.
Qed.

(** X1. For a source that is a stream, the two modes of [parse] agree:
    the call with [stream=True] leaves the store as it was, and the list
    that [stream=False] returns is exactly the sequence of records that
    the consumer of the lazy generator collects up to the end of the
    iteration, with the same final store; [stream=False] raises [e]
    exactly when that consumer meets [e]. *)
Theorem stream_modes_agree self fs σ h fmt o g σ0 :
  parse self fs σ (Stream h) fmt o true = Some (Ok (Lazy g), σ0) ->
  σ0 = σ
  /\ (forall l σ',
        parse self fs σ (Stream h) fmt o false = Some (Ok (Eager l), σ')
        <-> consumes g σ l StopIteration σ')
  /\ (forall e σ',
        parse self fs σ (Stream h) fmt o false = Some (Raise e, σ')
        <-> exists l, consumes g σ l (Error e) σ').
Proof.
  unfold parse, acquire, release, close_after.
  destruct (lookup_parser _ _) as [d|]; [|discriminate].
  intros [= <- <-]. split; [reflexivity|].
  pose proof (fun x σ' => list_gen_consumes (GNew d h o) σ x σ') as H.
  destruct (list_gen (GNew d h o) σ) as [[[l0|e0] σ1]|] eqn:El.
  - split.
    + intros l σ'. split.
      * intros [= <- <-]. by apply (H (Ok l0)).
      * intros Hc. apply (H (Ok l)) in Hc. by injection Hc as <- <-.
    + intros e σ'. split; [discriminate|].
      intros Hc. apply (H (Raise e)) in Hc. discriminate.
  - split.
    + intros l σ'. split; [discriminate|].
      intros Hc. apply (H (Ok l)) in Hc. discriminate.
    + intros e σ'. split.
      * intros [= <- <-]. by apply (H (Raise e0)).
      * intros Hc. apply (H (Raise e)) in Hc. by injection Hc as <- <-.
  - destruct (list_gen_total (GNew d h o) σ) as [? Hs]. congruence.
Qed.

End LazyEager.

(** ** Facts about text *)

Section TextFacts.
Local Open Scope Z_scope.

Lemma chars_app a b : Text.chars (a +:+ b) = Text.chars a ++ Text.chars b.
Proof. induction a as [|c a IH]; simpl; [reflexivity|]. unfold Text.chars in *. simpl. by rewrite IH. Qed.

Lemma str_chars s : Text.str (Text.chars s) = s.
Proof. apply string_of_list_ascii_of_string. Qed.

Lemma str_app l1 l2 : Text.str (l1 ++ l2) = Text.str l1 +:+ Text.str l2.
Proof. induction l1 as [|c l1 IH]; simpl; [reflexivity|]. by rewrite IH. Qed.

Lemma drop_while_head p c l : p c = false -> Text.drop_while p (c :: l) = c :: l.
Proof. intros H. simpl. by rewrite H. Qed.



End TextFacts.

(** ** The command-line adapter *)

Section CommandLine.
Context {L : FP.StdLib}.
Import Py IO FP Cli.

Lemma print_each_total fuel : forall g σ out,
  bound g σ < fuel -> match g with GNew _ _ _ => 1 | _ => 0 end + bound g σ < fuel ->
  is_Some (print_each fuel g σ out).
Proof.
  induction fuel as [|fuel IH]; intros g σ out H1 H2; [lia|]. simpl.
  destruct (next g σ) as [[[rec| |e] g'] σ'] eqn:E; eauto.
  assert (exists r', g' = GRun r' /\ size r' σ' < fuel) as (r' & -> & Hs).
  { destruct g as [d h o|r|]; simpl in *.
    - destruct (start d h o σ) as [[r|e] σ1]; [|discriminate].
      apply of_outcome_item in E as (r' & E & ->). exists r'. split; [done|].
      apply step_size in E. lia.
    - apply of_outcome_item in E as (r' & E & ->). exists r'. split; [done|].
      apply step_size in E. lia.
    - discriminate. }
  apply IH; simpl; lia.
Qed.

Lemma run_total a schema fs σ : is_Some (run a schema fs σ).
Proof.
  unfold run.
  destruct (parse_total (mkFileParser (encoding a)) fs σ (Path (path a)) (format a)
              (mkoptions (delimiter a) schema) (stream a)) as [[[res|e] σ'] ->]; eauto.
  destruct (stream a); eauto. destruct res as [g|l]; eauto.
  apply print_each_total; destruct g; simpl; lia.
Qed.

(** [main] ends: with a return or with an exception. *)
Lemma main_total a fs σ : is_Some (main a fs σ).
Proof.
  unfold main. destruct (given _); [|apply run_total].
  destruct (schema_loop _ _); eauto. apply run_total.
Qed.

(** What [parse] gives for a path with [stream=True]: an exception, or a
    new generator over a file that is closed already. *)
Lemma parse_path_lazy self fs σ p fmt o x σ' :
  parse self fs σ (Path p) fmt o true = Some (x, σ') ->
  (exists e, x = Raise e)
  \/ (exists d h, x = Ok (Lazy (GNew d h o)) /\ f_closed (file_at σ' h) = true).
Proof.
  unfold parse. destruct (lookup_parser _ _) as [d|]; [|intros [= <- <-]; eauto].
  destruct (acquire self fs σ (Path p)) as [[h|e] σ1]; intros [= <- <-]; eauto.
  right. exists d, h. split; [reflexivity|]. apply closed_close.
Qed.

(** X2. In its default, streaming mode [main] never prints a record and
    never ends normally: either the schema argument has a part without a
    colon, and it writes the usage message and returns 2 with the store
    untouched, or an exception leaves it with nothing printed (at the
    latest the [ValueError] of the first read from the file that [parse]
    closed). *)
Theorem main_streaming_prints_nothing a fs σ :
  stream a = true ->
  exists out fin σ',
    main a fs σ = Some (out, fin, σ')
    /\ ((out = [Stderr usage_error] /\ fin = Returned (Some 2%Z) /\ σ' = σ)
        \/ (out = [] /\ exists e, fin = Uncaught e)).
Proof.
  intros Hs.
  assert (forall schema, exists out fin σ',
            run a schema fs σ = Some (out, fin, σ') /\ out = [] /\ exists e, fin = Uncaught e)
    as Hrun.
  { intros schema. unfold run. rewrite Hs.
    set (o := mkoptions _ _).
    destruct (parse_total (mkFileParser (encoding a)) fs σ (Path (path a)) (format a) o true)
      as [[x σ'] Ep].
    rewrite Ep.
    apply parse_path_lazy in Ep as [(e & ->)|(d & h & -> & Hc)]; [eauto 10|].
    simpl. destruct (start_closed d h o σ' Hc) as (msg & ->). eauto 10. }
  unfold main. destruct (given _).
  - destruct (schema_loop _ _) as [schema| |e]; [|eauto 10..].
    destruct (Hrun (Some schema)) as (out & fin & σ' & -> & -> & He). eauto 10.
  - destruct (Hrun None) as (out & fin & σ' & -> & -> & He). eauto 10.
Qed.

Lemma split_once_on_None sep l : forall cur,
  Cli.split_once_on sep cur l = None <-> sep ∉ l.
Proof.
  induction l as [|c l IH]; intros cur; simpl.
  - split; [intros _; apply not_elem_of_nil|done].
  - destruct (decide (c = sep)) as [->|Hne].
    + rewrite bool_decide_eq_true_2 by done. split; [done|].
      intros Hn. exfalso. apply Hn. left.
    + rewrite bool_decide_eq_false_2 by done. rewrite IH, not_elem_of_cons.
      split; [intros ?; split; [congruence|done] | by intros [_ ?]].
Qed.

Lemma int_raises_ValueError s e : int s = Raise e -> exists msg, e = ValueError msg.
Proof.
  unfold int, invalid_literal, too_many_digits.
  repeat case_match; intros [= <-]; eauto.
Qed.

Lemma schema_loop_app good items : forall rest acc,
  Forall2 (fun part item => Behaviour.convert_part part = Some item) good items ->
  schema_loop (good ++ rest) acc = schema_loop rest (acc ++ items).
Proof.
  intros rest acc H. revert acc.
  induction H as [|part item good items Hp _ IH]; intros acc; simpl.
  - by rewrite app_nil_r.
  - unfold Behaviour.convert_part in Hp.
    destruct (split_once part ":") as [[name width]|]; [|discriminate].
    destruct (int (Text.strip width)) as [w|e]; [|discriminate].
    injection Hp as <-. rewrite IH. by rewrite <- app_assoc.
Qed.

(** X3. When the first part of [--fixed-schema] that is not a
    well-formed [name:width] has no colon, [main] writes the usage
    message and returns 2; when it has a colon but its width is not an
    integer literal, the [ValueError] of [int] leaves [main] instead: it
    is not reported as a usage error. In both cases nothing is opened or
    printed on the standard output. *)
Theorem schema_argument_errors a fs σ good items bad rest :
  given (fixed_schema a) = true ->
  split (default "" (fixed_schema a)) ","%char = good ++ bad :: rest ->
  Forall2 (fun part item => Behaviour.convert_part part = Some item) good items ->
  (":"%char ∉ Text.chars bad ->
     main a fs σ = Some ([Stderr usage_error], Returned (Some 2%Z), σ))
  /\ (forall name width e,
        split_once bad ":"%char = Some (name, width) ->
        int (Text.strip width) = Raise e ->
        main a fs σ = Some ([], Uncaught e, σ) /\ exists msg, e = ValueError msg).
Proof.
  intros Hg Hs Hgood. unfold main. rewrite Hg, Hs, (schema_loop_app _ _ _ _ Hgood).
  split.
  - intros Hn. simpl. apply (split_once_on_None _ _ []) in Hn.
    unfold split_once. by rewrite Hn.
  - intros name width e Hsp He. simpl. rewrite Hsp, He. split; [reflexivity|].
    by eapply int_raises_ValueError.
Qed.












End CommandLine.

(** ** Sources that cannot be read *)

Section Unreadable.
Context {L : FP.StdLib}.
Import Py IO FP Spec.

Lemma lookup_parser_registered t :
  t ∈ registered -> exists d, lookup_parser t parser_map = Some d.
Proof.
  unfold registered. generalize parser_map as m.
  induction m as [|[k d] m IH]; simpl; intros Hin; [by apply elem_of_nil in Hin|].
  destruct (decide (k = t)) as [->|Hne].
  - rewrite bool_decide_eq_true_2 by done. eauto.
  - rewrite bool_decide_eq_false_2 by done. apply IH.
    apply elem_of_cons in Hin as [->|Hin]; done.
Qed.

(** X5. A stream that is closed already makes every registered format
    fail with [ValueError]: [parse] with [stream=False] raises it, and
    with [stream=True] the call returns a generator whose first [next]
    raises it. The store is unchanged. *)
Theorem closed_stream_raises self fs σ h fmt o :
  resolve_format σ (Stream h) fmt ∈ registered ->
  f_closed (file_at σ h) = true ->
  exists d msg,
    parse self fs σ (Stream h) fmt o false = Some (Raise (ValueError msg), σ)
    /\ parse self fs σ (Stream h) fmt o true = Some (Ok (Lazy (GNew d h o)), σ)
    /\ next (GNew d h o) σ = (Error (ValueError msg), GDone, σ).
Proof.
  intros Hr Hc. apply lookup_parser_registered in Hr as [d Hd].
  destruct (start_closed d h o σ Hc) as [msg Hs].
  exists d, msg. unfold parse, acquire, release, close_after, list_gen, next.
  by rewrite Hd, Hs.
Qed.

(** [open] does not read, so it does not meet bytes that are no text. *)
Lemma open_is_not_a_read fs σ path enc σ' :
  open fs σ path enc <> (Raise UnicodeDecodeError, σ').
Proof.
  unfold open, alloc. destruct (fs path enc) as [content|[msg|msg|msg]]; discriminate.
Qed.

(** X6. The Latin-1 fallback of [_open_file] is never taken. [open]
    does not decode, so it does not raise [UnicodeDecodeError]: the
    file object that [parse] works on for a path is the one opened with
    the encoding given or, without one (or with an empty one), as UTF-8.
    An error of that open is the error of [parse], and the store stays
    as it was. What the file system holds for the path under any other
    encoding, Latin-1 included, has no effect on the call. *)
Theorem open_failures self fs σ p :
  let enc := if bool_decide (default "" (encoding self) = "") then "utf-8"
             else default "" (encoding self) in
  acquire self fs σ (Path p) = open fs σ p enc
  /\ (forall fmt o stream e,
        resolve_format σ (Path p) fmt ∈ registered ->
        fs p enc = Fails e ->
        parse self fs σ (Path p) fmt o stream = Some (Raise (raised e), σ))
  /\ (forall fs' fmt o stream,
        fs' p enc = fs p enc ->
        parse self fs' σ (Path p) fmt o stream = parse self fs σ (Path p) fmt o stream).
Proof.
  intros enc.
  assert (forall fs0, acquire self fs0 σ (Path p) = open fs0 σ p enc) as Ha.
  { intros fs0. unfold acquire, _open_file, enc.
    destruct (bool_decide (default "" (encoding self) = "")); [|reflexivity]. simpl.
    pose proof (open_is_not_a_read fs0 σ p "utf-8") as Hno.
    destruct (open fs0 σ p "utf-8") as [[h|e] σ1]; [reflexivity|].
    destruct e; try reflexivity. by destruct (Hno σ1). }
  split; [apply Ha|split].
  - intros fmt o stream e Hr He. apply lookup_parser_registered in Hr as [d Hd].
    unfold parse. rewrite Hd, Ha. unfold open. by rewrite He.
  - intros fs' fmt o stream Hfs. unfold parse. rewrite !Ha. unfold open. by rewrite Hfs.
Qed.

End Unreadable.

(** ** Paths without an extension *)

Section NoExtension.
Local Open Scope Z_scope.

Lemma rfind_from_le c l : forall i last,
  last < i + Z.of_nat (length l) -> Text.rfind_from c l i last < i + Z.of_nat (length l).
Proof.
  induction l as [|a l IH]; intros i last Hl; [simpl in *; lia|].
  cbn [Text.rfind_from]. rewrite length_cons, Nat2Z.inj_succ in *.
  pose proof (IH (i + 1) (if bool_decide (a = c) then i else last)) as H.
  destruct (bool_decide (a = c)); lia.
Qed.

Lemma splitext_loop_dots d dots rest : forall k,
  Forall (fun c => c = "."%char) dots ->
  let p := Text.str (d ++ k ++ dots ++ rest) in
  Text.splitext_loop (length dots) p "."%char (Z.of_nat (length (d ++ k)))
    (Z.of_nat (length (d ++ k ++ dots))) = (p, "").
Proof.
  induction dots as [|c dots IH]; intros k Hall p; [reflexivity|].
  apply Forall_cons in Hall as [-> Hall].
  assert (d ++ k ++ ("."%char :: dots) ++ rest = (d ++ k) ++ "."%char :: (dots ++ rest)) as E1
    by (by rewrite <- !app_assoc).
  assert (d ++ k ++ ("."%char :: dots) ++ rest = d ++ (k ++ ["."%char]) ++ dots ++ rest) as E2
    by (by rewrite <- !app_assoc).
  assert (d ++ k ++ "."%char :: dots = d ++ (k ++ ["."%char]) ++ dots) as E3
    by (by rewrite <- !app_assoc).
  cbn [Text.splitext_loop length].
  assert (Text.char_at_is p (Z.of_nat (length (d ++ k))) "." = true) as ->.
  { unfold p. rewrite E1, char_at_is_middle. by apply bool_decide_eq_true_2. }
  cbn [negb].
  replace (Z.of_nat (length (d ++ k)) + 1) with (Z.of_nat (length (d ++ k ++ ["."%char])))
    by (rewrite !length_app; simpl; lia).
  unfold p. rewrite E2, E3. apply (IH (k ++ ["."%char]) Hall).
Qed.

(** A path whose base name is made of leading dots and a rest without a
    dot has no extension: the whole path is the root. *)
Lemma splitext_without_extension d dots b :
  d = [] \/ (exists d', d = d' ++ ["/"%char]) ->
  Forall (fun c => c = "."%char) dots ->
  "/"%char ∉ b -> "."%char ∉ b ->
  Text.splitext (Text.str (d ++ dots ++ b)) = (Text.str (d ++ dots ++ b), "").
Proof.
  intros Hd Hdots Hb1 Hb2. unfold Text.splitext, Text._splitext, Text.rfind.
  rewrite !chars_str.
  assert ("/"%char ∉ dots) as Hsd.
  { intros Hin. eapply Forall_forall in Hdots; [|exact Hin]. discriminate. }
  assert (Text.rfind_from "/" (d ++ dots ++ b) 0 (-1) = Z.of_nat (length d) - 1) as ->.
  { rewrite rfind_from_app, rfind_from_notin.
    - destruct Hd as [->|[d' ->]]; [reflexivity|].
      rewrite rfind_from_app. simpl. rewrite length_app. simpl. lia.
    - rewrite elem_of_app. intros [?|?]; done. }
  destruct dots as [|c dots _] using rev_ind.
  - simpl. rewrite rfind_from_app, (rfind_from_notin _ b) by done.
    assert (Text.rfind_from "." d 0 (-1) <= Z.of_nat (length d) - 1) as Hle.
    { destruct Hd as [->|[d' ->]]; [simpl; lia|].
      rewrite rfind_from_app. simpl.
      pose proof (rfind_from_le "." d' 0 (-1)). rewrite length_app. simpl. lia. }
    destruct (Z.ltb_spec (Z.of_nat (length d) - 1) (Text.rfind_from "." d 0 (-1))); [lia|done].
  - apply Forall_app in Hdots as [Hdots Hc]. apply Forall_inv in Hc as ->.
    assert (Text.rfind_from "." (d ++ (dots ++ ["."%char]) ++ b) 0 (-1)
            = Z.of_nat (length (d ++ dots))) as ->.
    { replace (d ++ (dots ++ ["."%char]) ++ b) with ((d ++ dots) ++ "."%char :: b)
        by (rewrite <- !app_assoc; reflexivity).
      rewrite rfind_from_app. simpl. rewrite rfind_from_notin by done. lia. }
    assert ((Z.of_nat (length d) - 1 <? Z.of_nat (length (d ++ dots))) = true) as ->.
    { apply Z.ltb_lt. rewrite length_app. lia. }
    replace (Z.to_nat (Z.of_nat (length (d ++ dots)) - (Z.of_nat (length d) - 1 + 1)))
      with (length dots) by (rewrite length_app; lia).
    replace (Z.of_nat (length d) - 1 + 1) with (Z.of_nat (length (d ++ []))) by
      (rewrite app_nil_r; lia).
    pose proof (splitext_loop_dots d dots ("."%char :: b) [] Hdots) as Hloop. simpl in Hloop.
    replace (d ++ (dots ++ ["."%char]) ++ b) with (d ++ dots ++ "."%char :: b)
      by (rewrite <- !app_assoc; reflexivity).
    exact Hloop.
Qed.

(** X8. A path whose base name has no dot, or no dot but leading ones
    (a hidden file such as [.csv], or [v1.2/data]), has no extension for
    [_guess_format], whatever its letters: the format is "unknown". *)
Theorem guess_format_without_extension d dots b :
  d = [] \/ (exists d', d = d' ++ ["/"%char]) ->
  Forall (fun c => c = "."%char) dots ->
  "/"%char ∉ b -> "."%char ∉ b ->
  FP._guess_format (Text.str (d ++ dots ++ b)) = "unknown".
Proof.
  intros Hd Hdots Hb1 Hb2. apply guess_format_not_in_table.
  unfold Spec.extension. rewrite splitext_without_extension by done.
  apply (bool_decide_unpack _). vm_compute. exact I.
Qed.

End NoExtension.

(** ** Lines written and read back *)

Section LinesRoundTrip.
Context {L : FP.StdLib}.
Import Py IO FP Spec Behaviour.

Lemma is_nl_LF c : Text.is_nl c = bool_decide (c = LF).
Proof.
  unfold Text.is_nl, Text.code, LF. destruct (bool_decide_reflect (c = "010"%char)) as [->|Hne].
  - reflexivity.
  - apply Z.eqb_neq. intros H. apply Hne.
    rewrite <- (ascii_N_embedding c), <- (ascii_N_embedding "010"%char). f_equal.
    change 10%Z with (Z.of_N (N_of_ascii "010"%char)) in H. lia.
Qed.

Lemma split_lines_line p : forall cur rest,
  LF ∉ p ->
  split_lines cur (p ++ LF :: rest) = Text.str (rev cur ++ p ++ [LF]) :: split_lines [] rest.
Proof.
  induction p as [|c p IH]; intros cur rest Hn; cbn [app split_lines].
  - rewrite is_nl_LF, bool_decide_eq_true_2 by done. reflexivity.
  - apply not_elem_of_cons in Hn as [Hne Hn].
    rewrite is_nl_LF, bool_decide_eq_false_2 by congruence.
    rewrite IH by done. cbn [rev]. by rewrite <- app_assoc.
Qed.

(** Iterating over a written text gives back its lines, each with its
    newline. *)
Lemma lines_of_written ls :
  Forall (fun l => LF ∉ Text.chars l) ls ->
  lines_of (written ls) = map (fun l => l +:+ String LF "") ls.
Proof.
  unfold lines_of, written. induction 1 as [|l ls Hl _ IH]; [reflexivity|].
  assert (Text.chars (String.concat "" (map (fun l => l +:+ String LF "") (l :: ls)))
          = Text.chars l ++ LF :: Text.chars (String.concat "" (map (fun l => l +:+ String LF "") ls)))
    as ->.
  { simpl. destruct (map _ ls) eqn:E.
    - rewrite chars_app. simpl. reflexivity.
    - rewrite !chars_app. simpl. by rewrite <- app_assoc. }
  rewrite split_lines_line by done. rewrite IH. simpl. f_equal.
  by rewrite str_app, str_chars.
Qed.

Lemma rstrip_nl_line l : LF ∉ Text.chars l -> Text.rstrip_nl (l +:+ String LF "") = l.
Proof.
  intros Hn. unfold Text.rstrip_nl. rewrite chars_app.
  change (Text.chars (String LF "")) with [LF].
  rewrite rev_app_distr. cbn [rev app Text.drop_while].
  rewrite is_nl_LF, bool_decide_eq_true_2 by done.
  assert (Text.drop_while Text.is_nl (rev (Text.chars l)) = rev (Text.chars l)) as ->.
  { destruct (rev (Text.chars l)) as [|c r] eqn:E; [reflexivity|].
    apply drop_while_head. rewrite is_nl_LF. apply bool_decide_eq_false_2. intros ->.
    apply Hn. apply list_elem_of_In, in_rev. rewrite E. left. reflexivity. }
  by rewrite rev_involutive, str_chars.
Qed.

(** X9. Lines written to a file, each ended by a newline, are read back
    by the plain-text decoder (and by the fallback for unknown formats)
    as they were: the records carry the texts without the newline, in
    order, numbered from 1; blank lines and spaces are kept. *)
Theorem lines_round_trip self fs σ h o ls fmt :
  fmt = "text" \/ fmt = "log" \/ fmt = "unknown" ->
  f_closed (file_at σ h) = false ->
  f_lines (file_at σ h) = lines_of (written ls) ->
  Forall (fun l => LF ∉ Text.chars l) ls ->
  exists σ',
    parse self fs σ (Stream h) (Some fmt) o false
      = Some (Ok (Eager (imap (fun i t => numbered (S i) t) ls)), σ').
Proof.
  intros Hf Hc Hl Hall.
  assert (exists d, (d = _parse_text \/ d = _parse_unknown)
                    /\ lookup_parser (resolve_format σ (Stream h) (Some fmt)) parser_map = Some d)
    as (d & Hd & Hlook).
  { destruct Hf as [->|[->| ->]]; eauto. }
  unfold parse, acquire, release, close_after. rewrite Hlook.
  destruct (list_gen_lines d h o σ Hd Hc) as [σ' ->]. exists σ'. do 4 f_equal.
  rewrite Hl, lines_of_written by done. unfold line_records.
  change (map (fun l => l +:+ String LF "") ls) with ((fun l => l +:+ String LF "") <$> ls).
  rewrite imap_fmap. apply imap_ext. intros i l Hi. simpl.
  unfold line_record, numbered. rewrite rstrip_nl_line; [reflexivity|].
  eapply Forall_lookup_1 in Hall; eauto.
Qed.

End LinesRoundTrip.

(** ** Sources of unknown format *)

Section UnknownFormat.
Context {L : FP.StdLib}.
Import Py IO FP Spec Behaviour.

Lemma split_lines_unended p : forall cur,
  LF ∉ p ->
  split_lines cur p = match rev cur ++ p with [] => [] | l => [Text.str l] end.
Proof.
  induction p as [|c p IH]; intros cur Hn; cbn [split_lines].
  - rewrite app_nil_r. destruct cur as [|c cur]; [reflexivity|].
    cbn [rev]. by destruct (rev cur).
  - apply not_elem_of_cons in Hn as [Hne Hn].
    rewrite is_nl_LF, bool_decide_eq_false_2 by congruence.
    rewrite IH by done. cbn [rev]. by rewrite <- app_assoc.
Qed.

Lemma chars_written_cons l ls :
  Text.chars (written (l :: ls)) = Text.chars l ++ LF :: Text.chars (written ls).
Proof.
  unfold written. simpl. destruct (map _ ls) eqn:E.
  - rewrite chars_app. reflexivity.
  - rewrite !chars_app. simpl. by rewrite <- app_assoc.
Qed.

(** Every text is a run of lines ended by a newline and a rest without
    one; iterating over it gives these lines and, when it is not empty,
    the rest. *)
Lemma lines_of_text ls rest :
  Forall (fun l => LF ∉ Text.chars l) ls ->
  LF ∉ Text.chars rest ->
  lines_of (written ls +:+ rest) = map (fun l => l +:+ String LF "") ls ++ unended rest.
Proof.
  intros Hls Hrest. unfold lines_of. induction Hls as [|l ls Hl _ IH].
  - change (written []) with "". rewrite chars_app. cbn [Text.chars list_ascii_of_string app map].
    change (list_ascii_of_string rest) with (Text.chars rest).
    rewrite split_lines_unended by done. cbn [rev app]. unfold unended.
    destruct (Text.chars rest) as [|c r] eqn:E.
    + rewrite bool_decide_eq_true_2; [reflexivity|]. by rewrite <- (str_chars rest), E.
    + rewrite bool_decide_eq_false_2.
      * by rewrite <- E, str_chars.
      * intros ->. discriminate.
  - rewrite chars_app, chars_written_cons, <- app_assoc. cbn [app].
    rewrite split_lines_line by done. rewrite <- chars_app, IH. cbn [map app rev].
    by rewrite str_app, str_chars.
Qed.

Lemma rstrip_nl_unended rest : LF ∉ Text.chars rest -> Text.rstrip_nl rest = rest.
Proof.
  intros Hn. unfold Text.rstrip_nl.
  assert (Text.drop_while Text.is_nl (rev (Text.chars rest)) = rev (Text.chars rest)) as ->.
  { destruct (rev (Text.chars rest)) as [|c r] eqn:E; [reflexivity|].
    apply drop_while_head. rewrite is_nl_LF. apply bool_decide_eq_false_2. intros ->.
    apply Hn. apply list_elem_of_In, in_rev. rewrite E. left. reflexivity. }
  by rewrite rev_involutive, str_chars.
Qed.

Lemma line_records_text ls rest :
  Forall (fun l => LF ∉ Text.chars l) ls ->
  LF ∉ Text.chars rest ->
  line_records (map (fun l => l +:+ String LF "") ls ++ unended rest)
    = imap (fun i t => numbered (S i) t) (ls ++ unended rest).
Proof.
  intros Hls Hrest. unfold line_records. rewrite !imap_app. f_equal.
  - change (map (fun l => l +:+ String LF "") ls) with ((fun l => l +:+ String LF "") <$> ls).
    rewrite imap_fmap. apply imap_ext. intros i l Hi. simpl.
    unfold line_record, numbered. rewrite rstrip_nl_line; [reflexivity|].
    eapply Forall_lookup_1 in Hls; eauto.
  - rewrite length_map. apply imap_ext. intros i l Hi. simpl.
    unfold unended in Hi. destruct (bool_decide (rest = "")); [discriminate|].
    destruct i; [|discriminate]. injection Hi as <-.
    unfold line_record, numbered. by rewrite rstrip_nl_unended.
Qed.

(** C10. When no format is given and the resolver answers "unknown", the
    tag is in the registry and selects [_parse_unknown]: the source is
    not rejected. The records the claim describes are obtained when the
    file is read while it is open. With [stream=False], for a path and
    for a stream: the text of the file being the lines [ls], each ended
    by a newline, and a rest without one, the call returns the records
    {line_no: i, text: l} of these lines and of the rest when it is not
    empty, numbered from 1, blank lines included; the format "text"
    returns the same. With [stream=True] the call returns the generator
    of [_parse_unknown]; for a stream its consumer collects these
    records; for a path, which is the default call, the file is closed
    before the generator runs: its first [next] raises [ValueError] and
    no record is obtained. *)
Theorem unknown_format_decodes_lines self fs σ path o h σ1 ls rest :
  resolve_format σ path None = "unknown" ->
  acquire self fs σ path = (Ok h, σ1) ->
  f_closed (file_at σ1 h) = false ->
  f_lines (file_at σ1 h) = lines_of (written ls +:+ rest) ->
  Forall (fun l => LF ∉ Text.chars l) ls ->
  LF ∉ Text.chars rest ->
  let records := imap (fun i t => numbered (S i) t) (ls ++ unended rest) in
  lookup_parser "unknown" parser_map = Some _parse_unknown
  /\ (exists σ', parse self fs σ path None o false = Some (Ok (Eager records), σ'))
  /\ (exists σ', parse self fs σ path (Some "text") o false = Some (Ok (Eager records), σ'))
  /\ parse self fs σ path None o true
     = Some (Ok (Lazy (GNew _parse_unknown h o)), release path σ1 h)
  /\ match path with
     | Stream _ =>
         exists σ', consumes (GNew _parse_unknown h o) (release path σ1 h) records
                      StopIteration σ'
     | Path _ =>
         exists msg, next (GNew _parse_unknown h o) (release path σ1 h)
                     = (Error (ValueError msg), GDone, release path σ1 h)
     end.
Proof.
  intros Hf Ha Hc Hl Hls Hrest records.
  assert (line_records (f_lines (file_at σ1 h)) = records) as Hrec.
  { rewrite Hl, lines_of_text by done. by apply line_records_text. }
  destruct (list_gen_lines _parse_unknown h o σ1 (or_intror eq_refl) Hc) as [σ' Hu].
  destruct (list_gen_lines _parse_text h o σ1 (or_introl eq_refl) Hc) as [σ'' Ht].
  rewrite Hrec in Hu, Ht.
  split; [reflexivity|].
  unfold parse. rewrite Hf. change (resolve_format σ path (Some "text")) with "text".
  change (lookup_parser "unknown" parser_map) with (Some _parse_unknown).
  change (lookup_parser "text" parser_map) with (Some _parse_text).
  rewrite Ha, Hu, Ht.
  split; [eauto|]. split; [eauto|]. split; [reflexivity|].
  destruct path as [p|h0].
  - unfold release, close_after.
    destruct (start_closed _parse_unknown h o (close σ1 h) (closed_close σ1 h)) as [msg Hs].
    exists msg. unfold next. by rewrite Hs.
  - unfold release, close_after. exists σ'.
    by apply (list_gen_consumes (GNew _parse_unknown h o) σ1 (Ok records) σ').
Qed.

End UnknownFormat.

(** ** Fixed-width: repeated names, and rows written and read back *)

Section FixedWidthMore.
Import Py IO FP Spec Behaviour.
Local Open Scope Z_scope.

(** X10. In a fixed-width record, a name that the schema repeats holds
    the slice of its last column, the earlier ones are overwritten; and
    the field "_line_no" always holds the line number, also when the
    schema has a column of that name. No hypothesis on the widths or on
    the line is needed. *)
Theorem fixed_width_repeated_names schema (line_no : nat) line :
  let names := map fst schema in
  let widths := map snd schema in
  let raw := Text.ljust (Text.rstrip_nl line) (sum widths) in
  let rec := fixed_record names widths (sum widths) line_no line in
  dict_get (KStr "_line_no") rec = Some (VInt (Z.of_nat line_no))
  /\ (forall k name w,
        schema !! k = Some (name, w) ->
        name ∉ map fst (drop (S k) schema) ->
        name <> "_line_no" ->
        dict_get (KStr name) rec =
          Some (VStr (Text.strip (Text.slice raw (sum (take k widths))
                                                 (sum (take k widths) + w))))).
Proof.
  intros names widths raw rec. split.
  - apply dict_get_set_eq.
  - intros k name w Hk Hlast Hne. unfold rec, fixed_record.
    rewrite dict_get_set_ne by congruence.
    unfold names, widths. rewrite !map_fmap, zip_fst_snd.
    rewrite (fixed_fields_last _ _ 0 [] k name w Hk Hlast). by rewrite !Z.add_0_l.
Qed.






End FixedWidthMore.

(** ** Line-delimited JSON *)

Section Ndjson.
Context {L : FP.StdLib}.
Import Py IO FP Spec Behaviour.

Lemma set_lines_set_lines (σ : heap) h ls ls' :
  set_lines (set_lines σ h ls) h ls' = set_lines σ h ls'.
Proof.
  destruct (σ !! h) as [f|] eqn:Hf.
  - unfold set_lines at 1. rewrite (lookup_set_lines_eq _ _ ls _ Hf). simpl.
    unfold set_lines. rewrite Hf. apply list_insert_insert_eq.
  - unfold set_lines. by rewrite Hf, Hf.
Qed.




End Ndjson.

(** ** Whole documents: JSON and XML *)

Section Documents.
Context {L : FP.StdLib}.
Import Py IO FP Spec Behaviour.




End Documents.

(** ** XML: repeated tags *)

Section XmlRepeated.
Import Py IO FP Spec Behaviour.

Lemma gathered_snoc vs v :
  Forall scalar vs ->
  match gathered vs with
  | Some (VList l) => Some (VList (l ++ [v]))
  | Some v0 => Some (VList [v0; v])
  | None => Some v
  end = gathered (vs ++ [v]).
Proof.
  intros Hs. destruct vs as [|v0 [|v1 vs]]; simpl; try reflexivity.
  apply Forall_cons in Hs as [H0 _]. destruct v0; try reflexivity. by destruct (H0 items).
Qed.

Lemma xml_sub_get rec sub t vs :
  dict_get (KStr t) rec = gathered vs -> Forall scalar vs ->
  dict_get (KStr t) (xml_sub rec sub)
    = gathered (vs ++ (if decide (tag sub = t) then [text_value (text sub)] else [])).
Proof.
  intros Hg Hs. unfold xml_sub. destruct (decide (tag sub = t)) as [->|Hne].
  - rewrite Hg, <- (gathered_snoc vs _ Hs).
    destruct (gathered vs) as [[]|]; by rewrite dict_get_set_eq.
  - rewrite app_nil_r, <- Hg.
    destruct (dict_get (KStr (tag sub)) rec) as [[]|]; apply dict_get_set_ne; congruence.
Qed.

Lemma scalar_text_value t : scalar (text_value t).
Proof. by destruct t. Qed.

Lemma foldl_xml_sub_get t subs : forall rec vs,
  dict_get (KStr t) rec = gathered vs -> Forall scalar vs ->
  dict_get (KStr t) (foldl xml_sub rec subs)
    = gathered (vs ++ map (fun s => text_value (text s)) (filter (fun s => tag s = t) subs)).
Proof.
  induction subs as [|sub subs IH]; intros rec vs Hg Hs; cbn [foldl].
  - by rewrite filter_nil, app_nil_r.
  - rewrite (IH _ _ (xml_sub_get rec sub t vs Hg Hs)).
    + rewrite filter_cons. destruct (decide (tag sub = t)).
      * by rewrite <- app_assoc.
      * by rewrite app_nil_r.
    + apply Forall_app. split; [done|].
      destruct (decide _); [|done]. apply Forall_singleton, scalar_text_value.
Qed.

Lemma dict_set_not_nil k v d : dict_set k v d <> [].
Proof. destruct d as [|[k' v'] d]; simpl; [done|]. by destruct (decide _). Qed.

Lemma dict_update_not_nil pairs : forall d, d <> [] \/ pairs <> [] -> dict_update d pairs <> [].
Proof.
  unfold dict_update. induction pairs as [|[k v] pairs IH]; intros d Hd; simpl.
  - by destruct Hd.
  - apply IH. left. apply dict_set_not_nil.
Qed.

Lemma foldl_xml_sub_not_nil subs : forall rec, rec <> [] \/ subs <> [] -> foldl xml_sub rec subs <> [].
Proof.
  induction subs as [|sub subs IH]; intros rec Hd; simpl.
  - by destruct Hd.
  - apply IH. left. unfold xml_sub.
    destruct (dict_get _ rec) as [[]|]; apply dict_set_not_nil.
Qed.

Lemma dict_update_scalar pairs k : forall d v,
  (forall v0, dict_get k d = Some v0 -> scalar v0) ->
  Forall (fun kv => scalar kv.2) pairs ->
  dict_get k (dict_update d pairs) = Some v -> scalar v.
Proof.
  unfold dict_update. induction pairs as [|[k0 v0] pairs IH]; intros d v Hd Hall; simpl.
  - apply Hd.
  - apply Forall_cons in Hall as [H0 Hall]. apply IH; [|done].
    intros v1. destruct (decide (k0 = k)) as [->|Hne].
    + rewrite dict_get_set_eq. by intros [= <-].
    + rewrite dict_get_set_ne by done. apply Hd.
Qed.

(** X14. Repeated tags in an XML record. For a child of the root that
    has an attribute or a sub-element, the record holds under every name
    the values gathered for it: the attribute of that name, then the
    texts of the sub-elements with that tag in document order; a single
    value is stored as it is, two or more as a list, and a name with no
    value is absent. So a tag that occurs once gives a string, one that
    occurs twice a list, and a sub-element named like an attribute turns
    the attribute into the first item of a list. *)
Theorem xml_repeated_tags child t :
  attrib child <> [] \/ children child <> [] ->
  dict_get (KStr t) (xml_record child) = gathered (xml_values child t).
Proof.
  intros Hne. unfold xml_record, xml_values.
  set (attrs := map (fun kv => (KStr kv.1, VStr kv.2)) (attrib child)).
  set (rec := foldl xml_sub (dict_update [] attrs) (children child)).
  assert (rec <> []) as Hrec.
  { apply foldl_xml_sub_not_nil. destruct Hne as [Ha|Hc]; [left|by right].
    apply dict_update_not_nil. right. unfold attrs. by destruct (attrib child). }
  assert (dict_get (KStr t) rec = gathered (xml_values child t)) as Hget.
  { unfold rec, xml_values. fold attrs. apply foldl_xml_sub_get.
    - unfold dict_of. by destruct (dict_get (KStr t) (dict_update [] attrs)).
    - unfold dict_of. destruct (dict_get (KStr t) (dict_update [] attrs)) as [v|] eqn:E; [|done].
      apply Forall_singleton. eapply dict_update_scalar; [| |exact E].
      + intros v0. discriminate.
      + unfold attrs. apply Forall_forall. intros [k v0] Hin.
        apply list_elem_of_fmap in Hin as ([a b] & [= -> ->] & _). done. }
  destruct rec as [|kv rec0]; [done|]. exact Hget.
Qed.

End XmlRepeated.

(** ** INI: the section name among the options *)

Section IniSection.
Import Py IO FP Spec Behaviour.

Lemma dict_update_get_other pairs k : forall d,
  k ∉ map fst pairs -> dict_get k (dict_update d pairs) = dict_get k d.
Proof.
  unfold dict_update. induction pairs as [|[k0 v0] pairs IH]; intros d Hk; simpl; [reflexivity|].
  simpl in Hk. apply not_elem_of_cons in Hk as [Hne Hk].
  rewrite IH by done. by apply dict_get_set_ne.
Qed.

Lemma dict_update_get pairs k v : forall d,
  NoDup (map fst pairs) -> (k, v) ∈ pairs -> dict_get k (dict_update d pairs) = Some v.
Proof.
  induction pairs as [|[k0 v0] pairs IH]; intros d Hnd Hin; [by apply elem_of_nil in Hin|].
  simpl in Hnd. apply NoDup_cons in Hnd as [Hk0 Hnd].
  apply elem_of_cons in Hin as [[= -> ->]|Hin].
  - change (dict_update d ((k0, v0) :: pairs)) with (dict_update (dict_set k0 v0 d) pairs).
    rewrite dict_update_get_other by done. apply dict_get_set_eq.
  - change (dict_update d ((k0, v0) :: pairs)) with (dict_update (dict_set k0 v0 d) pairs).
    by apply IH.
Qed.

(** X15. The record of an INI section. Its first field is "__section__",
    and every option of the section is a field with its value. The
    field "__section__" holds the section name exactly when the section
    has no option called "__section__": such an option takes the place
    of the name. When there is none, the fields are "__section__"
    followed by the options in their order. *)
Theorem ini_section_name name items :
  NoDup (map fst items) ->
  let rec := ini_record name items in
  head (keys rec) = Some (KStr "__section__")
  /\ (forall k v, (k, v) ∈ items -> dict_get (KStr k) rec = Some (VStr v))
  /\ ("__section__" ∉ map fst items ->
        dict_get (KStr "__section__") rec = Some (VStr name)
        /\ keys rec = KStr "__section__" :: map KStr (map fst items)).
Proof.
  intros Hnd rec. unfold rec, ini_record.
  set (pairs := map (fun kv => (KStr kv.1, VStr kv.2)) items).
  assert (map fst pairs = map KStr (map fst items)) as Hfst.
  { unfold pairs. rewrite !map_map. reflexivity. }
  assert (NoDup (map fst pairs)) as Hnd'.
  { rewrite Hfst. by apply (NoDup_fmap_2 KStr). }
  split; [|split].
  - rewrite keys_dict_update. simpl. generalize (map fst pairs). intros ks.
    assert (forall acc, head (foldl add_key (KStr "__section__" :: acc) ks)
                        = Some (KStr "__section__")) as H; [|apply (H [])].
    induction ks as [|k ks IH]; intros acc; simpl; [reflexivity|].
    unfold add_key at 2. destruct (bool_decide _); [apply IH|]. apply (IH (acc ++ [k])).
  - intros k v Hin. apply dict_update_get; [done|].
    unfold pairs. apply list_elem_of_fmap. by exists (k, v).
  - intros Hno.
    assert (KStr "__section__" ∉ map fst pairs) as Hno'.
    { rewrite Hfst. intros Hin. by apply (list_elem_of_fmap_inj_2 KStr) in Hin. }
    split.
    + rewrite dict_update_get_other by done. reflexivity.
    + rewrite keys_dict_update. simpl. rewrite <- Hfst.
      apply (foldl_add_key_NoDup (map fst pairs) [KStr "__section__"]).
      simpl. apply NoDup_cons. by split.
Qed.

End IniSection.

(** ** Delimited files written and read back *)

Section DelimitedRoundTrip.
Context {L : FP.StdLib}.
Import Py IO FP Spec Behaviour Csv.

Lemma plain_char_spec d c :
  plain_char d c = true ->
  c <> d /\ c <> quotechar /\ is_crnl c = false.
Proof.
  unfold plain_char. rewrite !andb_true_iff, !negb_true_iff.
  intros [[[H1 H2] H3] _]. apply bool_decide_eq_false in H1, H2. done.
Qed.

Lemma usable_delimiter_spec d :
  usable_delimiter d = true ->
  d <> quotechar /\ is_crnl d = false /\ (Text.code d =? 0)%Z = false.
Proof.
  unfold usable_delimiter. rewrite !andb_true_iff, !negb_true_iff.
  intros [[H1 H2] H3]. apply bool_decide_eq_false in H1. done.
Qed.

Lemma is_crnl_LF : is_crnl LF = true.
Proof. reflexivity. Qed.

(** Plain characters inside a field are collected. *)
Lemma feed_in_field d cs : forall fs cur r,
  forallb (plain_char d) cs = true ->
  (Z.of_nat (length cur + length cs) <= field_limit)%Z ->
  feed d (mkparser IN_FIELD fs cur) (cs ++ r) = feed d (mkparser IN_FIELD fs (rev cs ++ cur)) r.
Proof.
  induction cs as [|c cs IH]; intros fs cur r Hp Hlen; [reflexivity|].
  cbn [forallb] in Hp. apply andb_true_iff in Hp as [Hc Hp].
  apply plain_char_spec in Hc as (Hd & Hq & Hn).
  cbn [app feed]. unfold parse_process_char. cbn [p_state].
  rewrite Hn, bool_decide_eq_false_2 by done.
  unfold parse_add_char. cbn [p_field p_state p_fields].
  assert ((field_limit <=? Z.of_nat (length cur))%Z = false) as ->.
  { apply Z.leb_gt. simpl in Hlen. lia. }
  rewrite IH; [|done|simpl in *; lia].
  cbn [rev]. by rewrite <- app_assoc.
Qed.

(** The first character of a field. *)
Lemma feed_first d s fs c r :
  s = START_RECORD \/ s = START_FIELD ->
  plain_char d c = true ->
  feed d (mkparser s fs []) (c :: r) = feed d (mkparser IN_FIELD fs [c]) r.
Proof.
  intros Hs Hc. apply plain_char_spec in Hc as (Hd & Hq & Hn).
  cbn [feed]. unfold parse_process_char. cbn [p_state].
  assert (start_field d (mkparser s fs []) (Some c) = Ok (mkparser IN_FIELD fs [c])) as Hsf.
  { unfold start_field. rewrite Hn, !bool_decide_eq_false_2 by done. reflexivity. }
  destruct Hs as [-> | ->]; [rewrite Hn|]; by rewrite Hsf.
Qed.

(** A plain field up to its delimiter. *)
Lemma feed_field_delimiter d s fs f r :
  s = START_RECORD \/ s = START_FIELD ->
  usable_delimiter d = true ->
  plain_field d f = true ->
  feed d (mkparser s fs []) (Text.chars f ++ d :: r) = feed d (mkparser START_FIELD (f :: fs) []) r.
Proof.
  intros Hs Hd Hf. apply usable_delimiter_spec in Hd as (Hq & Hn & _).
  unfold plain_field in Hf. apply andb_true_iff in Hf as [Hp Hlen].
  apply Z.leb_le in Hlen. unfold Text.len in Hlen.
  rewrite <- (str_chars f) at 2. destruct (Text.chars f) as [|c cs].
  - cbn [app feed]. unfold parse_process_char. cbn [p_state].
    assert (start_field d (mkparser s fs []) (Some d) = Ok (mkparser START_FIELD ("" :: fs) []))
      as Hsf.
    { unfold start_field. rewrite Hn, bool_decide_eq_false_2, bool_decide_eq_true_2 by done.
      reflexivity. }
    destruct Hs as [-> | ->]; [rewrite Hn|]; by rewrite Hsf.
  - cbn [forallb] in Hp. apply andb_true_iff in Hp as [Hc Hp].
    cbn [app]. rewrite feed_first by done.
    rewrite feed_in_field; [|done|simpl in *; lia].
    cbn [feed]. unfold parse_process_char. cbn [p_state].
    rewrite Hn, bool_decide_eq_true_2 by done.
    unfold parse_save_field, set_state. cbn [p_field p_fields p_state].
    by rewrite rev_app_distr, rev_involutive.
Qed.

(** A plain field up to the end of its line. *)
Lemma feed_field_end d s fs f :
  s = START_FIELD \/ (s = START_RECORD /\ f <> "") ->
  plain_field d f = true ->
  feed d (mkparser s fs []) (Text.chars f ++ [LF]) = Ok (mkparser START_RECORD (f :: fs) []).
Proof.
  intros Hs Hf.
  unfold plain_field in Hf. apply andb_true_iff in Hf as [Hp Hlen].
  apply Z.leb_le in Hlen. unfold Text.len in Hlen.
  rewrite <- (str_chars f) at 2.
  assert (f <> "" -> Text.chars f <> []) as Hne.
  { intros H E. apply H. by rewrite <- (str_chars f), E. }
  destruct (Text.chars f) as [|c cs].
  - destruct Hs as [-> | [_ H]]; [reflexivity|]. by destruct (Hne H).
  - cbn [forallb] in Hp. apply andb_true_iff in Hp as [Hc Hp].
    cbn [app]. rewrite feed_first; [|destruct Hs as [-> | [-> _]]; auto|done].
    rewrite feed_in_field; [|done|simpl in *; lia].
    cbn [feed]. unfold parse_process_char. cbn [p_state]. rewrite is_crnl_LF.
    unfold parse_save_field, set_state. cbn [p_field p_fields p_state].
    by rewrite rev_app_distr, rev_involutive.
Qed.

Lemma chars_joined_cons d f f' fields :
  Text.chars (joined d (f :: f' :: fields))
    = Text.chars f ++ d :: Text.chars (joined d (f' :: fields)).
Proof.
  unfold joined. cbn [String.concat].
  change (f ++ String d "" ++ String.concat (String d "") (f' :: fields))%string
    with (f +:+ String d "" +:+ String.concat (String d "") (f' :: fields)).
  by rewrite !chars_app.
Qed.

(** A line of plain fields gives these fields. *)
Lemma feed_row d : forall fields s fs,
  usable_delimiter d = true ->
  fields <> [] ->
  forallb (plain_field d) fields = true ->
  s = START_FIELD \/ (s = START_RECORD /\ fields <> [""]) ->
  feed d (mkparser s fs []) (Text.chars (joined d fields) ++ [LF])
    = Ok (mkparser START_RECORD (rev fields ++ fs) []).
Proof.
  induction fields as [|f fields IH]; intros s fs Hd Hne Hp Hs; [done|].
  cbn [forallb] in Hp. apply andb_true_iff in Hp as [Hf Hp].
  destruct fields as [|f' fields].
  - change (joined d [f]) with f. rewrite feed_field_end; [reflexivity| |done].
    destruct Hs as [-> | [-> H]]; [by left|right]. split; [done|]. by intros ->.
  - rewrite chars_joined_cons, <- app_assoc. cbn [app].
    rewrite feed_field_delimiter; [|destruct Hs as [-> | [-> _]]; auto|done..].
    rewrite IH; [|done|done|done|by left].
    cbn [rev]. by rewrite <- !app_assoc.
Qed.

Lemma plain_row_spec d r :
  plain_row d r = true -> r <> [] /\ r <> [""] /\ forallb (plain_field d) r = true.
Proof.
  unfold plain_row. rewrite !andb_true_iff, !negb_true_iff.
  intros [[H1 H2] H3]. apply bool_decide_eq_false in H1, H2. done.
Qed.

(** [next(reader)] on a line of plain fields. *)
Lemma read_rows_plain skip d r lines n :
  usable_delimiter d = true ->
  plain_row d r = true ->
  read_rows skip d parse_reset ((joined d r +:+ String LF "") :: lines) n
    = (Ok (Some r), lines, S n).
Proof.
  intros Hd Hr. apply plain_row_spec in Hr as (Hne & Hne' & Hp).
  cbn [read_rows]. rewrite chars_app. change (Text.chars (String LF "")) with [LF].
  unfold parse_reset. rewrite feed_row by auto.
  cbn [p_state p_fields]. rewrite app_nil_r.
  rewrite bool_decide_eq_true_2 by done.
  assert (bool_decide (rev r = []) = false) as ->.
  { apply bool_decide_eq_false_2. intros E. apply Hne.
    by rewrite <- (rev_involutive r), E. }
  by rewrite andb_false_r, rev_involutive.
Qed.

(** The first [next] of a [DictReader] reads the header and goes on as
    a reader that has it. *)
Lemma DictReader_next_header d header lines :
  usable_delimiter d = true ->
  plain_row d header = true ->
  DictReader_next (new_DictReader d) ((joined d header +:+ String LF "") :: lines)
    = DictReader_next (mkDictReader d (Some header) 1 1) lines.
Proof.
  intros Hd Hh. unfold DictReader_next, new_DictReader, fieldnames, reader_next.
  cbn [line_num _fieldnames delimiter reader_line_num].
  rewrite bool_decide_eq_true_2 by done.
  rewrite read_rows_plain by done.
  by rewrite bool_decide_eq_false_2 by done.
Qed.

Lemma DictReader_next_plain d header ln rn r lines :
  usable_delimiter d = true ->
  plain_row d r = true ->
  ln <> 0 ->
  DictReader_next (mkDictReader d (Some header) ln rn) ((joined d r +:+ String LF "") :: lines)
    = (Ok (Some (row_dict header r)), mkDictReader d (Some header) (S rn) (S rn), lines).
Proof.
  intros Hd Hr Hln. unfold DictReader_next, reader_next.
  cbn [line_num _fieldnames delimiter reader_line_num].
  rewrite bool_decide_eq_false_2 by done.
  cbn [line_num _fieldnames delimiter reader_line_num].
  rewrite read_rows_plain by done.
  apply plain_row_spec in Hr as (Hne & _). by destruct r.
Qed.

Lemma DictReader_next_end d header ln rn :
  ln <> 0 ->
  DictReader_next (mkDictReader d (Some header) ln rn) []
    = (Ok None, mkDictReader d (Some header) ln rn, []).
Proof.
  intros Hln. unfold DictReader_next, reader_next.
  cbn [line_num _fieldnames delimiter reader_line_num].
  by rewrite bool_decide_eq_false_2 by done.
Qed.

Lemma drain_csv h d header rows : forall fuel σ acc ln rn,
  usable_delimiter d = true ->
  ln <> 0 ->
  f_closed (file_at σ h) = false ->
  f_lines (file_at σ h) = map (fun r => joined d r +:+ String LF "") rows ->
  forallb (plain_row d) rows = true ->
  length rows < fuel ->
  drain fuel (RCsv h (mkDictReader d (Some header) ln rn)) σ acc
    = Some (Ok (rev acc ++ map (row_dict header) rows), set_lines σ h []).
Proof.
  induction rows as [|r rows IH]; intros fuel σ acc ln rn Hd Hln Hc Hl Hp Hlt;
    (destruct fuel as [|fuel]; [simpl in Hlt; lia|]); cbn [drain step]; rewrite Hc, Hl.
  - cbn [map]. rewrite DictReader_next_end by done. by rewrite app_nil_r.
  - cbn [forallb] in Hp. apply andb_true_iff in Hp as [Hr Hp].
    cbn [map]. rewrite DictReader_next_plain by done.
    rewrite IH; try done.
    + rewrite set_lines_set_lines. cbn [rev]. by rewrite <- app_assoc.
    + by rewrite closed_set_lines.
    + apply lines_set_lines. by apply open_is_allocated.
    + simpl in Hlt. lia.
Qed.

Lemma LF_not_in_joined d r :
  usable_delimiter d = true -> forallb (plain_field d) r = true ->
  LF ∉ Text.chars (joined d r).
Proof.
  intros Hd Hp. apply usable_delimiter_spec in Hd as (_ & Hn & _).
  assert (forall f, plain_field d f = true -> LF ∉ Text.chars f) as Hfield.
  { intros f Hf Hin. unfold plain_field in Hf. apply andb_true_iff in Hf as [Hf _].
    rewrite forallb_forall in Hf. apply list_elem_of_In, Hf, plain_char_spec in Hin.
    destruct Hin as (_ & _ & Hin). by rewrite is_crnl_LF in Hin. }
  induction r as [|f r IH]; [apply not_elem_of_nil|].
  cbn [forallb] in Hp. apply andb_true_iff in Hp as [Hf Hp].
  destruct r as [|f' r]; [by apply Hfield|].
  rewrite chars_joined_cons. rewrite elem_of_app, elem_of_cons.
  intros [Hin|[E|Hin]].
  - by apply (Hfield f).
  - rewrite <- E, is_crnl_LF in Hn. discriminate.
  - by apply IH.
Qed.

(** X16. Delimited files round-trip. A header and rows whose fields
    need no quoting (no delimiter, quote, line end or NUL in them, none
    longer than the field limit, no row that is a single empty field),
    written one per line with the fields joined by the delimiter, are
    read back from an open stream as one record per row: the header
    paired with the fields of the row (a short row filled with [None],
    the rest of a long row under the key [None]). This holds for "csv"
    with its delimiter option (a comma when absent) and for "tsv" with a
    tab; the whole file is read. *)
Theorem delimited_round_trip self fs σ h o fmt d header rows :
  (fmt = "csv" /\ default "," (csv_delimiter o) = String d "")
    \/ (fmt = "tsv" /\ d = "009"%char) ->
  usable_delimiter d = true ->
  forallb (plain_row d) (header :: rows) = true ->
  f_closed (file_at σ h) = false ->
  f_lines (file_at σ h) = lines_of (written (map (joined d) (header :: rows))) ->
  parse self fs σ (Stream h) (Some fmt) o false
    = Some (Ok (Eager (map (row_dict header) rows)), set_lines σ h []).
Proof.
  intros Hf Hd Hp Hc Hl.
  assert (f_lines (file_at σ h)
          = map (fun r => joined d r +:+ String LF "") (header :: rows)) as Hl'.
  { rewrite Hl, lines_of_written, map_map; [reflexivity|].
    apply Forall_forall. intros l Hin. apply list_elem_of_fmap in Hin as (r & -> & Hin).
    apply LF_not_in_joined; [done|].
    rewrite forallb_forall in Hp. apply list_elem_of_In, Hp in Hin.
    by apply plain_row_spec in Hin as (_ & _ & Hin). }
  cbn [forallb] in Hp. apply andb_true_iff in Hp as [Hh Hp].
  assert (exists dec, lookup_parser (resolve_format σ (Stream h) (Some fmt)) parser_map = Some dec
            /\ start dec h o σ = (Ok (RCsv h (new_DictReader d)), σ)) as (dec & Hlook & Hstart).
  { destruct Hf as [[-> Ho] | [-> ->]].
    - exists _parse_csv. split; [reflexivity|]. unfold start, iter_file. rewrite Hc, Ho.
      reflexivity.
    - exists _parse_tsv. split; [reflexivity|]. unfold start, iter_file. by rewrite Hc. }
  unfold parse, acquire, release, close_after. rewrite Hlook.
  unfold list_gen. rewrite Hstart.
  assert (forall fuel, drain (S fuel) (RCsv h (new_DictReader d)) σ []
            = drain (S fuel) (RCsv h (mkDictReader d (Some header) 1 1))
                    (set_lines σ h (map (fun r => joined d r +:+ String LF "") rows)) []) as ->.
  { intros fuel. cbn [drain step]. rewrite closed_set_lines, Hc, Hl'.
    rewrite lines_set_lines by by apply open_is_allocated.
    cbn [map]. rewrite DictReader_next_header by done.
    destruct (DictReader_next _ _) as [[[[rec|]|e] dr'] rest];
      by rewrite set_lines_set_lines. }
  rewrite (drain_csv h d header rows); try done.
  - by rewrite set_lines_set_lines.
  - by rewrite closed_set_lines.
  - apply lines_set_lines. by apply open_is_allocated.
  - cbn [size]. rewrite Hl'. cbn [map length]. rewrite length_map. lia.
Qed.

End DelimitedRoundTrip.

(** ** The keyword arguments of the decoders *)

Section Options.
Context {L : FP.StdLib}.
Import Py IO FP Spec Behaviour.

Lemma decoder_csv_format fmt :
  lookup_parser fmt parser_map = Some _parse_csv -> fmt = "csv".
Proof.
  unfold parser_map. cbn [lookup_parser].
  repeat (case_bool_decide; [intros [=]; try done|]). done.
Qed.

Lemma decoder_fixed_format fmt :
  lookup_parser fmt parser_map = Some _parse_fixed_width -> fmt = "fixed".
Proof.
  unfold parser_map. cbn [lookup_parser].
  repeat (case_bool_decide; [intros [=]; try done|]). done.
Qed.


(** X17. A delimiter that is not one character. With the format "csv"
    and an open stream, the call with [stream=False] raises [TypeError]
    and reads nothing; with [stream=True] the call returns a generator
    and the error is raised by its first [next]. *)
Theorem invalid_delimiter self fs σ h o s :
  csv_delimiter o = Some s ->
  Text.len s <> 1%Z ->
  f_closed (file_at σ h) = false ->
  parse self fs σ (Stream h) (Some "csv") o false = Some (Raise Csv.delimiter_error, σ)
  /\ exists g, parse self fs σ (Stream h) (Some "csv") o true = Some (Ok (Lazy g), σ)
               /\ next g σ = (Error Csv.delimiter_error, GDone, σ).
Proof.
  intros Ho Hs Hc.
  assert (start _parse_csv h o σ = (Raise Csv.delimiter_error, σ)) as Hstart.
  { unfold start, iter_file. rewrite Hc, Ho. cbn [default].
    by rewrite check_delimiter_length. }
  split.
  - unfold parse, acquire, release, close_after.
    change (lookup_parser _ parser_map) with (Some _parse_csv).
    unfold list_gen. by rewrite Hstart.
  - eexists. split; [reflexivity|]. unfold next. by rewrite Hstart.
Qed.

(** X18. Keyword arguments that a decoder does not read have no effect
    on the records: for every format but "csv" the delimiter option, and
    for every format but "fixed" the schema, can be changed without
    changing what [parse] returns with [stream=False], for a path and
    for a stream alike. *)
Theorem unused_options self fs σ path fmt o o' :
  let f := resolve_format σ path fmt in
  (f <> "csv" /\ fixed_schema o = fixed_schema o')
    \/ (f <> "fixed" /\ csv_delimiter o = csv_delimiter o') ->
  parse self fs σ path fmt o false = parse self fs σ path fmt o' false.
Proof.
  intros f Hf. unfold parse. fold f.
  destruct (lookup_parser f parser_map) as [d|] eqn:Hd; [|reflexivity].
  destruct (acquire self fs σ path) as [[fh|e] σ1]; [|reflexivity].
  assert (start d fh o σ1 = start d fh o' σ1) as Hs.
  { destruct Hf as [[Hne Ho] | [Hne Ho]].
    - destruct d; try reflexivity.
      + by apply decoder_csv_format in Hd.
      + unfold start. by rewrite Ho.
    - destruct d; try reflexivity.
      + unfold start. by rewrite Ho.
      + by apply decoder_fixed_format in Hd. }
  unfold list_gen. by rewrite Hs.
Qed.

End Options.

(** ** The further properties on sample inputs *)

Section Instances.
Import Py IO FP Behaviour.

Lemma stream_modes_agree_witness :
  Inputs.two_lines = Inputs.two_lines
  /\ (forall l σ',
        parse (L:=python) Sample.self Sample.fs Inputs.two_lines (Stream 0) (Some "text")
          Sample.no_options false = Some (Ok (Eager l), σ')
        <-> consumes (L:=python) (GNew _parse_text 0 Sample.no_options) Inputs.two_lines l
              StopIteration σ')
  /\ (forall e σ',
        parse (L:=python) Sample.self Sample.fs Inputs.two_lines (Stream 0) (Some "text")
          Sample.no_options false = Some (Raise e, σ')
        <-> exists l, consumes (L:=python) (GNew _parse_text 0 Sample.no_options)
                        Inputs.two_lines l (Error e) σ').
Proof.
  assert (parse (L:=python) Sample.self Sample.fs Inputs.two_lines (Stream 0) (Some "text")
            Sample.no_options true
          = Some (Ok (Lazy (GNew _parse_text 0 Sample.no_options)), Inputs.two_lines)) as H
    by (vm_compute; reflexivity).
  exact (stream_modes_agree (L:=python) _ _ _ _ _ _ _ _ H).
Defined.

Lemma main_streaming_prints_nothing_witness :
  exists out fin σ',
    Cli.main (L:=python) Inputs.plain_call Sample.fs [] = Some (out, fin, σ')
    /\ ((out = [Cli.Stderr Cli.usage_error] /\ fin = Cli.Returned (Some 2%Z) /\ σ' = [])
        \/ (out = [] /\ exists e, fin = Cli.Uncaught e)).
Proof.
  assert (Cli.stream Inputs.plain_call = true) as H by reflexivity.
  exact (main_streaming_prints_nothing (L:=python) Inputs.plain_call Sample.fs [] H).
Defined.

Lemma schema_argument_errors_witness :
  Cli.main (L:=python) Inputs.bad_schema_call Sample.fs []
    = Some ([Cli.Stderr Cli.usage_error], Cli.Returned (Some 2%Z), []).
Proof.
  assert (Cli.given (Cli.fixed_schema Inputs.bad_schema_call) = true) as H1 by reflexivity.
  assert (Cli.split (default "" (Cli.fixed_schema Inputs.bad_schema_call)) ","%char
          = ["name:4"] ++ "age" :: []) as H2 by (vm_compute; reflexivity).
  assert (Forall2 (fun part item => convert_part part = Some item) ["name:4"] [("name", 4%Z)])
    as H3 by (apply Forall2_cons; split; [vm_compute; reflexivity | apply Forall2_nil_2]).
  assert (":"%char ∉ Text.chars "age") as H4 by decided.
  exact (proj1 (schema_argument_errors (L:=python) Inputs.bad_schema_call Sample.fs []
                  _ _ _ _ H1 H2 H3) H4).
Defined.


Lemma closed_stream_raises_witness :
  exists d msg,
    parse (L:=python) Sample.self Sample.fs Inputs.closed_stream (Stream 0) (Some "csv")
      Sample.no_options false = Some (Raise (ValueError msg), Inputs.closed_stream)
    /\ parse (L:=python) Sample.self Sample.fs Inputs.closed_stream (Stream 0) (Some "csv")
         Sample.no_options true
       = Some (Ok (Lazy (GNew d 0 Sample.no_options)), Inputs.closed_stream)
    /\ next (L:=python) (GNew d 0 Sample.no_options) Inputs.closed_stream
       = (Error (ValueError msg), GDone, Inputs.closed_stream).
Proof.
  assert (resolve_format Inputs.closed_stream (Stream 0) (Some "csv") ∈ Spec.registered) as H1
    by decided.
  assert (f_closed (file_at Inputs.closed_stream 0) = true) as H2 by reflexivity.
  exact (closed_stream_raises (L:=python) Sample.self Sample.fs Inputs.closed_stream 0
           (Some "csv") Sample.no_options H1 H2).
Defined.

Lemma open_failures_witness :
  parse (L:=python) Sample.self Sample.fs [] (Path "missing.csv") None Sample.no_options false
    = Some (Raise (OSError "No such file or directory"), []).
Proof.
  assert (resolve_format [] (Path "missing.csv") None ∈ Spec.registered) as H1 by decided.
  assert (Sample.fs "missing.csv" "utf-8" = Fails (FileError "No such file or directory"))
    as H2 by (vm_compute; reflexivity).
  exact (proj1 (proj2 (open_failures (L:=python) Sample.self Sample.fs [] "missing.csv"))
           None Sample.no_options false _ H1 H2).
Defined.

Lemma guess_format_of_extension_witness : _guess_format "dir/Data.CSV" = "csv".
Proof.
  assert (Text.chars "dir/" = [] \/ exists d', Text.chars "dir/" = d' ++ ["/"%char]) as H1
    by (right; exists (Text.chars "dir"); reflexivity).
  assert ("/"%char ∉ Text.chars "Data") as H2 by decided.
  assert (exists c, c ∈ Text.chars "Data" /\ c <> "."%char) as H3
    by (exists "D"%char; split; [decided|discriminate]).
  assert ("/"%char ∉ Text.chars "CSV") as H4 by decided.
  assert ("."%char ∉ Text.chars "CSV") as H5 by decided.
  assert (Text.lower (Text.str ("."%char :: Text.chars "CSV")) = ".csv") as H6
    by (vm_compute; reflexivity).
  assert ((".csv", "csv") ∈ Spec.extension_table) as H7 by decided.
  exact (guess_format_of_extension _ _ _ _ _ H1 H2 H3 H4 H5 H6 H7).
Defined.

Lemma guess_format_without_extension_witness : _guess_format "v1.2/.csv" = "unknown".
Proof.
  assert (Text.chars "v1.2/" = [] \/ exists d', Text.chars "v1.2/" = d' ++ ["/"%char]) as H1
    by (right; exists (Text.chars "v1.2"); reflexivity).
  assert (Forall (fun c => c = "."%char) ["."%char]) as H2
    by (apply Forall_singleton; reflexivity).
  assert ("/"%char ∉ Text.chars "csv") as H3 by decided.
  assert ("."%char ∉ Text.chars "csv") as H4 by decided.
  exact (guess_format_without_extension _ _ _ H1 H2 H3 H4).
Defined.

Lemma lines_round_trip_witness :
  exists σ',
    parse (L:=python) Sample.self Sample.fs Inputs.two_lines (Stream 0) (Some "text")
      Sample.no_options false
    = Some (Ok (Eager (imap (fun i t => numbered (S i) t) ["a"; ""; " b "])), σ').
Proof.
  assert ("text" = "text" \/ "text" = "log" \/ "text" = "unknown") as H1 by (left; reflexivity).
  assert (f_closed (file_at Inputs.two_lines 0) = false) as H2 by reflexivity.
  assert (f_lines (file_at Inputs.two_lines 0) = lines_of (written ["a"; ""; " b "])) as H3
    by reflexivity.
  assert (Forall (fun l => LF ∉ Text.chars l) ["a"; ""; " b "]) as H4
    by (repeat (apply Forall_cons; split; [decided|]); apply Forall_nil_2).
  exact (lines_round_trip (L:=python) Sample.self Sample.fs Inputs.two_lines 0
           Sample.no_options _ _ H1 H2 H3 H4).
Defined.




Lemma xml_repeated_tags_witness :
  dict_get (KStr "y") (xml_record Inputs.repeated) = gathered (xml_values Inputs.repeated "y").
Proof.
  assert (attrib Inputs.repeated <> [] \/ children Inputs.repeated <> []) as H
    by (left; discriminate).
  exact (xml_repeated_tags Inputs.repeated "y" H).
Defined.

Lemma ini_section_name_witness :
  head (keys (ini_record "s" [("k", "v"); ("__section__", "other")]))
    = Some (KStr "__section__")
  /\ dict_get (KStr "__section__") (ini_record "s" [("k", "v"); ("__section__", "other")])
     = Some (VStr "other").
Proof.
  assert (NoDup (map fst [("k", "v"); ("__section__", "other")])) as H by decided.
  assert (("__section__", "other") ∈ [("k", "v"); ("__section__", "other")]) as Hin by decided.
  split.
  - exact (proj1 (ini_section_name "s" _ H)).
  - exact (proj1 (proj2 (ini_section_name "s" _ H)) _ _ Hin).
Defined.

Lemma delimited_round_trip_witness :
  parse (L:=python) Sample.self Sample.fs Inputs.table (Stream 0) (Some "csv")
    Inputs.semicolon false
  = Some (Ok (Eager (map (Csv.row_dict Inputs.header) Inputs.rows)),
          set_lines Inputs.table 0 []).
Proof.
  assert (("csv" = "csv" /\ default "," (csv_delimiter Inputs.semicolon) = String ";"%char "")
          \/ ("csv" = "tsv" /\ ";"%char = "009"%char)) as H1 by (left; split; reflexivity).
  assert (usable_delimiter ";"%char = true) as H2 by reflexivity.
  assert (forallb (plain_row ";"%char) (Inputs.header :: Inputs.rows) = true) as H3
    by (vm_compute; reflexivity).
  assert (f_closed (file_at Inputs.table 0) = false) as H4 by reflexivity.
  assert (f_lines (file_at Inputs.table 0)
          = lines_of (written (map (joined ";"%char) (Inputs.header :: Inputs.rows)))) as H5
    by reflexivity.
  exact (delimited_round_trip (L:=python) Sample.self Sample.fs Inputs.table 0
           Inputs.semicolon "csv" ";"%char Inputs.header Inputs.rows H1 H2 H3 H4 H5).
Defined.

Lemma invalid_delimiter_witness :
  parse (L:=python) Sample.self Sample.fs Inputs.two_lines (Stream 0) (Some "csv")
    (mkoptions (Some "ab") None) false
  = Some (Raise Csv.delimiter_error, Inputs.two_lines).
Proof.
  assert (csv_delimiter (mkoptions (Some "ab") None) = Some "ab") as H1 by reflexivity.
  assert (Text.len "ab" <> 1%Z) as H2 by (vm_compute; discriminate).
  assert (f_closed (file_at Inputs.two_lines 0) = false) as H3 by reflexivity.
  exact (proj1 (invalid_delimiter (L:=python) Sample.self Sample.fs Inputs.two_lines 0
                  _ "ab" H1 H2 H3)).
Defined.

Lemma unused_options_witness :
  parse (L:=python) Sample.self Sample.fs Inputs.table (Stream 0) (Some "tsv")
    Inputs.semicolon false
  = parse (L:=python) Sample.self Sample.fs Inputs.table (Stream 0) (Some "tsv")
      Sample.no_options false.
Proof.
  assert ((resolve_format Inputs.table (Stream 0) (Some "tsv") <> "csv"
           /\ fixed_schema Inputs.semicolon = fixed_schema Sample.no_options)
          \/ (resolve_format Inputs.table (Stream 0) (Some "tsv") <> "fixed"
              /\ csv_delimiter Inputs.semicolon = csv_delimiter Sample.no_options)) as H
    by (left; split; [vm_compute; discriminate|reflexivity]).
  exact (unused_options (L:=python) Sample.self Sample.fs Inputs.table (Stream 0) (Some "tsv")
           Inputs.semicolon Sample.no_options H).
Defined.

End Instances.

Section UnknownFormatInstance.
Import Py IO FP Behaviour.

Lemma unknown_format_decodes_lines_witness :
  (exists σ',
     parse (L:=python) Sample.self Sample.fs [] (Path "notes") None Sample.no_options false
     = Some (Ok (Eager [numbered 1 "first"; numbered 2 ""; numbered 3 "third"]), σ'))
  /\ exists msg,
       next (L:=python) (GNew _parse_unknown 0 Sample.no_options)
         [mkfile (Some "notes") (lines_of (written ["first"; ""; "third"])) true]
       = (Error (ValueError msg), GDone,
          [mkfile (Some "notes") (lines_of (written ["first"; ""; "third"])) true]).
Proof.
  assert (resolve_format [] (Path "notes") None = "unknown") as H1
    by (vm_compute; reflexivity).
  assert (acquire Sample.self Sample.fs [] (Path "notes")
          = (Ok 0, [mkfile (Some "notes") (lines_of (written ["first"; ""; "third"])) false]))
    as H2 by (vm_compute; reflexivity).
  assert (f_closed (file_at
            [mkfile (Some "notes") (lines_of (written ["first"; ""; "third"])) false] 0)
          = false) as H3 by reflexivity.
  assert (f_lines (file_at
            [mkfile (Some "notes") (lines_of (written ["first"; ""; "third"])) false] 0)
          = lines_of (written ["first"; ""; "third"] +:+ "")) as H4
    by (vm_compute; reflexivity).
  assert (Forall (fun l => LF ∉ Text.chars l) ["first"; ""; "third"]) as H5
    by (repeat (apply Forall_cons; split; [decided|]); apply Forall_nil_2).
  assert (LF ∉ Text.chars "") as H6 by decided.
  pose proof (unknown_format_decodes_lines (L:=python) Sample.self Sample.fs [] (Path "notes")
                Sample.no_options 0 _ _ "" H1 H2 H3 H4 H5 H6) as H.
  cbv zeta in H. destruct H as (_ & Heager & _ & _ & Hlazy).
  split; [exact Heager|exact Hlazy].
Defined.

End UnknownFormatInstance.
